(** * A shallow embedding of the browser agent's decision loop

    The development follows the Python sources module by module:

    - [Py]: the fragment of Python's data model the agent relies on
      (JSON-like values, dictionaries, exceptions, string methods);
    - [Re]: a backtracking matcher for the regular expressions that occur
      in the sources, with Python's leftmost and greedy-first priorities;
    - [ActionTools], [ContextManager], [EpisodicMemory],
      [ReflectionPattern], [ElementFinder], [BrowserAgent]: the classes of
      the repository, each definition carrying the name of the method it
      embeds.

    Python [str] values are represented by their UTF-8 encoding, one
    [ascii] per byte; every delimiter the sources search for is ASCII or a
    complete Cyrillic word, so byte-wise search agrees with search on code
    points.  Python [float] values are represented by the rational number
    their literal denotes.  Values are the JSON-like ones the decision
    source and the browser methods exchange; the resource limits of the
    interpreter (recursion depth, memory) are not modelled.

    The collaborators outside the repository are parameters: the [json]
    module is a type class with the one law the sources rely on, the
    browser, the language model and the clock form the record [World.Env],
    and Selenium's driver the record [ElementFinder.Driver]. *)

From Stdlib Require Import String Ascii List ZArith QArith Bool Lia.
From Stdlib Require Import DecimalString Sorted Permutation.
Import ListNotations.
Open Scope string_scope.
Open Scope Z_scope.
Set Warnings "-register-all".

(* ================================================================== *)
(** * Python values, exceptions and string methods *)
(* ================================================================== *)

Module Py.

(** JSON-like Python values: what [json.loads] produces and what the
    agent stores in its dictionaries. *)
Inductive pyval : Type :=
| PNone
| PBool (b : bool)
| PInt (z : Z)
| PFloat (q : Q)
| PStr (s : string)
| PList (l : list pyval)
| PDict (d : list (string * pyval)).

(** A [dict] with string keys, in insertion order, keys pairwise distinct. *)
Definition dict : Type := list (string * pyval).

(** Exceptions are identified by their class; [exn_msg] is [str(e)]. *)
Inductive exn_class : Type :=
| TypeError | AttributeError | ValueError | KeyError
| JSONDecodeError | OSError | FileNotFoundError | WebDriverException
| ConnectionError.

Record exn : Type := Exn { exn_cls : exn_class; exn_msg : string }.

(** Outcome of evaluating a Python expression or statement block. *)
Inductive res (A : Type) : Type :=
| Ok (a : A)
| Raise (e : exn).
Arguments Ok {A} a.
Arguments Raise {A} e.

Definition bind {A B} (m : res A) (k : A -> res B) : res B :=
  match m with
  | Ok a => k a
  | Raise e => Raise e
  end.

(** [try: m except Exception as e: h e] *)
Definition try_except {A} (m : res A) (h : exn -> res A) : res A :=
  match m with
  | Ok a => Ok a
  | Raise e => h e
  end.

Notation "x <- m ;; k" := (bind m (fun x => k))
  (at level 61, m at next level, right associativity).

Definition is_ok {A} (m : res A) : bool :=
  match m with Ok _ => true | Raise _ => false end.

(** ** Dictionaries *)

Fixpoint dict_get (k : string) (d : dict) : option pyval :=
  match d with
  | [] => None
  | (k', v) :: d' => if String.eqb k k' then Some v else dict_get k d'
  end.

Definition dict_has (k : string) (d : dict) : bool :=
  match dict_get k d with Some _ => true | None => false end.

(** [d[k] = v]: overwrite in place, or append a new key. *)
Fixpoint dict_set (k : string) (v : pyval) (d : dict) : dict :=
  match d with
  | [] => [(k, v)]
  | (k', v') :: d' =>
      if String.eqb k k' then (k', v) :: d' else (k', v') :: dict_set k v d'
  end.

(** [d.get(k, default)] *)
Definition dict_get_default (k : string) (default : pyval) (d : dict) : pyval :=
  match dict_get k d with Some v => v | None => default end.

(** ** Truth value testing, as in [if x:] and [not x]. *)
Definition truthy (v : pyval) : bool :=
  match v with
  | PNone => false
  | PBool b => b
  | PInt z => negb (z =? 0)
  | PFloat q => negb (Qeq_bool q 0)
  | PStr s => negb (String.eqb s "")
  | PList l => match l with [] => false | _ => true end
  | PDict d => match d with [] => false | _ => true end
  end.

(** [v == "literal"] for a string literal on the right. *)
Definition eq_str (v : pyval) (s : string) : bool :=
  match v with
  | PStr s' => String.eqb s' s
  | _ => false
  end.

(** The name Python prints for the type of a value. *)
Definition type_name (v : pyval) : string :=
  match v with
  | PNone => "NoneType"
  | PBool _ => "bool"
  | PInt _ => "int"
  | PFloat _ => "float"
  | PStr _ => "str"
  | PList _ => "list"
  | PDict _ => "dict"
  end.

(** [v.get(k, default)]: only dictionaries have the method. *)
Definition method_get (v : pyval) (k : string) (default : pyval) : res pyval :=
  match v with
  | PDict d => Ok (dict_get_default k default d)
  | _ => Raise (Exn AttributeError
                  ("'" ++ type_name v ++ "' object has no attribute 'get'"))
  end.

(** ** Strings *)

Fixpoint str_contains (sub s : string) : bool :=
  String.prefix sub s ||
  match s with
  | EmptyString => false
  | String _ s' => str_contains sub s'
  end.

Definition is_upper_ascii (c : ascii) : bool :=
  let n := nat_of_ascii c in (65 <=? n)%nat && (n <=? 90)%nat.

(** [str.lower()] on the UTF-8 encoding, for the two alphabets the sources
    use: ASCII letters, and the Cyrillic block U+0410..U+042F and U+0401,
    whose two-byte encodings are mapped to those of U+0430..U+044F and
    U+0451.  All other bytes are kept. *)
Fixpoint lower (s : string) : string :=
  match s with
  | EmptyString => EmptyString
  | String c s' =>
      let n := nat_of_ascii c in
      if is_upper_ascii c then String (ascii_of_nat (n + 32)) (lower s')
      else if (n =? 208)%nat then
        match s' with
        | String c2 s'' =>
            let m := nat_of_ascii c2 in
            if (m =? 129)%nat then
              String (ascii_of_nat 209) (String (ascii_of_nat 145) (lower s''))
            else if (144 <=? m)%nat && (m <=? 159)%nat then
              String c (String (ascii_of_nat (m + 32)) (lower s''))
            else if (160 <=? m)%nat && (m <=? 175)%nat then
              String (ascii_of_nat 209) (String (ascii_of_nat (m - 32)) (lower s''))
            else String c (String c2 (lower s''))
        | EmptyString => String c EmptyString
        end
      else String c (lower s')
  end.

(** [any(w in s for w in words)] *)
Definition any_contains (words : list string) (s : string) : bool :=
  existsb (fun w => str_contains w s) words.

(** [str(n)] for an [int]. *)
Definition str_of_int (z : Z) : string := NilZero.string_of_int (Z.to_int z).

(** [s[n:]] *)
Fixpoint drop (n : nat) (s : string) : string :=
  match n, s with
  | O, _ => s
  | S n', String _ s' => drop n' s'
  | S _, EmptyString => EmptyString
  end.

Fixpoint rev_append (s acc : string) : string :=
  match s with
  | EmptyString => acc
  | String c s' => rev_append s' (String c acc)
  end.

Definition rev (s : string) : string := rev_append s EmptyString.

Fixpoint lstrip_by (p : ascii -> bool) (s : string) : string :=
  match s with
  | String c s' => if p c then lstrip_by p s' else s
  | EmptyString => EmptyString
  end.

Definition strip_by (p : ascii -> bool) (s : string) : string :=
  rev (lstrip_by p (rev (lstrip_by p s))).

(** The ASCII characters for which [str.isspace()] holds. *)
Definition is_space (c : ascii) : bool :=
  let n := nat_of_ascii c in
  ((9 <=? n)%nat && (n <=? 13)%nat) || ((28 <=? n)%nat && (n <=? 32)%nat).

(** [s.strip()] and [s.strip(chars)] *)
Definition strip (s : string) : string := strip_by is_space s.

Definition strip_chars (chars : list ascii) (s : string) : string :=
  strip_by (fun c => existsb (Ascii.eqb c) chars) s.

(** [s.split(sep)] for a non-empty [sep]: cut at the occurrences of [sep]
    found from left to right, without overlap.  [skip] counts the
    characters of a separator still to be passed, [cur] holds the current
    piece in reverse. *)
Fixpoint split_aux (sep s : string) (skip : nat) (cur : string) : list string :=
  match s with
  | EmptyString => [rev cur]
  | String c s' =>
      match skip with
      | S n => split_aux sep s' n cur
      | O =>
          if String.prefix sep s
          then rev cur :: split_aux sep s' (String.length sep - 1) EmptyString
          else split_aux sep s' O (String c cur)
      end
  end.

Definition split (sep s : string) : list string := split_aux sep s O EmptyString.

(** [sep.join(parts)] *)
Definition join (sep : string) (parts : list string) : string :=
  String.concat sep parts.

(** [s.replace(old, new)] for a non-empty [old] *)
Definition replace (old new s : string) : string := join new (split old s).

(** [l[-1]] of a list that [split] returned (never empty) *)
Definition last_part (l : list string) : string := List.last l EmptyString.

(** [l[1:-1]] *)
Definition slice_1_m1 {A} (l : list A) : list A :=
  List.removelast (List.tl l).

(** [float(s)] for [s] matching [\d+\.?\d*]: the rational the digits denote. *)
Definition digit_val (c : ascii) : Z := Z.of_nat (nat_of_ascii c - 48).

Fixpoint digits_val (s : string) (acc : Z) : Z :=
  match s with
  | EmptyString => acc
  | String c s' => digits_val s' (10 * acc + digit_val c)
  end.

Definition float_of_digits (s : string) : Q :=
  match split "." s with
  | [ip] => inject_Z (digits_val ip 0)
  | ip :: fp :: _ =>
      Qred (Qmake (digits_val ip 0 * 10 ^ Z.of_nat (String.length fp)
                   + digits_val fp 0)
                  (Z.to_pos (10 ^ Z.of_nat (String.length fp))))
  | [] => 0%Q
  end.

(** The digits of [r / d] after the decimal point, [n] of them at most. *)
Fixpoint frac_digits (n : nat) (r d : Z) : string :=
  match n with
  | O => EmptyString
  | S n' =>
      if (r =? 0)%Z then EmptyString
      else String (ascii_of_nat (48 + Z.to_nat (10 * r / d)))
                  (frac_digits n' ((10 * r) mod d) d)
  end.

(** [str(x)] for a [float]: the decimal expansion, ["1.0"] for one. *)
Definition str_of_float (q : Q) : string :=
  let n := Qnum q in
  let d := Zpos (Qden q) in
  let a := Z.abs n in
  let fd := frac_digits 20 (a mod d) d in
  (if (n <? 0)%Z then "-" else "") ++ str_of_int (a / d) ++ "." ++
  (match fd with EmptyString => "0" | _ => fd end).

(** [repr(v)], without escapes inside string literals. *)
Fixpoint repr (v : pyval) : string :=
  match v with
  | PNone => "None"
  | PBool true => "True"
  | PBool false => "False"
  | PInt z => str_of_int z
  | PFloat q => str_of_float q
  | PStr s => "'" ++ s ++ "'"
  | PList l =>
      "[" ++
      (fix items (l : list pyval) : string :=
         match l with
         | [] => EmptyString
         | [x] => repr x
         | x :: l' => repr x ++ ", " ++ items l'
         end) l ++ "]"
  | PDict d =>
      "{" ++
      (fix members (d : list (string * pyval)) : string :=
         match d with
         | [] => EmptyString
         | [(k, x)] => "'" ++ k ++ "': " ++ repr x
         | (k, x) :: d' => "'" ++ k ++ "': " ++ repr x ++ ", " ++ members d'
         end) d ++ "}"
  end.

(** [str(v)], as an f-string renders a value. *)
Definition to_str (v : pyval) : string :=
  match v with
  | PStr s => s
  | _ => repr v
  end.

(** [l[start:]] and [l[:stop]] with Python's treatment of negative and
    out-of-range bounds. *)
Definition slice_from {A} (start : Z) (l : list A) : list A :=
  let n := Z.of_nat (List.length l) in
  let i := if start <? 0 then Z.max (n + start) 0 else Z.min start n in
  skipn (Z.to_nat i) l.

Definition slice_to {A} (stop : Z) (l : list A) : list A :=
  let n := Z.of_nat (List.length l) in
  let j := if stop <? 0 then Z.max (n + stop) 0 else Z.min stop n in
  firstn (Z.to_nat j) l.

(** [len(s)]: the number of code points, that is of bytes that do not
    continue a UTF-8 sequence. *)
Fixpoint len (s : string) : nat :=
  match s with
  | EmptyString => O
  | String c s' =>
      let n := nat_of_ascii c in
      if (128 <=? n)%nat && (n <=? 191)%nat then len s' else S (len s')
  end.

(** [key in v], for a string [key] *)
Definition contains_str (key : string) (v : pyval) : res bool :=
  match v with
  | PDict d => Ok (dict_has key d)
  | PList l => Ok (existsb (fun x => eq_str x key) l)
  | PStr s => Ok (str_contains key s)
  | _ => Raise (Exn TypeError
                  ("argument of type '" ++ type_name v ++ "' is not iterable"))
  end.

(** [v[key] = x], for a string [key] *)
Definition setitem_str (v : pyval) (key : string) (x : pyval) : res pyval :=
  match v with
  | PDict d => Ok (PDict (dict_set key x d))
  | PList _ =>
      Raise (Exn TypeError "list indices must be integers or slices, not str")
  | _ =>
      Raise (Exn TypeError
               ("'" ++ type_name v ++ "' object does not support item assignment"))
  end.

(** [v.lower()]: a method of [str] only. *)
Definition method_lower (v : pyval) : res string :=
  match v with
  | PStr s => Ok (lower s)
  | _ => Raise (Exn AttributeError
                  ("'" ++ type_name v ++ "' object has no attribute 'lower'"))
  end.

(** The newline, the double quote and the apostrophe *)
Definition nl : string := String "010" EmptyString.
Definition dq : ascii := "034"%char.
Definition sq : ascii := "039"%char.

(** A loop that collects results and stops at the first exception *)
Fixpoint map_res {A B} (f : A -> res B) (l : list A) : res (list B) :=
  match l with
  | [] => Ok []
  | x :: l' => y <- f x ;; ys <- map_res f l' ;; Ok (y :: ys)
  end.

End Py.

(* ================================================================== *)
(** * Regular expressions ([re.search]) *)
(* ================================================================== *)

Module Re.

(** The operators the patterns of the sources use.  A pattern has at most
    one capturing group. *)
Inductive regex : Type :=
| Eps
| Chr (p : ascii -> bool)        (* one character of a class *)
| Seq (r1 r2 : regex)
| Alt (r1 r2 : regex)
| Star (r : regex)               (* r*, greedy *)
| LazyPlus (r : regex)           (* r+?, reluctant *)
| Group (r : regex)              (* ( r ) *)
| Ahead (r : regex)              (* (?= r ) *)
| EndOfString.                   (* $ *)

Definition cap : Type := option (nat * nat).
Definition cont : Type := string -> nat -> cap -> option (nat * cap).

(** The loops of [r*] and [r+?], given the matcher [step] of [r].  A pass
    that consumes nothing is not repeated; [fuel] exceeds the number of
    characters left. *)
Fixpoint star_loop (step : string -> nat -> cap -> cont -> option (nat * cap))
  (k : cont) (fuel : nat) (s : string) (i : nat) (c : cap)
  : option (nat * cap) :=
  match fuel with
  | O => k s i c
  | S fuel' =>
      match step s i c
              (fun s' i' c' =>
                 if (i <? i')%nat then star_loop step k fuel' s' i' c' else None) with
      | Some x => Some x
      | None => k s i c
      end
  end.

Fixpoint lazy_loop (step : string -> nat -> cap -> cont -> option (nat * cap))
  (k : cont) (fuel : nat) (s : string) (i : nat) (c : cap)
  : option (nat * cap) :=
  match fuel with
  | O => None
  | S fuel' =>
      step s i c
        (fun s' i' c' =>
           match k s' i' c' with
           | Some x => Some x
           | None =>
               if (i <? i')%nat then lazy_loop step k fuel' s' i' c' else None
           end)
  end.

(** Backtracking matcher in continuation-passing style: [s] is the text
    that remains, [i] its offset in the subject, [k] what has to match
    afterwards.  The first alternative that lets [k] succeed wins. *)
Fixpoint run (r : regex) (s : string) (i : nat) (c : cap) (k : cont)
  {struct r} : option (nat * cap) :=
  match r with
  | Eps => k s i c
  | Chr p =>
      match s with
      | String a s' => if p a then k s' (S i) c else None
      | EmptyString => None
      end
  | Seq r1 r2 => run r1 s i c (fun s' i' c' => run r2 s' i' c' k)
  | Alt r1 r2 =>
      match run r1 s i c k with
      | Some x => Some x
      | None => run r2 s i c k
      end
  | Star r1 => star_loop (run r1) k (S (String.length s)) s i c
  | LazyPlus r1 => lazy_loop (run r1) k (S (String.length s)) s i c
  | Group r1 => run r1 s i c (fun s' i' _ => k s' i' (Some (i, i')))
  | Ahead r1 =>
      match run r1 s i c (fun _ i' c' => Some (i', c')) with
      | Some _ => k s i c
      | None => None
      end
  | EndOfString =>
      match s with
      | EmptyString => k s i c
      | String a EmptyString =>
          if Ascii.eqb a "010"%char then k s i c else None
      | _ => None
      end
  end.

(** A match object: the span of the whole match and of group 1. *)
Record match_obj : Type := Match {
  m_subject : string;
  m_start : nat;
  m_end : nat;
  m_cap : cap
}.

Fixpoint search_from (r : regex) (subject s : string) (i : nat)
  : option match_obj :=
  match run r s i None (fun _ j c => Some (j, c)) with
  | Some (j, c) => Some (Match subject i j c)
  | None =>
      match s with
      | EmptyString => None
      | String _ s' => search_from r subject s' (S i)
      end
  end.

(** [re.search(r, s)]: the match at the leftmost position that has one. *)
Definition search (r : regex) (s : string) : option match_obj :=
  search_from r s s 0.

(** [m.group()] and [m.group(1)] *)
Definition group0 (m : match_obj) : string :=
  substring (m_start m) (m_end m - m_start m) (m_subject m).

Definition group1 (m : match_obj) : string :=
  match m_cap m with
  | Some (a, b) => substring a (b - a) (m_subject m)
  | None => EmptyString
  end.

(** Character classes *)
Definition one (a : ascii) : ascii -> bool := Ascii.eqb a.
Definition none_of (l : list ascii) : ascii -> bool :=
  fun c => negb (existsb (Ascii.eqb c) l).
Definition any_char : ascii -> bool := fun _ => true.
Definition in_range (lo hi : nat) : ascii -> bool :=
  fun c => let n := nat_of_ascii c in (lo <=? n)%nat && (n <=? hi)%nat.
(** [\s]: the ASCII characters Python counts as whitespace *)
Definition space : ascii -> bool :=
  fun c => in_range 9 13 c || in_range 28 32 c.
Definition digit : ascii -> bool := in_range 48 57.
Definition alpha : ascii -> bool :=
  fun c => in_range 65 90 c || in_range 97 122 c.

(** A literal string *)
Fixpoint Lit (s : string) : regex :=
  match s with
  | EmptyString => Eps
  | String a s' => Seq (Chr (one a)) (Lit s')
  end.

Definition Plus (r : regex) : regex := Seq r (Star r).
Definition Opt (r : regex) : regex := Alt r Eps.

End Re.

(* ================================================================== *)
(** * The [json] module *)
(* ================================================================== *)

Module Json.
Import Py.

(** The two entry points the sources call.  [loads] returns [None] where
    Python raises [JSONDecodeError].  A document whose first character is
    an opening brace is an object, so it decodes to a [dict] or not at
    all. *)
Class Codec : Type := {
  loads : string -> option pyval;
  dumps : pyval -> string;
  loads_object :
    forall s v, loads (String "{" s) = Some v -> exists d, v = PDict d
}.

(** ** A reference decoder and encoder

    They cover JSON without [\u] escapes and without exponents, which is
    enough to run the agent on concrete replies. *)

Definition skip_ws (s : string) : string := lstrip_by is_space s.

(** The characters of a string literal up to its closing quote. *)
Fixpoint parse_string_body (s : string) (acc : string)
  : option (string * string) :=
  match s with
  | EmptyString => None
  | String c s' =>
      if Ascii.eqb c "034"%char then Some (rev acc, s')
      else if Ascii.eqb c "\"%char then
        match s' with
        | String e s'' =>
            let put x := parse_string_body s'' (String x acc) in
            if Ascii.eqb e "034"%char then put "034"%char
            else if Ascii.eqb e "\"%char then put "\"%char
            else if Ascii.eqb e "/"%char then put "/"%char
            else if Ascii.eqb e "n"%char then put "010"%char
            else if Ascii.eqb e "t"%char then put "009"%char
            else if Ascii.eqb e "r"%char then put "013"%char
            else if Ascii.eqb e "b"%char then put "008"%char
            else if Ascii.eqb e "f"%char then put "012"%char
            else None
        | EmptyString => None
        end
      else if (nat_of_ascii c <? 32)%nat then None
      else parse_string_body s' (String c acc)
  end.

Fixpoint take_while (p : ascii -> bool) (s : string) : string * string :=
  match s with
  | String c s' =>
      if p c then let (a, b) := take_while p s' in (String c a, b)
      else (EmptyString, s)
  | EmptyString => (EmptyString, EmptyString)
  end.

Definition is_digit (c : ascii) : bool :=
  let n := nat_of_ascii c in (48 <=? n)%nat && (n <=? 57)%nat.

(** [-? digits ( . digits )?] *)
Definition parse_number (s : string) : option (pyval * string) :=
  let (neg, s1) :=
    match s with
    | String "-" r => (true, r)
    | _ => (false, s)
    end in
  let (ip, s2) := take_while is_digit s1 in
  match ip with
  | EmptyString => None
  | _ =>
      let sign (z : Z) := if neg then (- z)%Z else z in
      match s2 with
      | String "." r =>
          let (fp, s3) := take_while is_digit r in
          match fp with
          | EmptyString => None
          | _ =>
              let q := float_of_digits (ip ++ "." ++ fp) in
              Some (PFloat (if neg then Qred (- q) else q), s3)
          end
      | _ => Some (PInt (sign (digits_val ip 0)), s2)
      end
  end.

Fixpoint parse_value (fuel : nat) (s : string) : option (pyval * string) :=
  match fuel with
  | O => None
  | S fuel' =>
      match skip_ws s with
      | String "{" r =>
          match skip_ws r with
          | String "}" r' => Some (PDict [], r')
          | r' => parse_members fuel' r' []
          end
      | String "[" r =>
          match skip_ws r with
          | String "]" r' => Some (PList [], r')
          | r' => parse_elems fuel' r' []
          end
      | String "034" r =>
          match parse_string_body r EmptyString with
          | Some (str, r') => Some (PStr str, r')
          | None => None
          end
      | String "t" (String "r" (String "u" (String "e" r))) =>
          Some (PBool true, r)
      | String "f" (String "a" (String "l" (String "s" (String "e" r)))) =>
          Some (PBool false, r)
      | String "n" (String "u" (String "l" (String "l" r))) =>
          Some (PNone, r)
      | s' => parse_number s'
      end
  end

with parse_elems (fuel : nat) (s : string) (acc : list pyval)
  : option (pyval * string) :=
  match fuel with
  | O => None
  | S fuel' =>
      match parse_value fuel' s with
      | Some (v, r) =>
          match skip_ws r with
          | String "," r' => parse_elems fuel' r' (acc ++ [v])
          | String "]" r' => Some (PList (acc ++ [v]), r')
          | _ => None
          end
      | None => None
      end
  end

with parse_members (fuel : nat) (s : string) (acc : dict)
  : option (pyval * string) :=
  match fuel with
  | O => None
  | S fuel' =>
      match skip_ws s with
      | String "034" r =>
          match parse_string_body r EmptyString with
          | Some (key, r1) =>
              match skip_ws r1 with
              | String ":" r2 =>
                  match parse_value fuel' r2 with
                  | Some (v, r3) =>
                      match skip_ws r3 with
                      | String "," r4 => parse_members fuel' r4 (dict_set key v acc)
                      | String "}" r4 => Some (PDict (dict_set key v acc), r4)
                      | _ => None
                      end
                  | None => None
                  end
              | _ => None
              end
          | None => None
          end
      | _ => None
      end
  end.

Definition ref_loads (s : string) : option pyval :=
  match parse_value (2 * String.length s + 2) s with
  | Some (v, r) =>
      match skip_ws r with
      | EmptyString => Some v
      | _ => None
      end
  | None => None
  end.

Fixpoint escape (s : string) : string :=
  match s with
  | EmptyString => EmptyString
  | String c s' =>
      let rest := escape s' in
      if Ascii.eqb c "034"%char then String "\" (String "034" rest)
      else if Ascii.eqb c "\"%char then String "\" (String "\" rest)
      else if Ascii.eqb c "010"%char then String "\" (String "n" rest)
      else if Ascii.eqb c "009"%char then String "\" (String "t" rest)
      else if Ascii.eqb c "013"%char then String "\" (String "r" rest)
      else if Ascii.eqb c "008"%char then String "\" (String "b" rest)
      else if Ascii.eqb c "012"%char then String "\" (String "f" rest)
      else String c rest
  end.

Fixpoint ref_dumps (v : pyval) : string :=
  match v with
  | PNone => "null"
  | PBool true => "true"
  | PBool false => "false"
  | PInt z => str_of_int z
  | PFloat q => str_of_float q
  | PStr s => String "034" (escape s ++ String "034" EmptyString)
  | PList l =>
      "[" ++
      (fix items (l : list pyval) : string :=
         match l with
         | [] => EmptyString
         | [x] => ref_dumps x
         | x :: l' => ref_dumps x ++ ", " ++ items l'
         end) l ++ "]"
  | PDict d =>
      "{" ++
      (fix members (d : list (string * pyval)) : string :=
         match d with
         | [] => EmptyString
         | [(k, x)] =>
             String "034" (escape k ++ String "034" EmptyString) ++ ": " ++ ref_dumps x
         | (k, x) :: d' =>
             String "034" (escape k ++ String "034" EmptyString) ++ ": " ++ ref_dumps x
             ++ ", " ++ members d'
         end) d ++ "}"
  end.

End Json.

(* ================================================================== *)
(** * tools/action_tools.py *)
(* ================================================================== *)

Module ActionTools.
Import Py Re.

(** [@dataclass class Action].  The fields are annotated [str], [str],
    [Dict[str, Any]] and [float]; the agent fills them with whatever the
    decoded reply holds, so they are kept as Python values. *)
Record Action : Type := mkAction {
  type : pyval;
  description : pyval;
  parameters : pyval;
  confidence : pyval
}.

(** [Action(type, description, parameters)] with the default confidence *)
Definition Action3 (t d : string) (p : pyval) : Action :=
  mkAction (PStr t) (PStr d) p (PFloat 1).

Definition ACTION_MAPPING : list (string * string) :=
  [ ("navigate", "navigate_to");
    ("click", "click_element");
    ("type", "type_text");
    ("press_key", "press_key");
    ("scroll", "scroll");
    ("go_back", "go_back");
    ("refresh", "refresh");
    ("screenshot", "take_screenshot");
    ("execute_js", "execute_javascript");
    ("wait", "wait") ].

Fixpoint mapping_lookup (k : string) (m : list (string * string)) : option string :=
  match m with
  | [] => None
  | (k', v) :: m' => if String.eqb k k' then Some v else mapping_lookup k m'
  end.

(** [ACTION_MAPPING.get(key)]: lists and dictionaries cannot be hashed;
    no other value than a string equals a key. *)
Definition mapping_get (key : pyval) (m : list (string * string))
  : res (option string) :=
  match key with
  | PStr s => Ok (mapping_lookup s m)
  | PList _ | PDict _ =>
      Raise (Exn TypeError ("unhashable type: '" ++ type_name key ++ "'"))
  | _ => Ok None
  end.

(** [DQ key DQ \s* : \s*], where DQ stands for the double quote *)
Definition re_key (key : string) : regex :=
  Seq (Chr (one dq)) (Seq (Lit key) (Seq (Chr (one dq))
    (Seq (Star (Chr space)) (Seq (Chr (one ":")) (Star (Chr space)))))).

(** action_match: [DQ action DQ \s* : \s* DQ ( [^DQ]+ ) DQ] *)
Definition re_action : regex :=
  Seq (re_key "action")
    (Seq (Chr (one dq)) (Seq (Group (Plus (Chr (none_of [dq])))) (Chr (one dq)))).

(** params_match: [DQ parameters DQ \s* : \s* ( { [^}]+ } )] *)
Definition re_parameters : regex :=
  Seq (re_key "parameters")
    (Group (Seq (Chr (one "{")) (Seq (Plus (Chr (none_of ["}"%char])))
                                     (Chr (one "}"))))).

(** desc_match: [DQ description DQ \s* : \s* DQ ( [^DQ]+ ) DQ] *)
Definition re_description : regex :=
  Seq (re_key "description")
    (Seq (Chr (one dq)) (Seq (Group (Plus (Chr (none_of [dq])))) (Chr (one dq)))).

(** conf_match: [DQ confidence DQ \s* : \s* ( \d+ \.? \d* )] *)
Definition re_confidence : regex :=
  Seq (re_key "confidence")
    (Group (Seq (Plus (Chr digit)) (Seq (Opt (Chr (one "."))) (Star (Chr digit))))).

Definition non_space : ascii -> bool := fun c => negb (space c).

(** [(https?://[^\s]+|www\.[^\s]+)] *)
Definition url_pattern : regex :=
  Group (Alt (Seq (Lit "http") (Seq (Opt (Chr (one "s")))
                 (Seq (Lit "://") (Plus (Chr non_space)))))
             (Seq (Lit "www.") (Plus (Chr non_space)))).

(** [([a-zA-Z0-9-]+\.[a-zA-Z]{2,})] *)
Definition domain_pattern : regex :=
  Group (Seq (Plus (Chr (fun c => alpha c || digit c || one "-" c)))
             (Seq (Chr (one "."))
                  (Seq (Chr alpha) (Seq (Chr alpha) (Star (Chr alpha)))))).

(** text_match: [[DQ SQ] ( [^DQ SQ]+ ) [DQ SQ]], SQ the apostrophe *)
Definition re_quoted : regex :=
  Seq (Chr (fun c => one dq c || one sq c))
    (Seq (Group (Plus (Chr (none_of [dq; sq]))))
         (Chr (fun c => one dq c || one sq c))).

Definition _parse_navigation_action (text : string) : Action :=
  match search url_pattern text with
  | Some m =>
      let url := group0 m in
      Action3 "navigate" ("Перейти на " ++ url) (PDict [("url", PStr url)])
  | None =>
      match search domain_pattern text with
      | Some m =>
          let domain := group0 m in
          let domain :=
            if negb (String.prefix "http://" domain || String.prefix "https://" domain)
            then "https://" ++ domain else domain in
          Action3 "navigate" ("Перейти на " ++ domain)
                  (PDict [("url", PStr domain)])
      | None =>
          Action3 "navigate" "Перейти на главную страницу Google"
                  (PDict [("url", PStr "https://www.google.com")])
      end
  end.

Definition _parse_click_action (text : string) : Action :=
  let keywords := ["нажми на"; "кликни по"; "click on"; "click the"; "tap on"] in
  let element_desc :=
    fold_left
      (fun element_desc keyword =>
         if str_contains keyword (lower element_desc)
         then strip (last_part (split keyword (lower element_desc)))
         else element_desc)
      keywords text in
  let element_desc := strip_chars [dq; sq] element_desc in
  Action3 "click" ("Кликнуть на " ++ element_desc)
          (PDict [("element_description", PStr element_desc)]).

Definition _parse_type_action (text : string) : Action :=
  let text_match := search re_quoted text in
  let input_text :=
    match text_match with Some m => group1 m | None => EmptyString end in
  let keywords := ["введи"; "напиши"; "type"; "enter"; "input"] in
  let field_desc :=
    fold_left
      (fun field_desc keyword =>
         if str_contains keyword (lower field_desc)
         then
           let parts := split keyword (lower field_desc) in
           if (1 <? List.length parts)%nat then strip (last_part parts)
           else field_desc
         else field_desc)
      keywords text in
  let field_desc :=
    match text_match with
    | Some m =>
        if str_contains (group0 m) field_desc
        then strip (replace (group0 m) "" field_desc)
        else field_desc
    | None => field_desc
    end in
  let prepositions := ["в"; "в поле"; "в input"; "в textarea"; "into"; "in the"] in
  let field_desc :=
    fold_left
      (fun field_desc prep =>
         if String.prefix prep (lower field_desc)
         then strip (drop (String.length prep) field_desc)
         else field_desc)
      prepositions field_desc in
  Action3 "type"
          ("Ввести '" ++ input_text ++ "' в " ++ field_desc)
          (PDict [("element_description", PStr field_desc);
                  ("text", PStr input_text)]).

Definition key_mapping : list (string * string) :=
  [ ("enter", "enter"); ("escape", "escape"); ("tab", "tab");
    ("backspace", "backspace"); ("space", "space");
    ("стрелка вверх", "arrow_up"); ("стрелка вниз", "arrow_down");
    ("стрелка влево", "arrow_left"); ("стрелка вправо", "arrow_right") ].

Definition _parse_key_action (text : string) : Action :=
  let text_lower := lower text in
  match find (fun kv => str_contains (fst kv) text_lower) key_mapping with
  | Some (key_name, key_code) =>
      Action3 "press_key" ("Нажать клавишу " ++ key_name)
              (PDict [("key_name", PStr key_code)])
  | None =>
      Action3 "press_key" "Нажать клавишу Enter"
              (PDict [("key_name", PStr "enter")])
  end.

Definition _parse_scroll_action (text : string) : Action :=
  let text_lower := lower text in
  let direction :=
    if str_contains "вверх" text_lower || str_contains "up" text_lower then "up"
    else if str_contains "вниз" text_lower || str_contains "down" text_lower
    then "down"
    else if str_contains "начало" text_lower || str_contains "top" text_lower
    then "top"
    else if str_contains "конец" text_lower || str_contains "bottom" text_lower
    then "bottom"
    else "down" in
  Action3 "scroll" ("Прокрутить страницу " ++ direction)
          (PDict [("direction", PStr direction)]).

Definition _extract_action_from_text (text : string) : option Action :=
  let text_lower := lower text in
  if any_contains ["перейди"; "открой"; "navigate"; "go to"; "open"] text_lower
  then Some (_parse_navigation_action text)
  else if any_contains ["нажми"; "кликни"; "click"; "tap"] text_lower
  then Some (_parse_click_action text)
  else if any_contains ["введи"; "напиши"; "type"; "enter"; "input"] text_lower
  then Some (_parse_type_action text)
  else if any_contains ["нажми клавишу"; "press"; "key"] text_lower
  then Some (_parse_key_action text)
  else if any_contains ["прокрути"; "scroll"] text_lower
  then Some (_parse_scroll_action text)
  else if any_contains ["назад"; "go back"; "back"] text_lower
  then Some (Action3 "go_back" "Вернуться на предыдущую страницу" (PDict []))
  else if any_contains ["обнови"; "refresh"; "reload"] text_lower
  then Some (Action3 "refresh" "Обновить страницу" (PDict []))
  else None.

Section WithJson.
Context {J : Json.Codec}.

Definition parse_action_from_llm (response : string) : option Action :=
  let response := strip response in
  let response :=
    if String.prefix "```" response
    then
      let lines := split (String "010" EmptyString) response in
      if (1 <? List.length lines)%nat
      then join (String "010" EmptyString) (slice_1_m1 lines)
      else response
    else response in
  let action_match := search re_action response in
  let params_match := search re_parameters response in
  let from_text := _extract_action_from_text response in
  match action_match, params_match with
  | Some am, Some pm =>
      (* try: ... except: pass *)
      match Json.loads (group1 pm) with
      | Some parameters =>
          let action_type := group1 am in
          let description :=
            match search re_description response with
            | Some dm => group1 dm
            | None => action_type
            end in
          let confidence :=
            match search re_confidence response with
            | Some cm => float_of_digits (group1 cm)
            | None => 1%Q
            end in
          Some (mkAction (PStr action_type) (PStr description) parameters
                         (PFloat confidence))
      | None => from_text
      end
  | _, _ => from_text
  end.

End WithJson.

(** The browser object, as [execute_action] sees it: a state, and
    methods that are looked up by name and called with keyword arguments;
    a call returns or raises and may change the state. *)
Section WithBrowser.
Variable B : Type.
Variable getattr : string -> option (B -> dict -> B * res pyval).

Definition fail_dict (error message : string) : pyval :=
  PDict [("success", PBool false); ("error", PStr error);
         ("message", PStr message)].

(** [method( **action.parameters)] if the parameters are not empty,
    [method()] otherwise *)
Definition call_method (method : B -> dict -> B * res pyval) (browser : B)
  (parameters : pyval) : B * res pyval :=
  if truthy parameters
  then
    match parameters with
    | PDict kwargs => method browser kwargs
    | _ => (browser, Raise (Exn TypeError "argument after ** must be a mapping"))
    end
  else method browser [].

(** [ActionTools.execute_action(browser, action)] *)
Definition execute_action (browser : B) (action : Action) : B * res pyval :=
  match mapping_get (type action) ACTION_MAPPING with
  | Raise e => (browser, Raise e)
  | Ok None =>
      (browser,
       Ok (fail_dict ("Unknown action type: " ++ to_str (type action))
                     ("Неизвестный тип действия: " ++ to_str (type action))))
  | Ok (Some method_name) =>
      let on_error (e : exn) :=
        Ok (fail_dict (exn_msg e)
                      ("Ошибка при выполнении действия: " ++ to_str (type action))) in
      match getattr method_name with
      | None =>
          (browser,
           on_error (Exn AttributeError
                         ("'BrowserController' object has no attribute '"
                          ++ method_name ++ "'")))
      | Some method =>
          let called := call_method method browser (parameters action) in
          (fst called, try_except (snd called) on_error)
      end
  end.

End WithBrowser.

End ActionTools.

(* ================================================================== *)
(** * The collaborators outside the repository *)
(* ================================================================== *)

Module World.
Import Py.

(** What [browser.get_page_state()] returns. *)
Record PageState : Type := mkPageState {
  url : string;
  title : string;
  page_type : string;
  elements : list string;
  visible_text_preview : string;
  element_count : Z
}.

(** [hashlib.md5(content.encode()).hexdigest()] *)
Class Hashlib : Type := { md5_hexdigest : string -> string }.

(** The file behind [storage_file]. *)
Inductive file : Type :=
| Absent
| Present (text : string).

Record FS : Type := mkFS {
  fs_file : file;
  fs_writable : bool
}.

(** The arguments of [llm.generate]; the reply is [response.content]. *)
Record LLMRequest : Type := mkRequest {
  prompt : string;
  system_prompt : string;
  temperature : Q;
  max_tokens : Z
}.

(** The language model and the clock answer by the number of the call;
    the browser is a state machine whose methods are looked up by name. *)
Record Env : Type := mkEnv {
  browser_state : Type;
  get_page_state : browser_state -> PageState;
  browser_getattr :
    string -> option (browser_state -> dict -> browser_state * res pyval);
  llm_generate : nat -> LLMRequest -> res string;
  now_isoformat : nat -> string
}.

End World.

(* ================================================================== *)
(** * memory/context_manager.py *)
(* ================================================================== *)

Module ContextManager.
Import Py World.

Record ActionRecord : Type := mkActionRecord {
  timestamp : string;
  action_type : pyval;
  action_description : pyval;
  result : pyval;
  page_state : PageState
}.

Record TaskContext : Type := mkTaskContext {
  task_description : string;
  start_time : string;
  current_step : Z;
  goal : string;
  constraints : list string;
  progress : string
}.

Record t : Type := mk {
  action_history : list ActionRecord;
  maxlen : nat;
  current_task : option TaskContext;
  system_context : list string
}.

(** [ContextManager()] *)
Definition init : t := mk [] 100 None [].

(** [deque.append] on a deque with [maxlen]: the oldest entry leaves when
    the deque is full. *)
Definition deque_append {A} (maxlen : nat) (q : list A) (x : A) : list A :=
  match maxlen with
  | O => []
  | _ =>
      if (List.length q <? maxlen)%nat then List.app q [x]
      else List.app (List.tl q) [x]
  end.

Definition start_new_task (task goal : string) (constraints : list string)
  (now : string) (c : t) : t :=
  mk [] (maxlen c) (Some (mkTaskContext task now 0 goal constraints "")) (system_context c).

(** [add_action]: the record is appended and the step counted before the
    result is inspected, so both survive an exception. *)
Definition add_action (a_type a_desc result : pyval) (ps : PageState)
  (now : string) (c : t) : t * res unit :=
  let record := mkActionRecord now a_type a_desc result ps in
  let hist := deque_append (maxlen c) (action_history c) record in
  match current_task c with
  | None => (mk hist (maxlen c) None (system_context c), Ok tt)
  | Some task =>
      let step := current_step task + 1 in
      let with_progress (p : string) :=
        mkTaskContext (task_description task) (start_time task) step
                      (goal task) (constraints task) p in
      match method_get result "success" PNone with
      | Raise e =>
          (mk hist (maxlen c) (Some (with_progress (progress task)))
              (system_context c), Raise e)
      | Ok ok =>
          let p :=
            if truthy ok
            then "Шаг " ++ str_of_int step ++ " выполнен: " ++ to_str a_desc
            else "Шаг " ++ str_of_int step ++ " не удался: " ++ to_str a_desc in
          (mk hist (maxlen c) (Some (with_progress p)) (system_context c), Ok tt)
      end
  end.

Definition get_recent_actions (count : Z) (c : t) : list ActionRecord :=
  slice_from (- count) (action_history c).

(** [ActionRecord.to_text] *)
Definition to_text (r : ActionRecord) : res string :=
  ok <- method_get (result r) "success" PNone ;;
  msg <- method_get (result r) "message" (PStr "") ;;
  Ok ("[" ++ timestamp r ++ "] " ++ to_str (action_type r) ++ ": "
      ++ to_str (action_description r) ++ " - "
      ++ (if truthy ok then "успешно" else "ошибка")
      ++ " (" ++ to_str msg ++ ")").

Definition get_action_summary (c : t) : res string :=
  match action_history c with
  | [] => Ok "История действий пуста"
  | _ =>
      summary <- map_res to_text (slice_from (-5) (action_history c)) ;;
      Ok (join nl summary)
  end.

Definition get_task_context (c : t) : string :=
  match current_task c with
  | None => "Нет активной задачи"
  | Some task =>
      strip (nl ++ "Задача: " ++ task_description task ++ nl
             ++ "Цель: " ++ goal task ++ nl
             ++ "Текущий шаг: " ++ str_of_int (current_step task) ++ nl
             ++ "Прогресс: " ++ progress task ++ nl
             ++ "Ограничения: " ++ join ", " (constraints task) ++ nl
             ++ "        ")
  end.

(** [enumerate(l, 1)] rendered as numbered lines *)
Fixpoint numbered (i : Z) (l : list string) : list string :=
  match l with
  | [] => []
  | x :: l' => (str_of_int i ++ ". " ++ x) :: numbered (i + 1) l'
  end.

Definition get_full_context (ps : PageState) (c : t) : res string :=
  summary <- get_action_summary c ;;
  let task_part :=
    match current_task c with
    | Some _ => ["=== ТЕКУЩАЯ ЗАДАЧА ==="; get_task_context c; ""]
    | None => []
    end in
  let elems := elements ps in
  let elem_part :=
    match elems with
    | [] => ["Элементы не найдены"]
    | _ =>
        List.app (numbered 1 (slice_to 15 elems))
          (if (15 <? List.length elems)%nat
           then ["... и еще " ++ str_of_int (Z.of_nat (List.length elems) - 15)
                 ++ " элементов"]
           else [])
    end in
  Ok (join nl
        (List.app task_part (List.app
         ["=== ИСТОРИЯ ДЕЙСТВИЙ ==="; summary; "";
          "=== ТЕКУЩАЯ СТРАНИЦА ===";
          "URL: " ++ url ps;
          "Заголовок: " ++ title ps;
          "Тип страницы: " ++ page_type ps;
          "";
          "=== ВИДИМЫЙ ТЕКСТ ===";
          visible_text_preview ps;
          "";
          "=== ДОСТУПНЫЕ ЭЛЕМЕНТЫ ==="] elem_part))).

Definition add_system_context (context : string) (c : t) : t :=
  mk (action_history c) (maxlen c) (current_task c)
     (List.app (system_context c) [context]).

Definition get_system_context (c : t) : string := join nl (system_context c).

End ContextManager.

(* ================================================================== *)
(** * memory/episodic_memory.py *)
(* ================================================================== *)

Module EpisodicMemory.
Import Py World.

(** [@dataclass class Episode].  The fields have the types the dataclass
    annotates; [actions] holds dictionaries with arbitrary values. *)
Record Episode : Type := mkEpisode {
  id : string;
  url : string;
  title : string;
  page_type : string;
  actions : list pyval;
  timestamp : string;
  success : bool;
  learned_patterns : list string
}.

Record t : Type := mk {
  episodes : list Episode;
  patterns : list (string * Z)
}.

Definition empty : t := mk [] [].

(** ** [find_similar_episodes] *)

(** [if url and url in episode.url] *)
Definition url_matches (url : option string) (ep : Episode) : bool :=
  match url with
  | Some u => negb (String.eqb u "") && str_contains u (EpisodicMemory.url ep)
  | None => false
  end.

(** [if page_type and episode.page_type == page_type] *)
Definition page_type_matches (page_type : option string) (ep : Episode) : bool :=
  match page_type with
  | Some p => negb (String.eqb p "") && String.eqb (EpisodicMemory.page_type ep) p
  | None => false
  end.

Definition score (url page_type : option string) (ep : Episode) : Z :=
  (if url_matches url ep then 2 else 0)
  + (if page_type_matches page_type ep then 1 else 0)
  + (if success ep then 1 else 0).

(** [list.sort(key=lambda x: x[0], reverse=True)]: a stable sort by
    descending key.  An element goes in front of the first element whose
    key does not exceed its own. *)
Fixpoint insert_desc {A} (x : Z * A) (l : list (Z * A)) : list (Z * A) :=
  match l with
  | [] => [x]
  | y :: l' => if fst x <? fst y then y :: insert_desc x l' else x :: y :: l'
  end.

Fixpoint sort_desc {A} (l : list (Z * A)) : list (Z * A) :=
  match l with
  | [] => []
  | x :: l' => insert_desc x (sort_desc l')
  end.

Definition scored_episodes (url page_type : option string) (m : t)
  : list (Z * Episode) :=
  filter (fun se => 0 <? fst se)
         (map (fun ep => (score url page_type ep, ep)) (episodes m)).

Definition find_similar_episodes (url page_type : option string)
  (max_results : Z) (m : t) : list Episode :=
  map snd (slice_to max_results (sort_desc (scored_episodes url page_type m))).

(** ** [_extract_patterns] *)

(** [list(set(l))], in the order of first occurrence *)
Fixpoint dedup (l : list string) : list string :=
  match l with
  | [] => []
  | x :: l' => x :: filter (fun y => negb (String.eqb x y)) (dedup l')
  end.

(** The patterns one pair of consecutive actions contributes. *)
Definition pair_patterns (action1 action2 : pyval) : res (list string) :=
  t1 <- method_get action1 "action_type" PNone ;;
  t2 <- method_get action2 "action_type" PNone ;;
  let pattern := to_str t1 ++ " -> " ++ to_str t2 in
  d1 <- method_get action1 "action_description" (PStr "") ;;
  low <- method_lower d1 ;;
  let p_login := if str_contains "login" low then ["login_sequence"] else [] in
  d1' <- method_get action1 "action_description" (PStr "") ;;
  low' <- method_lower d1' ;;
  let p_search := if str_contains "search" low' then ["search_sequence"] else [] in
  ty1 <- method_get action1 "action_type" (PStr "") ;;
  is_click <- contains_str "click" ty1 ;;
  p_ct <-
    (if is_click
     then
       ty2 <- method_get action2 "action_type" (PStr "") ;;
       is_type <- contains_str "type" ty2 ;;
       Ok (if is_type then ["click_then_type"] else [])
     else Ok []) ;;
  Ok (pattern :: p_login ++ p_search ++ p_ct)%list.

Fixpoint all_pair_patterns (actions : list pyval) : res (list string) :=
  match actions with
  | a1 :: ((a2 :: _) as rest) =>
      ps <- pair_patterns a1 a2 ;;
      more <- all_pair_patterns rest ;;
      Ok (ps ++ more)%list
  | _ => Ok []
  end.

Definition _extract_patterns (actions : list pyval) : res (list string) :=
  ps <- all_pair_patterns actions ;;
  Ok (dedup ps).

(** ** [save] and [load] *)

Definition pystrs (l : list string) : pyval := PList (map PStr l).

(** [Episode.to_dict], that is [dataclasses.asdict] *)
Definition to_dict (ep : Episode) : pyval :=
  PDict [ ("id", PStr (id ep));
          ("url", PStr (url ep));
          ("title", PStr (title ep));
          ("page_type", PStr (page_type ep));
          ("actions", PList (actions ep));
          ("timestamp", PStr (timestamp ep));
          ("success", PBool (success ep));
          ("learned_patterns", pystrs (learned_patterns ep)) ].

Definition patterns_to_py (p : list (string * Z)) : pyval :=
  PDict (map (fun kv => (fst kv, PInt (snd kv))) p).

(** The [data] dictionary that [save] hands to [json.dump] *)
Definition snapshot (m : t) : pyval :=
  PDict [ ("episodes", PList (map to_dict (episodes m)));
          ("patterns", patterns_to_py (patterns m)) ].

Definition field_names : list string :=
  ["id"; "url"; "title"; "page_type"; "actions"; "timestamp"; "success";
   "learned_patterns"].

Definition ill_typed {A} (what : string) : res A :=
  Raise (Exn TypeError what).

Definition as_str (v : pyval) : res string :=
  match v with PStr s => Ok s | _ => ill_typed "str expected" end.

Definition as_bool (v : pyval) : res bool :=
  match v with PBool b => Ok b | _ => ill_typed "bool expected" end.

Definition as_list (v : pyval) : res (list pyval) :=
  match v with PList l => Ok l | _ => ill_typed "list expected" end.

Definition as_int (v : pyval) : res Z :=
  match v with PInt z => Ok z | _ => ill_typed "int expected" end.

Definition field (d : dict) (k : string) : res pyval :=
  match dict_get k d with
  | Some v => Ok v
  | None =>
      Raise (Exn TypeError ("__init__() missing 1 required positional argument: '" ++ k ++ "'"))
  end.

(** [Episode] called with the keywords of [ep]: [ep] must be a mapping whose keys are exactly the
    field names.  A value that does not have the annotated type cannot be
    held by [Episode] here and is reported like a bad argument. *)
Definition Episode_of_kwargs (ep : pyval) : res Episode :=
  match ep with
  | PDict d =>
      if forallb (fun kv => existsb (String.eqb (fst kv)) field_names) d
      then
        v_id <- field d "id" ;; v_url <- field d "url" ;;
        v_title <- field d "title" ;; v_pt <- field d "page_type" ;;
        v_act <- field d "actions" ;; v_ts <- field d "timestamp" ;;
        v_ok <- field d "success" ;; v_lp <- field d "learned_patterns" ;;
        i <- as_str v_id ;; u <- as_str v_url ;; ti <- as_str v_title ;;
        pt <- as_str v_pt ;; acts <- as_list v_act ;; ts <- as_str v_ts ;;
        ok <- as_bool v_ok ;; lp0 <- as_list v_lp ;; lp <- map_res as_str lp0 ;;
        Ok (mkEpisode i u ti pt acts ts ok lp)
      else Raise (Exn TypeError "__init__() got an unexpected keyword argument")
  | _ => Raise (Exn TypeError "argument after ** must be a mapping")
  end.

(** Iterating [data.get(key, [])] *)
Definition iterate (v : pyval) : res (list pyval) :=
  match v with
  | PList l => Ok l
  | PDict d => Ok (map (fun kv => PStr (fst kv)) d)
  | PStr s => Ok (map (fun c => PStr (String c EmptyString)) (list_ascii_of_string s))
  | _ => Raise (Exn TypeError ("'" ++ type_name v ++ "' object is not iterable"))
  end.

Definition patterns_of_py (v : pyval) : res (list (string * Z)) :=
  match v with
  | PDict d => map_res (fun kv => n <- as_int (snd kv) ;; Ok (fst kv, n)) d
  | _ => ill_typed "dict expected"
  end.

Section WithRuntime.
Context {J : Json.Codec} {H : Hashlib}.

(** [save]: a failure to open the file is printed and otherwise ignored. *)
Definition save (m : t) (fs : FS) : FS :=
  if fs_writable fs
  then mkFS (Present (Json.dumps (snapshot m))) true
  else fs.

(** The body of the [try] block of [load] *)
Definition load_body (fs : FS) : res t :=
  match fs_file fs with
  | Absent => Raise (Exn FileNotFoundError "No such file or directory")
  | Present text =>
      match Json.loads text with
      | None => Raise (Exn JSONDecodeError "Expecting value")
      | Some data =>
          es <- method_get data "episodes" (PList []) ;;
          items <- iterate es ;;
          eps <- map_res Episode_of_kwargs items ;;
          ps <- method_get data "patterns" (PDict []) ;;
          pats <- patterns_of_py ps ;;
          Ok (mk eps pats)
      end
  end.

(** [load]: a missing file gives an empty memory; any other failure is
    printed and leaves the memory as it was. *)
Definition load (fs : FS) (m : t) : t :=
  match load_body fs with
  | Ok m' => m'
  | Raise e =>
      match exn_cls e with
      | FileNotFoundError => empty
      | _ => m
      end
  end.

(** [EpisodicMemory()] *)
Definition init (fs : FS) : t := load fs empty.

Definition _generate_id (url title : string) (actions : list pyval) : string :=
  substring 0 8
    (md5_hexdigest (url ++ "_" ++ title ++ "_"
                    ++ str_of_int (Z.of_nat (List.length actions)))).

Fixpoint count_pattern (p : string) (pats : list (string * Z)) : list (string * Z) :=
  match pats with
  | [] => [(p, 1)]
  | (k, n) :: pats' =>
      if String.eqb p k then (k, n + 1) :: pats'
      else (k, n) :: count_pattern p pats'
  end.

(** [add_episode]: nothing is stored when the pattern extraction raises.
    [now] is what [datetime.now().isoformat()] returns when the episode is
    built. *)
Definition add_episode (url title page_type : string) (actions : list pyval)
  (success : bool) (now : string) (m : t) (fs : FS) : t * FS * res Episode :=
  let episode_id := _generate_id url title actions in
  match _extract_patterns actions with
  | Raise e => (m, fs, Raise e)
  | Ok learned =>
      let episode :=
        mkEpisode episode_id url title page_type actions now success learned in
      let m' := mk (episodes m ++ [episode])
                   (fold_left (fun ps p => count_pattern p ps) learned (patterns m)) in
      (m', save m' fs, Ok episode)
  end.

End WithRuntime.

(** ** [get_advice] *)

Definition key_action (action : pyval) : res (list string) :=
  r <- method_get action "result" (PDict []) ;;
  ok <- method_get r "success" PNone ;;
  if truthy ok
  then d <- method_get action "action_description" (PStr "") ;;
       Ok ["- " ++ to_str d]
  else Ok [].

Definition advice_for (i : Z) (episode : Episode) : res (list string) :=
  keys <- map_res key_action (slice_from (-5) (actions episode)) ;;
  let key_actions := List.concat keys in
  let header :=
    nl ++ "Пример " ++ str_of_int i ++ " ("
    ++ (if success episode then "успешно" else "неудачно") ++ "):" in
  let page := "Страница: " ++ title episode in
  let acts :=
    match key_actions with
    | [] => []
    | _ => "Действия:" :: key_actions
    end in
  let pats :=
    match learned_patterns episode with
    | [] => []
    | lp => ["Паттерны: " ++ join ", " (slice_to 3 lp)]
    end in
  Ok (List.app [header; page] (List.app acts pats)).

Fixpoint advice_parts (i : Z) (l : list Episode) : res (list string) :=
  match l with
  | [] => Ok []
  | ep :: l' =>
      a <- advice_for i ep ;;
      more <- advice_parts (i + 1) l' ;;
      Ok (a ++ more)%list
  end.

Definition get_advice (current_state : PageState) (m : t) : res string :=
  let similar_episodes :=
    find_similar_episodes None (Some (World.page_type current_state)) 5 m in
  match similar_episodes with
  | [] => Ok ""
  | _ =>
      parts <- advice_parts 1 (slice_to 3 similar_episodes) ;;
      Ok (join nl ("=== СОВЕТЫ ИЗ ПРОШЛОГО ОПЫТА ===" :: parts))
  end.

(** ** [get_patterns_for_page_type] *)

(** The patterns of the successful episodes of a page type, with
    repetitions, in stored order *)
Definition relevant_patterns (page_type : string) (m : t) : list string :=
  flat_map
    (fun episode =>
       if String.eqb (EpisodicMemory.page_type episode) page_type
          && success episode
       then learned_patterns episode else [])
    (episodes m).

Definition get_patterns_for_page_type (page_type : string) (m : t)
  : list string :=
  let pattern_freq :=
    fold_left (fun freq pattern => count_pattern pattern freq)
              (relevant_patterns page_type m) [] in
  let sorted_patterns :=
    sort_desc (map (fun item => (snd item, fst item)) pattern_freq) in
  map snd (slice_to 10 sorted_patterns).

End EpisodicMemory.

(* ================================================================== *)
(** * patterns/reflection_pattern.py *)
(* ================================================================== *)

Module ReflectionPattern.
Import Py Re World.

Record ReflectionResult : Type := mkReflectionResult {
  needs_correction : bool;
  correction_plan : option string;
  learned_lesson : option string;
  confidence_score : Q
}.

(** [ReflectionResult(needs_correction=b)] *)
Definition ReflectionResult1 (b : bool) : ReflectionResult :=
  mkReflectionResult b None None 1.

(** What callers put into [action_history]: the annotation asks for
    dictionaries, the agent passes the [ActionRecord] objects of its
    context manager. *)
Inductive item : Type :=
| Mapping (v : pyval)
| Record_ (r : ContextManager.ActionRecord).

(** [action.get(key, default)] *)
Definition item_get (a : item) (key : string) (default : pyval) : res pyval :=
  match a with
  | Mapping v => method_get v key default
  | Record_ _ =>
      Raise (Exn AttributeError "'ActionRecord' object has no attribute 'get'")
  end.

Record failure : Type := mkFailure {
  f_action : pyval;
  f_error : pyval;
  f_message : pyval
}.

(** The loop over [action_history[-5:]] that fills [recent_failures] *)
Fixpoint collect_failures (window : list item) : res (list failure) :=
  match window with
  | [] => Ok []
  | action :: rest =>
      result <- item_get action "result" (PDict []) ;;
      ok <- method_get result "success" (PBool false) ;;
      if negb (truthy ok)
      then
        a <- item_get action "action_description" PNone ;;
        e <- method_get result "error" (PStr "unknown") ;;
        m <- method_get result "message" (PStr "") ;;
        more <- collect_failures rest ;;
        Ok (mkFailure a e m :: more)
      else collect_failures rest
  end.

Fixpoint format_failure_lines (i : Z) (failures : list failure) : list string :=
  match failures with
  | [] => []
  | f :: rest =>
      (str_of_int i ++ ". Действие: " ++ to_str (f_action f))
      :: ("   Ошибка: " ++ to_str (f_error f))
      :: ("   Сообщение: " ++ to_str (f_message f))
      :: "" :: format_failure_lines (i + 1) rest
  end.

Definition _format_failures (failures : list failure) : string :=
  match failures with
  | [] => "Нет неудачных действий"
  | _ => join nl (format_failure_lines 1 failures)
  end.

Definition _detect_correction_needed (analysis : string) : bool :=
  any_contains
    ["нужно"; "следует"; "рекомендуется"; "необходимо";
     "исправьте"; "попробуйте"; "измените"; "скорректируйте";
     "ошибка"; "неправильно"; "неверно"]
    (lower analysis).

(** [LABEL[:\s]+(.+?)(?=\n\n|\n[A-Z]|$)] under [re.DOTALL | re.IGNORECASE]:
    the pattern is written in lower case and run on the lowered text; the
    spans are then read off the text itself. *)
Definition re_section (label : string) : regex :=
  Seq (Lit (lower label))
    (Seq (Plus (Chr (fun c => one ":" c || space c)))
       (Seq (Group (LazyPlus (Chr any_char)))
            (Ahead (Alt (Lit (nl ++ nl))
                        (Alt (Seq (Lit nl) (Chr (in_range 97 122)))
                             EndOfString))))).

Definition search_section (label analysis : string) : option string :=
  match search (re_section label) (lower analysis) with
  | Some m =>
      Some (strip (group1 (Match analysis (m_start m) (m_end m) (m_cap m))))
  | None => None
  end.

Fixpoint first_section (labels : list string) (analysis : string) : option string :=
  match labels with
  | [] => None
  | l :: rest =>
      match search_section l analysis with
      | Some x => Some x
      | None => first_section rest analysis
      end
  end.

Definition _extract_correction_plan (analysis : string) : option string :=
  match first_section ["План"; "Рекомендации"; "Следующий шаг"; "Корректировка"]
                      analysis with
  | Some x => Some x
  | None =>
      match split (nl ++ nl) (strip analysis) with
      | [] => None
      | paragraphs => Some (strip (last_part paragraphs))
      end
  end.

Definition _extract_lesson (analysis : string) : option string :=
  first_section ["Урок"; "Вывод"; "Learned"] analysis.

Definition _calculate_confidence (analysis : string) (failure_count : Z) : Q :=
  let confidence := 1%Q in
  let confidence :=
    if 3 <? failure_count then (confidence * (7 # 10))%Q else confidence in
  let analysis_lower := lower analysis in
  let confidence :=
    fold_left
      (fun c w => if str_contains w analysis_lower then (c * (9 # 10))%Q else c)
      ["возможно"; "может быть"; "вероятно"; "скорее всего"] confidence in
  let confidence :=
    fold_left
      (fun c w => if str_contains w analysis_lower then (c * (11 # 10))%Q else c)
      ["точно"; "определенно"; "несомненно"; "очевидно"] confidence in
  let m := if Qle_bool 1 confidence then 1%Q else confidence in
  if Qle_bool m (1 # 10) then (1 # 10)%Q else m.

Definition failure_prompt (task_description : string) (current_state : PageState)
  (recent_failures : list failure) : string :=
  nl ++ "Проанализируй последние неудачные действия и предложи план корректировки."
  ++ nl ++ nl ++ "Задача: " ++ task_description ++ nl ++ nl
  ++ "Текущее состояние страницы:" ++ nl
  ++ "URL: " ++ url current_state ++ nl
  ++ "Заголовок: " ++ title current_state ++ nl
  ++ "Тип страницы: " ++ page_type current_state ++ nl ++ nl
  ++ "Последние неудачи:" ++ nl
  ++ _format_failures recent_failures ++ nl ++ nl
  ++ "Доступные элементы на странице:" ++ nl
  ++ join nl (slice_to 10 (elements current_state)) ++ nl ++ nl
  ++ "Проанализируй:" ++ nl
  ++ "1. Почему действия не удались?" ++ nl
  ++ "2. Что агент неправильно понял о странице?" ++ nl
  ++ "3. Какой должна быть правильная последовательность действий?" ++ nl
  ++ "4. Какой конкретный следующий шаг нужно предпринять?" ++ nl ++ nl
  ++ "Предложи конкретный план корректировки." ++ nl ++ "        ".

(** [analyze_failure].  [calls] is the number of calls the language model
    has answered so far; the result carries the number afterwards. *)
Definition analyze_failure (E : Env) (calls : nat) (action_history : list item)
  (current_state : PageState) (task_description : string)
  : nat * res ReflectionResult :=
  match collect_failures (slice_from (-5) action_history) with
  | Raise e => (calls, Raise e)
  | Ok [] => (calls, Ok (ReflectionResult1 false))
  | Ok recent_failures =>
      let request :=
        mkRequest (failure_prompt task_description current_state recent_failures)
                  "Ты эксперт по анализу ошибок веб-автоматизации."
                  (3 # 10) 2000 in
      match llm_generate E calls request with
      | Ok analysis =>
          (S calls,
           Ok (mkReflectionResult
                 (_detect_correction_needed analysis)
                 (_extract_correction_plan analysis)
                 (_extract_lesson analysis)
                 (_calculate_confidence analysis
                    (Z.of_nat (List.length recent_failures)))))
      | Raise _ => (S calls, Ok (ReflectionResult1 false))
      end
  end.

End ReflectionPattern.

(* ================================================================== *)
(** * browser/element_finder.py *)
(* ================================================================== *)

Module ElementFinder.
Import Py Re.

Inductive By : Type := CSS_SELECTOR | XPATH.

(** The Selenium driver and its elements.  Every call may raise. *)
Record Driver : Type := mkDriver {
  WebElement : Type;
  find_elements : By -> string -> res (list WebElement);
  find_element : By -> string -> res WebElement;
  is_displayed : WebElement -> res bool;
  is_enabled : WebElement -> res bool;
  text : WebElement -> res string;
  tag_name : WebElement -> res string;
  get_attribute : WebElement -> string -> res (option string);
  location : WebElement -> res (Z * Z);
  size : WebElement -> res (Z * Z);
  (** the three scripts handed to [execute_script] *)
  script_attributes : WebElement -> res (list (string * string));
  script_visible_text : WebElement -> res string;
  script_xpath : WebElement -> res string
}.

Record ElementDescriptor : Type := mkElementDescriptor {
  d_tag_name : string;
  d_attributes : list (string * string);
  d_text : string;
  d_visible_text : string;
  d_position : Z * Z;
  d_size : Z * Z;
  d_is_visible : bool;
  d_is_interactable : bool;
  d_xpath : string;
  d_role : option string
}.

Fixpoint assoc (k : string) (l : list (string * string)) : option string :=
  match l with
  | [] => None
  | (k', v) :: l' => if String.eqb k k' then Some v else assoc k l'
  end.

Fixpoint assoc_set (k v : string) (l : list (string * string))
  : list (string * string) :=
  match l with
  | [] => [(k, v)]
  | (k', v') :: l' =>
      if String.eqb k k' then (k', v) :: l' else (k', v') :: assoc_set k v l'
  end.

Section WithDriver.
Variable D : Driver.
Local Abbreviation Elem := (WebElement D).

(** [try: m except: fallback] *)
Definition or_else {A} (m : res A) (fallback : A) : A :=
  match m with Ok a => a | Raise _ => fallback end.

Definition _get_element_visible_text (element : Elem) : string :=
  or_else (script_visible_text D element) "".

Definition _generate_simple_xpath (element : Elem) : string :=
  or_else
    (element_id <- get_attribute D element "id" ;;
     match element_id with
     | Some i =>
         if negb (String.eqb i "") then Ok ("//*[@id='" ++ i ++ "']")
         else
           element_name <- get_attribute D element "name" ;;
           match element_name with
           | Some n =>
               if negb (String.eqb n "") then Ok ("//*[@name='" ++ n ++ "']")
               else script_xpath D element
           | None => script_xpath D element
           end
     | None =>
         element_name <- get_attribute D element "name" ;;
         match element_name with
         | Some n =>
             if negb (String.eqb n "") then Ok ("//*[@name='" ++ n ++ "']")
             else script_xpath D element
         | None => script_xpath D element
         end
     end)
    "//unknown".

Definition kept_attributes : list string :=
  ["id"; "class"; "href"; "src"; "type"; "placeholder";
   "aria-label"; "aria-describedby"; "name"; "value"; "title";
   "role"; "autocomplete"; "maxlength"].

Definition minimal_descriptor : ElementDescriptor :=
  mkElementDescriptor "unknown" [] "" "" (0, 0) (0, 0) false false "//unknown" None.

Definition _describe_element (element : Elem) : ElementDescriptor :=
  or_else
    (tn <- tag_name D element ;;
     let tag := lower tn in
     t0 <- text D element ;;
     txt <- (if negb (String.eqb t0 "")
             then t1 <- text D element ;; Ok (strip t1)
             else Ok "") ;;
     let attributes :=
       or_else
         (attrs <- script_attributes D element ;;
          Ok (fold_left
                (fun acc kv =>
                   if existsb (String.eqb (fst kv)) kept_attributes
                   then assoc_set (fst kv) (snd kv) acc else acc)
                attrs []))
         [] in
     let role :=
       match assoc "role" attributes with
       | Some r =>
           if negb (String.eqb r "") then Some r
           else if String.eqb tag "button" || String.eqb tag "a" then Some tag
           else if String.eqb tag "input"
           then Some ("input_" ++ match assoc "type" attributes with
                                  | Some ty => ty
                                  | None => "text"
                                  end)
           else Some r
       | None =>
           if String.eqb tag "button" || String.eqb tag "a" then Some tag
           else if String.eqb tag "input"
           then Some ("input_" ++ match assoc "type" attributes with
                                  | Some ty => ty
                                  | None => "text"
                                  end)
           else None
       end in
     let is_interactable :=
       or_else
         (en <- is_enabled D element ;;
          if en then is_displayed D element else Ok false)
         false in
     let loc := or_else (location D element) (0, 0) in
     let sz :=
       match location D element with
       | Ok _ => or_else (size D element) (0, 0)
       | Raise _ => (0, 0)
       end in
     let visible_text := _get_element_visible_text element in
     let xpath := _generate_simple_xpath element in
     vis <- is_displayed D element ;;
     Ok (mkElementDescriptor tag attributes txt visible_text loc sz vis
                             is_interactable xpath role))
    minimal_descriptor.

Definition interactive_selectors : list string :=
  ["a"; "button"; "input"; "textarea"; "select";
   "[role='button']"; "[role='link']"; "[role='menuitem']";
   "[onclick]"; "[tabindex]"; "[contenteditable='true']";
   "[type='submit']"; "[type='button']"].

(** The descriptors one selector contributes: those of the displayed
    elements among the first five found; an element whose check raises is
    skipped, and so is a selector whose query raises. *)
Definition describe_found (selector : string) : list ElementDescriptor :=
  match find_elements D CSS_SELECTOR selector with
  | Raise _ => []
  | Ok found =>
      flat_map
        (fun elem =>
           match is_displayed D elem with
           | Ok true => [_describe_element elem]
           | _ => []
           end)
        (slice_to 5 found)
  end.

(** [unique_elements[elem.xpath] = elem]: a key keeps the place of its
    first descriptor and the value of its last. *)
Fixpoint put_by_xpath (e : ElementDescriptor) (l : list ElementDescriptor)
  : list ElementDescriptor :=
  match l with
  | [] => [e]
  | e' :: l' =>
      if String.eqb (d_xpath e) (d_xpath e') then e :: l'
      else e' :: put_by_xpath e l'
  end.

Definition _get_interactive_elements : list ElementDescriptor :=
  let elements := flat_map describe_found interactive_selectors in
  let unique_elements := fold_left (fun acc e => put_by_xpath e acc) elements [] in
  slice_to 20 unique_elements.

(** [for elem in elements: if elem.is_displayed() and elem.is_enabled():
    return elem] *)
Fixpoint first_usable (elements : list Elem) : res (option Elem) :=
  match elements with
  | [] => Ok None
  | elem :: rest =>
      shown <- is_displayed D elem ;;
      if shown
      then
        enabled <- is_enabled D elem ;;
        if enabled then Ok (Some elem) else first_usable rest
      else first_usable rest
  end.

(** A loop over selectors or patterns whose body is wrapped in
    [try ... except: continue]: the first body that returns an element
    ends the search. *)
Fixpoint first_hit {A} (body : A -> res (option Elem)) (l : list A) : option Elem :=
  match l with
  | [] => None
  | x :: rest =>
      match body x with
      | Ok (Some e) => Some e
      | _ => first_hit body rest
      end
  end.

Definition search_selectors : list string :=
  ["textarea[name='q']"; "input[name='q']"; "[aria-label='Поиск']";
   "[title='Поиск']"; "input[type='text'][title='Поиск']";
   "[name='search']"; "[role='searchbox']"; "input[type='search']"].

Definition button_selectors : list string :=
  ["button"; "input[type='submit']"; "input[type='button']"; "[role='button']"].

(** The search tier *)
Definition find_search_box : option Elem :=
  first_hit
    (fun selector =>
       elements <- find_elements D CSS_SELECTOR selector ;;
       first_usable elements)
    search_selectors.

(** The inner loop of the button tier *)
Fixpoint first_button (elements : list Elem) : res (option Elem) :=
  match elements with
  | [] => Ok None
  | elem :: rest =>
      shown <- is_displayed D elem ;;
      if shown
      then
        enabled <- is_enabled D elem ;;
        if enabled
        then
          t <- text D elem ;;
          let elem_text := lower t in
          if any_contains ["поиск"; "search"; "найти"; "искать"] elem_text
          then Ok (Some elem)
          else if negb (String.eqb elem_text "") && (len elem_text <? 20)%nat
          then Ok (Some elem)
          else first_button rest
        else first_button rest
      else first_button rest
  end.

Definition find_button : option Elem :=
  first_hit
    (fun selector =>
       elements <- find_elements D CSS_SELECTOR selector ;;
       first_button elements)
    button_selectors.

(** text_match: [текст:\s*[SQ DQ]([^SQ DQ]+)[SQ DQ]], SQ the apostrophe and
    DQ the double quote *)
Definition re_text : regex :=
  Seq (Lit "текст:")
    (Seq (Star (Chr space))
       (Seq (Chr (fun c => one sq c || one dq c))
          (Seq (Group (Plus (Chr (none_of [sq; dq]))))
               (Chr (fun c => one sq c || one dq c))))).

Definition text_xpath (target_text : string) : string :=
  "//*[text()='" ++ target_text ++ "' or contains(text(), '" ++ target_text ++ "')]".

(** The text tier: [None] when the description has no such fragment, when
    no element qualifies, or when the driver raises. *)
Definition find_by_text (description : string) : option Elem :=
  match search re_text description with
  | Some m =>
      or_else
        (elements <- find_elements D XPATH (text_xpath (group1 m)) ;;
         first_usable elements)
        None
  | None => None
  end.

(** [ATTR='([^']+)'] *)
Definition re_attr (attr : string) : regex :=
  Seq (Lit (attr ++ "='"))
    (Seq (Group (Plus (Chr (none_of [sq])))) (Chr (one sq))).

Definition attr_xpath (attr value : string) : string :=
  "//*[@" ++ attr ++ "='" ++ value ++ "']".

Definition find_by_attribute (description : string) : option Elem :=
  first_hit
    (fun attr =>
       match search (re_attr attr) description with
       | Some m =>
           elements <- find_elements D XPATH (attr_xpath attr (group1 m)) ;;
           first_usable elements
       | None => Ok None
       end)
    ["id"; "placeholder"; "name"].

(** The last tier: the first of the five leading interactive elements
    that can be found again by its XPath and is displayed and enabled. *)
Definition find_first_interactive : option Elem :=
  first_hit
    (fun elem_desc =>
       elem <- find_element D XPATH (d_xpath elem_desc) ;;
       shown <- is_displayed D elem ;;
       if shown
       then
         enabled <- is_enabled D elem ;;
         Ok (if enabled then Some elem else None)
       else Ok None)
    (slice_to 5 _get_interactive_elements).

Definition mentions_search (description : string) : bool :=
  str_contains "поиск" (lower description)
  || str_contains "search" (lower description).

Definition mentions_button (description : string) : bool :=
  str_contains "кнопка" (lower description)
  || str_contains "button" (lower description).

(** What the search tier or the button tier returns, if one of them runs
    and finds an element *)
Definition find_by_role (description : string) : option Elem :=
  if mentions_search description then find_search_box
  else if mentions_button description then find_button
  else None.

(** The body of the outer [try] of [find_element_by_description] *)
Definition find_body (description : string) : res (option Elem) :=
  match find_by_role description with
  | Some e => Ok (Some e)
  | None =>
      match find_by_text description with
      | Some e => Ok (Some e)
      | None =>
          match find_by_attribute description with
          | Some e => Ok (Some e)
          | None => Ok find_first_interactive
          end
      end
  end.

(** [find_element_by_description]: [except Exception: return None] *)
Definition find_element_by_description (description : string)
  : res (option Elem) :=
  try_except (find_body description) (fun _ => Ok None).

End WithDriver.

(** ** A driver over a static page

    The page is the list of its elements in document order.  The driver
    understands the selectors the finder issues: a tag name followed by
    attribute tests, the two XPath shapes of the text and attribute tiers,
    and otherwise the positional path of an element.  It never raises,
    except for [find_element] without a match. *)

Record Node : Type := mkNode {
  n_tag : string;
  n_attrs : list (string * string);
  n_text : string;               (* the rendered text, [element.text] *)
  n_text_nodes : list string;    (* the text children, for [text()] *)
  n_displayed : bool;
  n_enabled : bool;
  n_path : string                (* what the XPath script computes *)
}.

(** One bracket of a CSS selector, without its opening bracket:
    [name] or [name='value'], then the closing bracket. *)
Definition css_test (part : string) (n : Node) : bool :=
  match split "=" (strip_chars ["]"%char] part) with
  | [name] =>
      match assoc name (n_attrs n) with Some _ => true | None => false end
  | name :: value :: _ =>
      match assoc name (n_attrs n) with
      | Some v => String.eqb v (strip_chars [sq] value)
      | None => false
      end
  | [] => false
  end.

Definition css_matches (selector : string) (n : Node) : bool :=
  match split "[" selector with
  | tag :: tests =>
      (String.eqb tag "" || String.eqb tag (n_tag n))
      && forallb (fun t => css_test t n) tests
  | [] => false
  end.

Definition xpath_matches (xpath : string) (n : Node) : bool :=
  if String.prefix "//*[text()='" xpath
  then
    match split "'" (drop 12 xpath) with
    | target :: _ =>
        existsb (String.eqb target) (n_text_nodes n)
        || match n_text_nodes n with
           | first :: _ => str_contains target first
           | [] => false
           end
    | [] => false
    end
  else if String.prefix "//*[@" xpath
  then
    match split "='" (drop 5 xpath) with
    | attr :: rest :: _ =>
        match assoc attr (n_attrs n), split "'" rest with
        | Some v, value :: _ => String.eqb v value
        | _, _ => false
        end
    | _ => false
    end
  else String.eqb xpath (n_path n).

Definition static_find (page : list Node) (by_ : By) (q : string) : list Node :=
  match by_ with
  | CSS_SELECTOR => filter (css_matches q) page
  | XPATH => filter (xpath_matches q) page
  end.

Definition static_driver (page : list Node) : Driver :=
  {| WebElement := Node;
     find_elements := fun by_ q => Ok (static_find page by_ q);
     find_element := fun by_ q =>
       match static_find page by_ q with
       | n :: _ => Ok n
       | [] => Raise (Exn WebDriverException "no such element")
       end;
     is_displayed := fun n => Ok (n_displayed n);
     is_enabled := fun n => Ok (n_enabled n);
     text := fun n => Ok (n_text n);
     tag_name := fun n => Ok (n_tag n);
     get_attribute := fun n name => Ok (assoc name (n_attrs n));
     location := fun _ => Ok (0, 0);
     size := fun _ => Ok (0, 0);
     script_attributes := fun n => Ok (n_attrs n);
     script_visible_text := fun n => Ok (n_text n);
     script_xpath := fun n => Ok (n_path n) |}.

End ElementFinder.

(* ================================================================== *)
(** * agents/browser_agent.py *)
(* ================================================================== *)

Module BrowserAgent.
Import Py Re World.

(** The [config] object handed to the agent.  The agent reads two
    attributes; an object may lack [ENABLE_REFLECTION], and the [Config]
    dataclass of [config.py] does. *)
Record Config : Type := mkConfig {
  MAX_STEPS : Z;
  ENABLE_REFLECTION : option bool
}.

(** [Config()] of [config.py] *)
Definition Config_default : Config := mkConfig 8 None.

(** [Config(MAX_STEPS=n)] of [config.py] *)
Definition Config_with_steps (n : Z) : Config := mkConfig n None.

(** The dictionary [decide_next_action] falls back to *)
Definition analyze_action : pyval :=
  PDict [ ("action", PStr "analyze");
          ("description", PStr "Проанализировать текущую ситуацию");
          ("parameters", PDict []);
          ("confidence", PFloat 1);
          ("reasoning", PStr "Не удалось распознать следующее действие") ].

(** The pattern of json_match: an opening brace, anything, a closing
    brace, under [re.DOTALL] *)
Definition re_json : regex :=
  Seq (Chr (one "{")) (Seq (Star (Chr any_char)) (Chr (one "}"))).

Definition decide_prompt (full_context task : string) : string :=
  nl ++ "На основе следующего контекста, реши какое действие выполнить следующим."
  ++ nl ++ nl ++ "КОНТЕКСТ:" ++ nl ++ full_context ++ nl ++ nl
  ++ "Задача: " ++ task ++ nl ++ nl
  ++ "Твой ответ должен быть в формате JSON как описано в системном промпте."
  ++ nl ++ "Думай шаг за шагом, но в ответе давай только JSON." ++ nl
  ++ "        ".

Section WithRuntime.
Context {J : Json.Codec} {H : Hashlib}.

(** [_parse_llm_response] *)
Definition _parse_llm_response (response : string) : res (option pyval) :=
  match search re_json response with
  | None => Ok None
  | Some json_match =>
      match Json.loads (group0 json_match) with
      | Some action_data =>
          has_action <- contains_str "action" action_data ;;
          if negb has_action then Ok None
          else
            has_description <- contains_str "description" action_data ;;
            if negb has_description then Ok None
            else
              has_parameters <- contains_str "parameters" action_data ;;
              action_data <-
                (if negb has_parameters
                 then setitem_str action_data "parameters" (PDict [])
                 else Ok action_data) ;;
              has_confidence <- contains_str "confidence" action_data ;;
              action_data <-
                (if negb has_confidence
                 then setitem_str action_data "confidence" (PFloat (8 # 10))
                 else Ok action_data) ;;
              Ok (Some action_data)
      | None =>
          (* except json.JSONDecodeError *)
          match ActionTools.parse_action_from_llm response with
          | Some action =>
              Ok (Some (PDict
                    [ ("action", ActionTools.type action);
                      ("description", ActionTools.description action);
                      ("parameters", ActionTools.parameters action);
                      ("confidence", ActionTools.confidence action);
                      ("reasoning", PStr "Определено на основе текстового анализа") ]))
          | None => Ok None
          end
      end
  end.

(** The part of [decide_next_action] that follows the call of the
    language model; [reply] is what the call returned or raised. *)
Definition decide_from_reply (reply : res string) : option pyval :=
  match (response <- reply ;;
         action_data <- _parse_llm_response response ;;
         match action_data with
         | Some d => if truthy d then Ok (Some d) else Ok (Some analyze_action)
         | None => Ok (Some analyze_action)
         end) with
  | Ok r => r
  | Raise _ => None
  end.

Variable E : Env.

(** The agent together with the collaborators it owns: the browser, the
    file of the episodic memory, and the counters of the calls the
    language model and the clock have answered. *)
Record Agent : Type := mkAgent {
  config : Config;
  max_steps : Z;
  current_step : Z;
  is_task_complete : bool;
  needs_human_input : bool;
  is_active : bool;
  context_manager : ContextManager.t;
  episodic_memory : EpisodicMemory.t;
  browser : browser_state E;
  fs : FS;
  llm_calls : nat;
  clock : nat
}.

Definition set_current_step (n : Z) (a : Agent) : Agent :=
  mkAgent (config a) (max_steps a) n (is_task_complete a) (needs_human_input a)
          (is_active a) (context_manager a) (episodic_memory a) (browser a)
          (fs a) (llm_calls a) (clock a).

Definition set_is_task_complete (b : bool) (a : Agent) : Agent :=
  mkAgent (config a) (max_steps a) (current_step a) b (needs_human_input a)
          (is_active a) (context_manager a) (episodic_memory a) (browser a)
          (fs a) (llm_calls a) (clock a).

Definition set_needs_human_input (b : bool) (a : Agent) : Agent :=
  mkAgent (config a) (max_steps a) (current_step a) (is_task_complete a) b
          (is_active a) (context_manager a) (episodic_memory a) (browser a)
          (fs a) (llm_calls a) (clock a).

Definition set_is_active (b : bool) (a : Agent) : Agent :=
  mkAgent (config a) (max_steps a) (current_step a) (is_task_complete a)
          (needs_human_input a) b (context_manager a) (episodic_memory a)
          (browser a) (fs a) (llm_calls a) (clock a).

Definition set_context_manager (c : ContextManager.t) (a : Agent) : Agent :=
  mkAgent (config a) (max_steps a) (current_step a) (is_task_complete a)
          (needs_human_input a) (is_active a) c (episodic_memory a)
          (browser a) (fs a) (llm_calls a) (clock a).

Definition set_memory (m : EpisodicMemory.t) (f : FS) (a : Agent) : Agent :=
  mkAgent (config a) (max_steps a) (current_step a) (is_task_complete a)
          (needs_human_input a) (is_active a) (context_manager a) m
          (browser a) f (llm_calls a) (clock a).

Definition set_browser (b : browser_state E) (a : Agent) : Agent :=
  mkAgent (config a) (max_steps a) (current_step a) (is_task_complete a)
          (needs_human_input a) (is_active a) (context_manager a)
          (episodic_memory a) b (fs a) (llm_calls a) (clock a).

Definition set_llm_calls (n : nat) (a : Agent) : Agent :=
  mkAgent (config a) (max_steps a) (current_step a) (is_task_complete a)
          (needs_human_input a) (is_active a) (context_manager a)
          (episodic_memory a) (browser a) (fs a) n (clock a).

Definition set_clock (n : nat) (a : Agent) : Agent :=
  mkAgent (config a) (max_steps a) (current_step a) (is_task_complete a)
          (needs_human_input a) (is_active a) (context_manager a)
          (episodic_memory a) (browser a) (fs a) (llm_calls a) n.

(** [BrowserAgent(llm_client, browser_controller, config)];
    [system_prompt] is the text [_setup_system_prompts] installs. *)
Definition init (cfg : Config) (system_prompt : string)
  (b : browser_state E) (f : FS) : Agent :=
  mkAgent cfg (MAX_STEPS cfg) 0 false false false
          (ContextManager.add_system_context system_prompt ContextManager.init)
          (EpisodicMemory.init f) b f 0 0.

(** Statements that read and change the agent and may raise *)
Definition M (A : Type) : Type := Agent -> Agent * res A.

Definition ret {A} (x : A) : M A := fun a => (a, Ok x).

Definition mbind {A B} (m : M A) (k : A -> M B) : M B :=
  fun a =>
    match m a with
    | (a', Ok x) => k x a'
    | (a', Raise e) => (a', Raise e)
    end.

Definition lift {A} (r : res A) : M A := fun a => (a, r).
Definition gets {A} (f : Agent -> A) : M A := fun a => (a, Ok (f a)).
Definition modify (f : Agent -> Agent) : M unit := fun a => (f a, Ok tt).

Notation "x <~ m ;; k" := (mbind m (fun x => k))
  (at level 61, m at next level, right associativity).
Notation "m ;;; k" := (mbind m (fun _ => k))
  (at level 61, right associativity).

(** [datetime.now().isoformat()] *)
Definition now : M string :=
  fun a => (set_clock (S (clock a)) a, Ok (now_isoformat E (clock a))).

(** [self.browser.get_page_state()] *)
Definition page_state : M PageState :=
  gets (fun a => get_page_state E (browser a)).

(** [decide_next_action]: one call of the language model, then the
    parsing chain; every exception ends in [None]. *)
Definition decide_next_action (task full_context : string) : M (option pyval) :=
  fun a =>
    let request :=
      mkRequest (decide_prompt full_context task)
                (ContextManager.get_system_context (context_manager a))
                (1 # 10) 1000 in
    (set_llm_calls (S (llm_calls a)) a,
     Ok (decide_from_reply (llm_generate E (llm_calls a) request))).

Definition ok_dict (message : string) : pyval :=
  PDict [("success", PBool true); ("message", PStr message)].

(** [time.sleep(x)] accepts a non-negative number. *)
Definition sleep (x : pyval) : res unit :=
  match x with
  | PInt z =>
      if z <? 0 then Raise (Exn ValueError "sleep length must be non-negative")
      else Ok tt
  | PFloat q =>
      if Qle_bool 0 q then Ok tt
      else Raise (Exn ValueError "sleep length must be non-negative")
  | PBool _ => Ok tt
  | _ => Raise (Exn TypeError
                  ("'" ++ type_name x ++ "' object cannot be interpreted as an integer"))
  end.

(** [_execute_action] *)
Definition _execute_action (action_data : pyval) : M pyval :=
  action_type <~ lift (method_get action_data "action" PNone) ;;
  parameters <~ lift (method_get action_data "parameters" (PDict [])) ;;
  if eq_str action_type "analyze"
  then ret (ok_dict "Проведен анализ ситуации")
  else if eq_str action_type "complete"
  then ret (ok_dict "Задача помечена как завершенная")
  else if eq_str action_type "ask_human"
  then
    question <~ lift (method_get parameters "question"
                                 (PStr "Требуется помощь пользователя")) ;;
    ret (PDict [("success", PBool true);
                ("message", PStr "Запрошена помощь пользователя");
                ("question", question)])
  else if eq_str action_type "wait"
  then
    wait_time <~ lift (method_get parameters "seconds" (PInt 2)) ;;
    lift (sleep wait_time) ;;;
    ret (ok_dict ("Подождали " ++ to_str wait_time ++ " секунд"))
  else
    description <~ lift (method_get action_data "description" (PStr "")) ;;
    confidence <~ lift (method_get action_data "confidence" (PFloat 1)) ;;
    let action :=
      ActionTools.mkAction action_type description parameters confidence in
    fun a =>
      let (b, r) :=
        ActionTools.execute_action (browser_state E) (browser_getattr E)
                                   (browser a) action in
      (set_browser b a, r).

(** The last statement of [_perform_reflection]: a result that asks for a
    correction and has a plan leaves its lesson in the system context. *)
Definition add_lesson (reflection : ReflectionPattern.ReflectionResult)
  (a : Agent) : Agent :=
  let has_plan :=
    match ReflectionPattern.correction_plan reflection with
    | Some plan => negb (String.eqb plan "")
    | None => false
    end in
  if ReflectionPattern.needs_correction reflection && has_plan
  then
    let lesson :=
      match ReflectionPattern.learned_lesson reflection with
      | Some l => if String.eqb l "" then "Требуется изменить подход" else l
      | None => "Требуется изменить подход"
      end in
    set_context_manager
      (ContextManager.add_system_context
         ("Урок из рефлексии: " ++ lesson) (context_manager a)) a
  else a.

(** [_perform_reflection] *)
Definition _perform_reflection (task : string) : M unit :=
  fun a =>
    match ENABLE_REFLECTION (config a) with
    | None =>
        (a, Raise (Exn AttributeError
                     "'Config' object has no attribute 'ENABLE_REFLECTION'"))
    | Some false => (a, Ok tt)
    | Some true =>
        let current_state := get_page_state E (browser a) in
        let recent_actions :=
          ContextManager.get_recent_actions 10 (context_manager a) in
        let (calls, r) :=
          ReflectionPattern.analyze_failure E (llm_calls a)
            (map ReflectionPattern.Record_ recent_actions) current_state task in
        let a := set_llm_calls calls a in
        match r with
        | Raise e => (a, Raise e)
        | Ok reflection => (add_lesson reflection a, Ok tt)
        end
    end.

Definition page_to_py (ps : PageState) : pyval :=
  PDict [ ("url", PStr (url ps));
          ("title", PStr (title ps));
          ("page_type", PStr (page_type ps));
          ("elements", PList (map PStr (elements ps)));
          ("visible_text_preview", PStr (visible_text_preview ps));
          ("element_count", PInt (element_count ps)) ].

(** How one pass through the body of the [while] loop ends: at its last
    statement, or at a [break] with the value [final_result] then has. *)
Inductive control : Type :=
| Continue
| Break (final_result : option pyval).

(** The test of the [while] loop *)
Definition loop_test (a : Agent) : bool :=
  negb (is_task_complete a)
  && (current_step a <? max_steps a)
  && negb (needs_human_input a).

(** [self.config.ENABLE_REFLECTION and self.current_step % 5 == 0] *)
Definition reflection_due : M bool :=
  fun a =>
    match ENABLE_REFLECTION (config a) with
    | None =>
        (a, Raise (Exn AttributeError
                     "'Config' object has no attribute 'ENABLE_REFLECTION'"))
    | Some enabled => (a, Ok (enabled && (current_step a mod 5 =? 0)))
    end.

(** The first half of the body of the [while] loop: count the step, read
    the page, assemble the context and ask for a decision. *)
Definition observe_and_decide (task : string) : M (PageState * option pyval) :=
  modify (fun a => set_current_step (current_step a + 1) a) ;;;
  current_state <~ page_state ;;
  context <~ (fun a => (a, ContextManager.get_full_context current_state
                                                           (context_manager a))) ;;
  memory_advice <~ (fun a => (a, EpisodicMemory.get_advice current_state
                                                          (episodic_memory a))) ;;
  let context :=
    if negb (String.eqb memory_advice "")
    then context ++ nl ++ nl ++ memory_advice else context in
  action_decision <~ decide_next_action task context ;;
  ret (current_state, action_decision).

(** The second half, from [_execute_action] on, for a decision that is
    there *)
Definition act_on (task : string) (current_state : PageState)
  (action_decision : pyval) : M control :=
  action_result <~ _execute_action action_decision ;;
  a_type <~ lift (method_get action_decision "action" (PStr "unknown")) ;;
  a_desc <~ lift (method_get action_decision "description" (PStr "")) ;;
  stamp <~ now ;;
  (fun a =>
     let (c, r) :=
       ContextManager.add_action a_type a_desc action_result
                                 current_state stamp (context_manager a) in
     (set_context_manager c a, r)) ;;;
  tag <~ lift (method_get action_decision "action" PNone) ;;
  if eq_str tag "complete"
  then
    modify (set_is_task_complete true) ;;;
    step <~ gets current_step ;;
    final_state <~ page_state ;;
    ret (Break (Some (PDict
           [ ("success", PBool true);
             ("message", PStr "Задача успешно выполнена");
             ("steps", PInt step);
             ("final_state", page_to_py final_state) ])))
  else
    tag <~ lift (method_get action_decision "action" PNone) ;;
    if eq_str tag "ask_human"
    then
      modify (set_needs_human_input true) ;;;
      parameters <~ lift (method_get action_decision "parameters" (PDict [])) ;;
      question <~ lift (method_get parameters "question" PNone) ;;
      step <~ gets current_step ;;
      ret (Break (Some (PDict
             [ ("success", PBool false);
               ("message", PStr "Требуется ввод пользователя");
               ("question", question);
               ("current_step", PInt step) ])))
    else
      due <~ reflection_due ;;
      (if due then _perform_reflection task else ret tt) ;;;
      ret Continue.

(** The body of the [while] loop *)
Definition loop_body (task : string) : M control :=
  decided <~ observe_and_decide task ;;
  match snd decided with
  | None => ret (Break None)
  | Some action_decision =>
      if negb (truthy action_decision) then ret (Break None)
      else act_on task (fst decided) action_decision
  end.

(** The [while] loop.  [fuel] bounds the number of passes for the sake of
    the definition; [None] means that it was used up. *)
Fixpoint while_loop (fuel : nat) (task : string) (a : Agent)
  : Agent * res (option (option pyval)) :=
  if loop_test a
  then
    match fuel with
    | O => (a, Ok None)
    | S fuel' =>
        match loop_body task a with
        | (a', Ok Continue) => while_loop fuel' task a'
        | (a', Ok (Break final_result)) => (a', Ok (Some final_result))
        | (a', Raise e) => (a', Raise e)
        end
    end
  else (a, Ok (Some None)).

Definition limit_result (a : Agent) : pyval :=
  PDict [ ("success", PBool false);
          ("message", PStr ("Достигнут лимит шагов (" ++ str_of_int (max_steps a) ++ ")"));
          ("steps", PInt (current_step a));
          ("current_state", page_to_py (get_page_state E (browser a))) ].

Definition error_result (e : exn) (a : Agent) : pyval :=
  PDict [ ("success", PBool false);
          ("error", PStr (exn_msg e));
          ("message", PStr "Ошибка при выполнении задачи");
          ("steps", PInt (current_step a)) ].

Definition unknown_result : pyval :=
  PDict [ ("success", PBool false); ("message", PStr "Неизвестная ошибка") ].

(** The dictionaries the [finally] block makes of the action history *)
Definition history_actions (c : ContextManager.t) : list pyval :=
  map (fun record =>
         PDict [ ("action_type", ContextManager.action_type record);
                 ("action_description", ContextManager.action_description record);
                 ("result", ContextManager.result record) ])
      (ContextManager.action_history c).

(** [final_result.get("success", False) if final_result else False] *)
Definition success_of (final_result : option pyval) : res bool :=
  match final_result with
  | Some fr =>
      if truthy fr
      then v <- method_get fr "success" (PBool false) ;; Ok (truthy v)
      else Ok false
  | None => Ok false
  end.

(** The [finally] block *)
Definition finally_block (final_result : option pyval) : M unit :=
  modify (set_is_active false) ;;;
  history <~ gets (fun a => ContextManager.action_history (context_manager a)) ;;
  match history with
  | [] => ret tt
  | _ =>
      actions <~ gets (fun a => history_actions (context_manager a)) ;;
      current_state <~ page_state ;;
      success <~ lift (success_of final_result) ;;
      fun a =>
        match EpisodicMemory.add_episode (url current_state) (title current_state)
                (page_type current_state) actions success
                (now_isoformat E (clock a)) (episodic_memory a) (fs a) with
        | (m, f, Ok _) => (set_clock (S (clock a)) (set_memory m f a), Ok tt)
        | (m, f, Raise e) => (set_memory m f a, Raise e)
        end
  end.

(** The value of [final_result] when the [finally] block is entered:
    after the loop has ended with [final_result] as it stands, or after the
    handler of the exception [e] *)
Definition result_after_loop (outcome : res (option pyval)) (a : Agent)
  : option pyval :=
  match outcome with
  | Ok final_result =>
      if negb (is_task_complete a) && negb (needs_human_input a)
      then Some (limit_result a) else final_result
  | Raise e => Some (error_result e a)
  end.

(** [final_result or {...}] *)
Definition returned (final_result : option pyval) : pyval :=
  match final_result with
  | Some fr => if truthy fr then fr else unknown_result
  | None => unknown_result
  end.

(** The three statements in front of the [try]: [self.start()], and the
    reset of [is_task_complete] and [current_step] *)
Definition begin (a : Agent) : Agent :=
  set_current_step 0 (set_is_task_complete false (set_is_active true a)).

(** [_execute_task_loop].  The [option] around the returned dictionary is
    [None] when [fuel] did not suffice to run the loop to its end. *)
Definition _execute_task_loop (fuel : nat) (task : string) (a : Agent)
  : Agent * res (option pyval) :=
  let a := begin a in
  let after (outcome : res (option pyval)) (a : Agent) :=
    let final_result := result_after_loop outcome a in
    match finally_block final_result a with
    | (a, Raise e) => (a, Raise e)
    | (a, Ok _) => (a, Ok (Some (returned final_result)))
    end in
  match while_loop fuel task a with
  | (a, Ok None) => (a, Ok None)
  | (a, Ok (Some final_result)) => after (Ok final_result) a
  | (a, Raise e) => after (Raise e) a
  end.

(** The arguments [process] reads from [input_data] *)
Record TaskInput : Type := mkTaskInput {
  task : string;
  initial_url : string;
  goal : string;
  task_constraints : list string
}.

(** [process]: the loop is run with as much fuel as there are steps. *)
Definition process (input_data : TaskInput) (a : Agent)
  : Agent * res (option pyval) :=
  if String.eqb (task input_data) ""
  then (a, Ok (Some (PDict [ ("success", PBool false);
                              ("error", PStr "No task provided");
                              ("message", PStr "Задача не предоставлена") ])))
  else
    let (a, r) :=
      (stamp <~ now ;;
       modify (fun a =>
                 set_context_manager
                   (ContextManager.start_new_task (task input_data)
                      (goal input_data) (task_constraints input_data) stamp
                      (context_manager a)) a) ;;;
       (if negb (String.eqb (initial_url input_data) "")
        then
          fun a =>
            match browser_getattr E "navigate_to" with
            | Some navigate_to =>
                let (b, r) :=
                  navigate_to (browser a) [("url", PStr (initial_url input_data))] in
                (set_browser b a, r)
            | None =>
                (a, Raise (Exn AttributeError
                             "'BrowserController' object has no attribute 'navigate_to'"))
            end
        else ret PNone)) a in
    match r with
    | Raise e => (a, Raise e)
    | Ok _ => _execute_task_loop (Z.to_nat (max_steps a)) (task input_data) a
    end.

(** [provide_human_input]; [answer] and [instruction] are the two
    entries read from [input_data]. *)
Definition provide_human_input (answer instruction : string) (a : Agent)
  : Agent * pyval :=
  if negb (needs_human_input a)
  then (a, PDict [ ("success", PBool false);
                   ("message", PStr "Ввод пользователя не требуется") ])
  else if String.eqb instruction "continue"
  then (set_needs_human_input false a,
        PDict [ ("success", PBool true);
                ("message", PStr "Продолжаем выполнение задачи") ])
  else if negb (String.eqb answer "")
  then (set_context_manager
          (ContextManager.add_system_context
             ("Пользователь предоставил информацию: " ++ answer)
             (context_manager a))
          (set_needs_human_input false a),
        PDict [ ("success", PBool true);
                ("message",
                 PStr "Получен ответ пользователя, продолжаем выполнение") ])
  else (a, PDict [ ("success", PBool false);
                   ("message", PStr "Неверный ввод пользователя") ]).

End WithRuntime.

End BrowserAgent.

(* ================================================================== *)
(** * Properties *)
(* ================================================================== *)

Import Py Re World.

(** ** The reference runtime *)

Lemma parse_members_dict :
  forall fuel s acc v r,
    Json.parse_members fuel s acc = Some (v, r) -> exists d, v = PDict d.
Proof.
  induction fuel as [|fuel IH]; intros s acc v r Hp; simpl in Hp.
  - discriminate.
  - destruct (Json.skip_ws s) as [|c s1]; try discriminate.
    destruct (Ascii.eqb_spec c "034"%char) as [->|Hc].
    + destruct (Json.parse_string_body s1 EmptyString) as [[key r1]|];
        try discriminate.
      destruct (Json.skip_ws r1) as [|c2 r2]; try discriminate.
      destruct (Ascii.eqb_spec c2 ":"%char) as [->|Hc2].
      * destruct (Json.parse_value fuel r2) as [[v' r3]|]; try discriminate.
        destruct (Json.skip_ws r3) as [|c4 r4]; try discriminate.
        destruct (Ascii.eqb_spec c4 ","%char) as [->|Hc4].
        { apply IH in Hp. exact Hp. }
        destruct (Ascii.eqb_spec c4 "}"%char) as [->|Hc5].
        { inversion Hp; subst. eexists; reflexivity. }
        destruct c4 as [[] [] [] [] [] [] [] []]; try discriminate;
          try (exfalso; apply Hc4; reflexivity);
          try (exfalso; apply Hc5; reflexivity).
      * destruct c2 as [[] [] [] [] [] [] [] []]; try discriminate;
          exfalso; apply Hc2; reflexivity.
    + destruct c as [[] [] [] [] [] [] [] []]; try discriminate;
        exfalso; apply Hc; reflexivity.
Qed.

Lemma ref_loads_object :
  forall s v, Json.ref_loads (String "{" s) = Some v -> exists d, v = PDict d.
Proof.
  intros s v. unfold Json.ref_loads.
  remember (2 * String.length (String "{" s) + 2)%nat as fuel eqn:Hf.
  destruct fuel as [|fuel]; [simpl in Hf; lia|].
  cbn [Json.parse_value].
  change (Json.skip_ws (String "{" s)) with (String "{" s).
  cbv iota beta.
  destruct (Json.skip_ws s) as [|c r] eqn:Hs.
  - destruct fuel; simpl; discriminate.
  - destruct (Ascii.eqb_spec c "}"%char) as [->|Hc].
    + destruct (Json.skip_ws r); intros Hv; inversion Hv; eexists; reflexivity.
    + assert (Hm : forall x,
                 match c with
                 | "}"%char => Some (PDict [], r)
                 | _ => x
                 end = x).
      { intros x. destruct c as [[] [] [] [] [] [] [] []]; try reflexivity.
        exfalso; apply Hc; reflexivity. }
      destruct c as [[] [] [] [] [] [] [] []];
        try (exfalso; apply Hc; reflexivity);
        match goal with
        | |- match ?p with _ => _ end = _ -> _ =>
            destruct p as [[v' r']|] eqn:Hp; [|discriminate];
            apply parse_members_dict in Hp; destruct Hp as [d ->];
            destruct (Json.skip_ws r'); intros Hv; inversion Hv;
            eexists; reflexivity
        end.
Qed.

(** The decoder and encoder above, as the [json] module *)
Definition ref_codec : Json.Codec :=
  {| Json.loads := Json.ref_loads;
     Json.dumps := Json.ref_dumps;
     Json.loads_object := ref_loads_object |}.

(** A stand-in for [hashlib]: the digest is the text itself, padded. *)
Definition toy_hashlib : Hashlib :=
  {| md5_hexdigest := fun s => s ++ "00000000" |}.

(** ** The matcher *)

(** The continuation of a match is entered at or after the position where
    the match starts. *)
Definition enters_after (i : nat) (k : cont) (Q : nat * cap -> Prop) : Prop :=
  forall s' i' c' y, (i <= i')%nat -> k s' i' c' = Some y -> Q y.

Lemma enters_after_le :
  forall i i' k Q, (i <= i')%nat -> enters_after i k Q -> enters_after i' k Q.
Proof.
  unfold enters_after; intros i i' k Q Hi Hk s1 i1 c1 y H1 Hy.
  eapply Hk; [|exact Hy]. lia.
Qed.

Lemma star_loop_positions :
  forall step k Q,
    (forall s i c k' x,
        enters_after i k' Q -> step s i c k' = Some x -> Q x) ->
    forall fuel s i c x,
      enters_after i k Q -> star_loop step k fuel s i c = Some x -> Q x.
Proof.
  intros step k Q Hstep. induction fuel as [|fuel IHf]; intros s i c x Hk Hrun;
    simpl in Hrun.
  - eapply Hk; [|exact Hrun]. lia.
  - destruct (step s i c _) eqn:H1 in Hrun.
    + inversion Hrun; subst. eapply Hstep; [|exact H1].
      intros s' i' c' y Hi Hy. cbv beta in Hy.
      destruct (i <? i')%nat; [|discriminate].
      eapply IHf; [|exact Hy]. eapply enters_after_le; eassumption.
    + eapply Hk; [|exact Hrun]. lia.
Qed.

Lemma lazy_loop_positions :
  forall step k Q,
    (forall s i c k' x,
        enters_after i k' Q -> step s i c k' = Some x -> Q x) ->
    forall fuel s i c x,
      enters_after i k Q -> lazy_loop step k fuel s i c = Some x -> Q x.
Proof.
  intros step k Q Hstep. induction fuel as [|fuel IHf]; intros s i c x Hk Hrun;
    simpl in Hrun.
  - discriminate.
  - eapply Hstep; [|exact Hrun].
    intros s' i' c' y Hi Hy. cbv beta in Hy.
    destruct (k s' i' c') eqn:Hk'.
    + inversion Hy; subst. eapply Hk; [|exact Hk']. exact Hi.
    + destruct (i <? i')%nat; [|discriminate].
      eapply IHf; [|exact Hy]. eapply enters_after_le; eassumption.
Qed.

Lemma run_positions :
  forall r s i c k x (Q : nat * cap -> Prop),
    enters_after i k Q -> run r s i c k = Some x -> Q x.
Proof.
  induction r as [|p|r1 IH1 r2 IH2|r1 IH1 r2 IH2|r1 IH1|r1 IH1|r1 IH1|r1 IH1|];
    intros s i c k x Q Hk Hrun; cbn [run] in Hrun.
  - eapply Hk; [|exact Hrun]. lia.
  - destruct s as [|a s']; [discriminate|].
    destruct (p a); [|discriminate].
    eapply Hk; [|exact Hrun]. lia.
  - eapply IH1; [|exact Hrun].
    intros s' i' c' y Hi Hy. eapply IH2; [|exact Hy].
    eapply enters_after_le; eassumption.
  - destruct (run r1 s i c k) eqn:H1.
    + inversion Hrun; subst. eapply IH1; [|exact H1]. exact Hk.
    + eapply IH2; [|exact Hrun]. exact Hk.
  - eapply star_loop_positions; [|exact Hk|exact Hrun].
    intros s0 i0 c0 k' x0. apply IH1.
  - eapply lazy_loop_positions; [|exact Hk|exact Hrun].
    intros s0 i0 c0 k' x0. apply IH1.
  - eapply IH1; [|exact Hrun].
    intros s' i' c' y Hi Hy. eapply Hk; [|exact Hy]. exact Hi.
  - destruct (run r1 s i c (fun _ i' c' => Some (i', c'))); [|discriminate].
    eapply Hk; [|exact Hrun]. lia.
  - destruct s as [|a [|b s']].
    + eapply Hk; [|exact Hrun]. lia.
    + destruct (Ascii.eqb a "010"%char); [|discriminate].
      eapply Hk; [|exact Hrun]. lia.
    + discriminate.
Qed.

(** [search] reports a position at which the pattern matches. *)
Lemma search_from_found :
  forall r subject s i m,
    search_from r subject s i = Some m ->
    exists n,
      m_subject m = subject /\ m_start m = (i + n)%nat /\
      run r (drop n s) (i + n) None (fun _ j c => Some (j, c))
        = Some (m_end m, m_cap m).
Proof.
  intros r subject s; induction s as [|a s IH]; intros i m Hs; simpl in Hs.
  - destruct (run r EmptyString i None (fun _ j c => Some (j, c)))
      as [[j c]|] eqn:Hr; [|discriminate].
    inversion Hs; subst; simpl. exists O. rewrite Nat.add_0_r. auto.
  - destruct (run r (String a s) i None (fun _ j c => Some (j, c)))
      as [[j c]|] eqn:Hr.
    + inversion Hs; subst; simpl. exists O. rewrite Nat.add_0_r. auto.
    + apply IH in Hs. destruct Hs as (n & Hsub & Hst & Hrun).
      exists (S n). simpl. rewrite Nat.add_succ_r. auto.
Qed.

Lemma substring_at_drop :
  forall n s a s' p,
    drop n s = String a s' ->
    substring n (S p) s = String a (substring 0 p s').
Proof.
  induction n as [|n IH]; intros s a s' p Hd.
  - simpl in Hd. subst. reflexivity.
  - destruct s as [|b s0]; [discriminate|]. simpl in Hd. simpl.
    apply IH. exact Hd.
Qed.

Lemma run_seq_chr :
  forall p r s i c k,
    run (Seq (Chr p) r) s i c k =
    match s with
    | String a s' => if p a then run r s' (S i) c k else None
    | EmptyString => None
    end.
Proof. intros p r [|a s'] i c k; reflexivity. Qed.

(** What [json_match.group()] holds begins with the opening brace. *)
Lemma re_json_group0 :
  forall s m,
    search BrowserAgent.re_json s = Some m ->
    exists t, group0 m = String "{" t.
Proof.
  intros s m Hs. unfold search in Hs.
  apply search_from_found in Hs. destruct Hs as (n & Hsub & Hst & Hrun).
  simpl in Hst. unfold BrowserAgent.re_json in Hrun.
  rewrite run_seq_chr in Hrun.
  destruct (drop n s) as [|a s'] eqn:Hd; [discriminate|].
  unfold one in Hrun at 1.
  destruct (Ascii.eqb_spec "{"%char a) as [<-|Hne]; [|discriminate].
  assert (Hend : (S n <= m_end m)%nat).
  { apply (run_positions _ _ _ _ _ _ (fun y => (S n <= fst y)%nat)) in Hrun.
    - exact Hrun.
    - intros s1 i1 c1 y Hi Hy. inversion Hy; subst. simpl. simpl in Hi. exact Hi. }
  unfold group0. rewrite Hsub, Hst.
  destruct (m_end m - n)%nat as [|p] eqn:Hlen; [lia|].
  erewrite substring_at_drop by exact Hd.
  eexists; reflexivity.
Qed.

(** ** Dictionaries *)

Lemma dict_get_set_same :
  forall k v d, dict_get k (dict_set k v d) = Some v.
Proof.
  intros k v d; induction d as [|[k' v'] d IH]; simpl.
  - rewrite String.eqb_refl. reflexivity.
  - destruct (String.eqb k k') eqn:E; simpl; rewrite E; auto.
Qed.

Lemma dict_get_set_other :
  forall k k' v d, k <> k' -> dict_get k (dict_set k' v d) = dict_get k d.
Proof.
  intros k k' v d Hne; induction d as [|[k0 v0] d IH]; simpl.
  - destruct (String.eqb_spec k k'); [contradiction|reflexivity].
  - destruct (String.eqb_spec k' k0) as [->|Hk0]; simpl.
    + destruct (String.eqb_spec k k0); [contradiction|reflexivity].
    + destruct (String.eqb k k0); auto.
Qed.

(** [if key not in d: d[key] = x], the idiom of [_parse_llm_response] *)
Definition with_default (key : string) (x : pyval) (d : dict) : dict :=
  if dict_has key d then d else dict_set key x d.

Lemma with_default_same :
  forall k x d,
    dict_get k (with_default k x d) = Some (dict_get_default k x d).
Proof.
  intros k x d. unfold with_default, dict_has, dict_get_default.
  destruct (dict_get k d) eqn:E.
  - exact E.
  - apply dict_get_set_same.
Qed.

Lemma with_default_other :
  forall k k' x d, k <> k' -> dict_get k (with_default k' x d) = dict_get k d.
Proof.
  intros k k' x d Hne. unfold with_default.
  destruct (dict_has k' d); [reflexivity|].
  apply dict_get_set_other; exact Hne.
Qed.

Lemma with_default_keeps :
  forall k k' x d, dict_has k d = true ->
                   dict_get k (with_default k' x d) = dict_get k d.
Proof.
  intros k k' x d Hk. destruct (String.eqb_spec k k') as [->|Hne].
  - unfold with_default. rewrite Hk. reflexivity.
  - apply with_default_other; exact Hne.
Qed.

Lemma with_default_has :
  forall k k' x d, dict_has k d = true -> dict_has k (with_default k' x d) = true.
Proof.
  intros k k' x d Hk. unfold dict_has in *.
  rewrite with_default_keeps; [exact Hk|]. unfold dict_has. exact Hk.
Qed.

(** ** The parsing chain of the decision engine *)

Section Decision.
Context {J : Json.Codec}.
Import BrowserAgent.

(** What the structural tier returns for a decoded object *)
Definition structural_result (d : dict) : option pyval :=
  if dict_has "action" d && dict_has "description" d
  then Some (PDict (with_default "confidence" (PFloat (8 # 10))
                      (with_default "parameters" (PDict []) d)))
  else None.

Lemma parse_structural :
  forall response m d,
    search re_json response = Some m ->
    Json.loads (group0 m) = Some (PDict d) ->
    _parse_llm_response response = Ok (structural_result d).
Proof.
  intros response m d Hm Hl. unfold _parse_llm_response, structural_result.
  rewrite Hm, Hl. simpl.
  destruct (dict_has "action" d) eqn:Ha; simpl; [|reflexivity].
  destruct (dict_has "description" d) eqn:Hd; simpl; [|reflexivity].
  unfold with_default at 2.
  destruct (dict_has "parameters" d) eqn:Hp; simpl.
  - unfold with_default. destruct (dict_has "confidence" d); reflexivity.
  - unfold with_default.
    destruct (dict_has "confidence" (dict_set "parameters" (PDict []) d));
      reflexivity.
Qed.


End Decision.

(** Sample replies are written with apostrophes in the place of double
    quotes; [jsq] puts the double quotes back. *)
Fixpoint jsq (s : string) : string :=
  match s with
  | EmptyString => EmptyString
  | String c s' =>
      String (if Ascii.eqb c "039"%char then "034"%char else c) (jsq s')
  end.

Definition sample_page : PageState :=
  mkPageState "https://example.org/" "Example" "general" ["link Home"] "Hello" 1.

(** An environment whose language model gives the same reply to every
    call, whose browser shows one page and has no methods. *)
Definition constant_env (reply : res string) : Env :=
  mkEnv unit (fun _ => sample_page) (fun _ => None) (fun _ _ => reply)
        (fun n => "T" ++ str_of_int (Z.of_nat n)).



(** C8.  When a brace-delimited substring of the reply is found and
    decodes, the parse succeeds only if the decoded object has both an
    action tag and a description; and if it has both, the parse succeeds
    with the decoded fields kept, [parameters] set to the empty mapping when
    absent and [confidence] set to 0.8 when absent. *)
Theorem parse_llm_response_structural :
  forall (J : Json.Codec) (response : string) (m : match_obj) (v : pyval),
    search BrowserAgent.re_json response = Some m ->
    Json.loads (group0 m) = Some v ->
    exists d, v = PDict d /\
      (forall r, BrowserAgent._parse_llm_response response = Ok (Some r) ->
         dict_has "action" d = true /\ dict_has "description" d = true) /\
      (dict_has "action" d = true -> dict_has "description" d = true ->
         exists d',
           BrowserAgent._parse_llm_response response = Ok (Some (PDict d')) /\
           dict_get "parameters" d'
             = Some (dict_get_default "parameters" (PDict []) d) /\
           dict_get "confidence" d'
             = Some (dict_get_default "confidence" (PFloat (8 # 10)) d) /\
           (forall k, dict_has k d = true -> dict_get k d' = dict_get k d)).
Proof.
  intros J response m v Hm Hl.
  destruct (re_json_group0 _ _ Hm) as [t Ht].
  assert (Hobj : exists d, v = PDict d).
  { rewrite Ht in Hl. exact (Json.loads_object _ _ Hl). }
  destruct Hobj as [d ->]. exists d. split; [reflexivity|].
  pose proof (parse_structural _ _ _ Hm Hl) as Hp.
  unfold structural_result in Hp. split.
  - intros r Hr. rewrite Hp in Hr.
    destruct (dict_has "action" d); [|discriminate].
    destruct (dict_has "description" d); [|discriminate].
    split; reflexivity.
  - intros Ha Hd. rewrite Ha, Hd in Hp. simpl in Hp.
    eexists; split; [exact Hp|]. split; [|split].
    + rewrite with_default_other by discriminate. apply with_default_same.
    + rewrite with_default_same. f_equal. unfold dict_get_default.
      rewrite with_default_other by discriminate. reflexivity.
    + intros k Hk. rewrite with_default_keeps.
      * apply with_default_keeps; exact Hk.
      * apply with_default_has; exact Hk.
Qed.

Definition sample_complete : string :=
  jsq "Done. {'action':'complete','description':'done'}".

Lemma parse_llm_response_structural_witness :
  exists d,
    PDict [("action", PStr "complete"); ("description", PStr "done")] = PDict d /\
    (forall r,
        BrowserAgent._parse_llm_response (J := ref_codec) sample_complete
          = Ok (Some r) ->
        dict_has "action" d = true /\ dict_has "description" d = true) /\
    (dict_has "action" d = true -> dict_has "description" d = true ->
     exists d',
       BrowserAgent._parse_llm_response (J := ref_codec) sample_complete
         = Ok (Some (PDict d')) /\
       dict_get "parameters" d'
         = Some (dict_get_default "parameters" (PDict []) d) /\
       dict_get "confidence" d'
         = Some (dict_get_default "confidence" (PFloat (8 # 10)) d) /\
       (forall k, dict_has k d = true -> dict_get k d' = dict_get k d)).
Proof.
  apply (parse_llm_response_structural ref_codec sample_complete
           (Match sample_complete 6 48 None)).
  - vm_compute. reflexivity.
  - vm_compute. reflexivity.
Defined.

(** ** Dispatch of an action to the browser *)



(** The declaration of [Action] gives its type as a string.  A list or a
    dictionary in that place cannot be hashed, and the lookup in
    [ACTION_MAPPING], which stands in front of the [try], raises. *)
Lemma execute_action_unhashable_type :
  forall (B : Type) (getattr : string -> option (B -> dict -> B * res pyval))
         (browser : B) (l : list pyval) (d p c : pyval),
    ActionTools.execute_action B getattr browser
      (ActionTools.mkAction (PList l) d p c)
    = (browser, Raise (Exn TypeError "unhashable type: 'list'")).
Proof. reflexivity. Qed.

(** ** Reflection *)

(** An entry of the history did not fail: it is a dictionary whose
    [result] is a dictionary with a true [success]. *)
Definition succeeded (action : pyval) : bool :=
  match method_get action "result" (PDict []) with
  | Ok result =>
      match method_get result "success" (PBool false) with
      | Ok ok => truthy ok
      | Raise _ => false
      end
  | Raise _ => false
  end.

Lemma slice_from_map :
  forall {A B} (f : A -> B) (start : Z) (l : list A),
    slice_from start (map f l) = map f (slice_from start l).
Proof.
  intros A B f start l. unfold slice_from.
  rewrite List.length_map. apply List.skipn_map.
Qed.



Definition done_action (description : string) (ok : bool) : pyval :=
  PDict [ ("action_type", PStr "click");
          ("action_description", PStr description);
          ("result", PDict [("success", PBool ok); ("message", PStr "")]) ].



(** ** Retrieval from the episodic memory *)

Section Ranking.
Import EpisodicMemory.

Variable A : Type.
Implicit Types (x y : Z * A) (l : list (Z * A)).

(** Descending by key *)
Definition desc x y : Prop := fst y <= fst x.

Lemma insert_desc_perm : forall x l, Permutation (x :: l) (insert_desc x l).
Proof.
  intros x l; induction l as [|y l IH]; simpl.
  - apply Permutation_refl.
  - destruct (fst x <? fst y).
    + eapply perm_trans; [apply perm_swap|]. apply perm_skip. exact IH.
    + apply Permutation_refl.
Qed.

Lemma sort_desc_perm : forall l, Permutation l (sort_desc l).
Proof.
  induction l as [|x l IH]; simpl.
  - apply perm_nil.
  - eapply perm_trans; [apply perm_skip; exact IH|]. apply insert_desc_perm.
Qed.

Lemma insert_desc_sorted :
  forall x l, StronglySorted desc l -> StronglySorted desc (insert_desc x l).
Proof.
  intros x l Hs; induction Hs as [|y l Hs IH Hy]; simpl.
  - constructor; constructor.
  - destruct (Z.ltb_spec (fst x) (fst y)) as [Hlt|Hge].
    + constructor; [exact IH|].
      eapply Permutation_Forall; [apply insert_desc_perm|].
      constructor; [unfold desc; lia|exact Hy].
    + constructor; [constructor; assumption|].
      constructor; [unfold desc; lia|].
      eapply Forall_impl; [|exact Hy]. unfold desc; intros z Hz; lia.
Qed.

Lemma sort_desc_sorted : forall l, StronglySorted desc (sort_desc l).
Proof.
  induction l as [|x l IH]; simpl.
  - constructor.
  - apply insert_desc_sorted; exact IH.
Qed.

(** The sort is stable: entries with one key keep their order. *)
Lemma insert_desc_stable :
  forall z x l,
    filter (fun e => fst e =? z) (insert_desc x l)
    = filter (fun e => fst e =? z) (x :: l).
Proof.
  intros z x l; induction l as [|y l IH].
  - reflexivity.
  - cbn [insert_desc]. destruct (Z.ltb_spec (fst x) (fst y)) as [Hlt|Hge].
    + cbn [filter] in *. rewrite IH.
      destruct (Z.eqb_spec (fst x) z), (Z.eqb_spec (fst y) z);
        try reflexivity. lia.
    + reflexivity.
Qed.

Lemma sort_desc_stable :
  forall z l,
    filter (fun e => fst e =? z) (sort_desc l) = filter (fun e => fst e =? z) l.
Proof.
  intros z l; induction l as [|x l IH].
  - reflexivity.
  - cbn [sort_desc]. rewrite insert_desc_stable. cbn [filter]. rewrite IH.
    reflexivity.
Qed.

End Ranking.

(** The score as the specification words it: the url criterion is the
    substring test alone, the page-type criterion the equality alone. *)
Definition worded_score (url page_type : option string)
  (ep : EpisodicMemory.Episode) : Z :=
  (if match url with
      | Some u => str_contains u (EpisodicMemory.url ep)
      | None => false
      end then 2 else 0)
  + (if match page_type with
        | Some p => String.eqb (EpisodicMemory.page_type ep) p
        | None => false
        end then 1 else 0)
  + (if EpisodicMemory.success ep then 1 else 0).

Definition failed_shop_episode : EpisodicMemory.Episode :=
  EpisodicMemory.mkEpisode "3f2a9c1e" "https://shop.example/cart" "Cart"
    "shopping" [] "2024-01-01T10:00:00" false [].

(** The empty string is a substring of every URL, yet a query for it finds
    nothing: the code treats an empty url as no url. *)
Lemma find_similar_empty_url :
  str_contains "" (EpisodicMemory.url failed_shop_episode) = true /\
  worded_score (Some "") None failed_shop_episode = 2 /\
  EpisodicMemory.score (Some "") None failed_shop_episode = 0 /\
  EpisodicMemory.find_similar_episodes (Some "") None 5
    (EpisodicMemory.mk [failed_shop_episode] []) = [].
Proof. repeat split. Qed.

Lemma filter_map_snd_in :
  forall {A} (f : A -> Z) (p : Z * A -> bool) (l : list A) (e : Z * A),
    In e (filter p (map (fun a => (f a, a)) l)) ->
    fst e = f (snd e) /\ In (snd e) l /\ p e = true.
Proof.
  intros A f p l e Hin. apply filter_In in Hin. destruct Hin as [Hin Hp].
  apply in_map_iff in Hin. destruct Hin as (a & <- & Ha). simpl. auto.
Qed.

(** C4, amended.  Each stored episode is scored +2 when a non-empty query
    url is a substring of its URL, +1 when a non-empty query page type
    equals its page type, and +1 when it succeeded; with non-empty query
    strings this is the score the specification words.  The episodes with a
    positive score are ranked by descending score, episodes of equal score
    in stored order, and the first [max_results] of the ranking are
    returned.  An episode that matches on url and on page type never
    scores below one that does not match on both. *)
Theorem find_similar_episodes_ranked :
  forall (url page_type : option string) (max_results : Z)
         (m : EpisodicMemory.t),
    let score := EpisodicMemory.score url page_type in
    let positive :=
      filter (fun se => 0 <? fst se)
             (map (fun ep => (score ep, ep)) (EpisodicMemory.episodes m)) in
    exists ranked,
      EpisodicMemory.find_similar_episodes url page_type max_results m
        = map snd (slice_to max_results ranked) /\
      (0 <= max_results ->
       EpisodicMemory.find_similar_episodes url page_type max_results m
         = map snd (firstn (Z.to_nat max_results) ranked)) /\
      Permutation positive ranked /\
      StronglySorted (fun x y => fst y <= fst x) ranked /\
      (forall z, filter (fun se => fst se =? z) ranked
                 = filter (fun se => fst se =? z) positive) /\
      Forall (fun se => fst se = score (snd se) /\ 0 < fst se /\
                        In (snd se) (EpisodicMemory.episodes m)) ranked /\
      (forall ep, In ep (EpisodicMemory.episodes m) -> 0 < score ep ->
                  In (score ep, ep) ranked) /\
      (forall ep,
          score ep
          = (if EpisodicMemory.url_matches url ep then 2 else 0)
            + (if EpisodicMemory.page_type_matches page_type ep then 1 else 0)
            + (if EpisodicMemory.success ep then 1 else 0)) /\
      (url <> Some "" -> page_type <> Some "" ->
       forall ep, score ep = worded_score url page_type ep) /\
      (forall ep ep',
          EpisodicMemory.url_matches url ep = true ->
          EpisodicMemory.page_type_matches page_type ep = true ->
          EpisodicMemory.url_matches url ep'
          && EpisodicMemory.page_type_matches page_type ep' = false ->
          score ep' <= score ep).
Proof.
  intros url page_type max_results m score positive.
  exists (EpisodicMemory.sort_desc positive).
  split; [reflexivity|]. split.
  { intros Hk. unfold EpisodicMemory.find_similar_episodes.
    fold score. fold positive. unfold EpisodicMemory.scored_episodes.
    fold score. fold positive. f_equal. unfold slice_to.
    destruct (Z.ltb_spec max_results 0) as [Hneg|_]; [lia|].
    destruct (Z.min_spec max_results
                (Z.of_nat (List.length (EpisodicMemory.sort_desc positive))))
      as [[Hlt ->]|[Hge ->]].
    - reflexivity.
    - rewrite Nat2Z.id. rewrite List.firstn_all.
      symmetry. apply List.firstn_all2. lia. }
  split; [apply sort_desc_perm|].
  split; [apply sort_desc_sorted|].
  split; [intros z; apply sort_desc_stable|].
  split.
  { eapply Permutation_Forall; [apply sort_desc_perm|].
    apply Forall_forall. intros e He.
    apply (filter_map_snd_in score) in He. destruct He as (Hf & Hin & Hp).
    apply Z.ltb_lt in Hp. auto. }
  split.
  { intros ep Hin Hpos. eapply Permutation_in; [apply sort_desc_perm|].
    apply filter_In. split.
    - apply in_map_iff. exists ep. auto.
    - apply Z.ltb_lt. exact Hpos. }
  split; [reflexivity|].
  split.
  { intros Hu Hp ep. unfold score, EpisodicMemory.score, worded_score.
    unfold EpisodicMemory.url_matches, EpisodicMemory.page_type_matches.
    destruct url as [u|], page_type as [p|];
      repeat match goal with
             | |- context [String.eqb ?x ""] =>
                 destruct (String.eqb_spec x ""); [subst; contradiction|]
             end; reflexivity. }
  intros ep ep' Hu Hp Hnot. unfold score, EpisodicMemory.score.
  rewrite Hu, Hp.
  destruct (EpisodicMemory.url_matches url ep'),
           (EpisodicMemory.page_type_matches page_type ep'),
           (EpisodicMemory.success ep'), (EpisodicMemory.success ep);
    simpl in Hnot; try discriminate; lia.
Qed.

Definition done_shop_episode : EpisodicMemory.Episode :=
  EpisodicMemory.mkEpisode "77aa01bc" "https://news.example/" "News"
    "news" [] "2024-01-02T09:30:00" true [].

Lemma find_similar_episodes_ranked_witness :
  EpisodicMemory.score (Some "shop") (Some "shopping") done_shop_episode
  <= EpisodicMemory.score (Some "shop") (Some "shopping") failed_shop_episode.
Proof.
  destruct (find_similar_episodes_ranked (Some "shop") (Some "shopping") 5
              (EpisodicMemory.mk [failed_shop_episode; done_shop_episode] []))
    as (ranked & _ & _ & _ & _ & _ & _ & _ & _ & _ & Hmonotone).
  apply Hmonotone; reflexivity.
Defined.

(** ** Persistence of the episodic memory *)

Lemma map_res_map :
  forall {A B} (f : A -> B) (g : B -> res A) (l : list A),
    (forall x, g (f x) = Ok x) ->
    map_res g (map f l) = Ok l.
Proof.
  intros A B f g l Hgf; induction l as [|x l IH]; simpl.
  - reflexivity.
  - rewrite Hgf. simpl. rewrite IH. reflexivity.
Qed.

Lemma Episode_of_to_dict :
  forall ep, EpisodicMemory.Episode_of_kwargs (EpisodicMemory.to_dict ep) = Ok ep.
Proof.
  intros [i u ti pt acts ts ok lp].
  unfold EpisodicMemory.Episode_of_kwargs, EpisodicMemory.to_dict.
  cbn -[map_res].
  unfold EpisodicMemory.pystrs.
  rewrite (map_res_map PStr EpisodicMemory.as_str lp) by reflexivity.
  reflexivity.
Qed.

Lemma patterns_of_to_py :
  forall p,
    EpisodicMemory.patterns_of_py (EpisodicMemory.patterns_to_py p) = Ok p.
Proof.
  intros p. unfold EpisodicMemory.patterns_of_py, EpisodicMemory.patterns_to_py.
  apply (map_res_map (fun kv : string * Z => (fst kv, PInt (snd kv)))
                     (fun kv => bind (EpisodicMemory.as_int (snd kv))
                                     (fun n => Ok (fst kv, n)))).
  intros [k n]. reflexivity.
Qed.




(** ** Resolution of an element from its description *)

Section Resolution.
Import ElementFinder.
Variable D : Driver.

(** An element that is displayed and enabled, and one that is reported
    not to be *)
Definition usable (e : WebElement D) : Prop :=
  is_displayed D e = Ok true /\ is_enabled D e = Ok true.




End Resolution.

Definition home_link : ElementFinder.Node :=
  ElementFinder.mkNode "a" [("href", "/")] "Home" ["Home"] true true
                       "/html/body/a[1]".

Definition login_button : ElementFinder.Node :=
  ElementFinder.mkNode "button" [("type", "submit")] "Login" ["Login"] true true
                       "/html/body/form[1]/button[1]".

Definition sample_dom : list ElementFinder.Node := [home_link; login_button].






(** ** The task loop *)

Section Loop.
Context {J : Json.Codec} {Hh : Hashlib}.
Variable E : Env.
Import BrowserAgent.

Local Abbreviation agent := (Agent E).

(** What the statements of the loop body leave alone, apart from the two
    flags: the configuration, the step budget and counter, the episodic
    memory with its file, and the system-level guidance. *)
Definition frame0 (a a' : agent) : Prop :=
  config E a' = config E a /\
  max_steps E a' = max_steps E a /\
  current_step E a' = current_step E a /\
  episodic_memory E a' = episodic_memory E a /\
  fs E a' = fs E a /\
  ContextManager.system_context (context_manager E a')
  = ContextManager.system_context (context_manager E a).

Definition flags (a a' : agent) : Prop :=
  is_task_complete E a' = is_task_complete E a /\
  needs_human_input E a' = needs_human_input E a.

Definition frame (a a' : agent) : Prop := frame0 a a' /\ flags a a'.

Lemma frame_refl : forall a, frame a a.
Proof. intros a; repeat split. Qed.

Lemma frame_trans : forall a b c, frame a b -> frame b c -> frame a c.
Proof.
  unfold frame, frame0, flags; intros a b c Hab Hbc.
  intuition congruence.
Qed.

Lemma frame0_refl : forall a, frame0 a a.
Proof. intros a; repeat split. Qed.

Lemma frame0_trans : forall a b c, frame0 a b -> frame0 b c -> frame0 a c.
Proof. unfold frame0; intros a b c Hab Hbc. intuition congruence. Qed.

(** A statement keeps a relation between the states before and after. *)
Definition keeps (P : agent -> agent -> Prop) {A} (m : M E A) : Prop :=
  forall a a' r, m a = (a', r) -> P a a'.

Lemma mbind_inv :
  forall {A B} (m : M E A) (k : A -> M E B) a a' r,
    mbind E m k a = (a', r) ->
    (exists a1 x, m a = (a1, Ok x) /\ k x a1 = (a', r)) \/
    (exists e, m a = (a', Raise e) /\ r = Raise e).
Proof.
  intros A B m k a a' r Hb. unfold mbind in Hb.
  destruct (m a) as [a1 [x|e]].
  - left. exists a1, x. auto.
  - right. inversion Hb; subst. exists e. auto.
Qed.

Lemma keeps_bind :
  forall (P : agent -> agent -> Prop) {A B} (m : M E A) (k : A -> M E B),
    (forall a b c, P a b -> P b c -> P a c) ->
    keeps P m -> (forall x, keeps P (k x)) -> keeps P (mbind E m k).
Proof.
  intros P A B m k Htrans Hm Hk a a' r Hb.
  apply mbind_inv in Hb. destruct Hb as [(a1 & x & H1 & H2)|(e & H1 & _)].
  - eapply Htrans; [eapply Hm; exact H1|eapply Hk; exact H2].
  - eapply Hm; exact H1.
Qed.

Lemma keeps_ret :
  forall (P : agent -> agent -> Prop) {A} (x : A),
    (forall a, P a a) -> keeps P (ret E x).
Proof. intros P A x Hrefl a a' r Hr. inversion Hr; subst. apply Hrefl. Qed.

Lemma keeps_lift :
  forall (P : agent -> agent -> Prop) {A} (x : res A),
    (forall a, P a a) -> keeps P (lift E x).
Proof. intros P A x Hrefl a a' r Hr. inversion Hr; subst. apply Hrefl. Qed.

Lemma keeps_gets :
  forall (P : agent -> agent -> Prop) {A} (f : agent -> A),
    (forall a, P a a) -> keeps P (gets E f).
Proof. intros P A f Hrefl a a' r Hr. inversion Hr; subst. apply Hrefl. Qed.

Lemma keeps_frame0 :
  forall {A} (m : M E A), keeps frame m -> keeps frame0 m.
Proof. intros A m Hm a a' r Hr. apply (Hm _ _ _ Hr). Qed.

Lemma now_frame : keeps frame (now E).
Proof. intros a a' r Hr. inversion Hr; subst. repeat split. Qed.

Lemma page_state_frame : keeps frame (page_state E).
Proof. apply keeps_gets, frame_refl. Qed.

Lemma decide_next_action_frame :
  forall task ctx, keeps frame (decide_next_action E task ctx).
Proof. intros task ctx a a' r Hr. inversion Hr; subst. repeat split. Qed.

Lemma _execute_action_frame :
  forall action_data, keeps frame (_execute_action E action_data).
Proof.
  intros action_data. unfold _execute_action.
  repeat first
    [ apply keeps_bind; [exact frame_trans| |intros ?]
    | apply keeps_lift, frame_refl
    | apply keeps_ret, frame_refl
    | match goal with
      | |- keeps _ (if ?c then _ else _) => destruct c
      end ].
  intros a a' r Hr.
  destruct (ActionTools.execute_action _ _ _ _) as [b r'] in Hr.
  inversion Hr; subst. repeat split.
Qed.

Lemma add_action_frame :
  forall a_type a_desc result ps stamp,
    keeps frame
      (fun a : agent =>
         let (c, r) :=
           ContextManager.add_action a_type a_desc result ps stamp
                                     (context_manager E a) in
         (set_context_manager E c a, r)).
Proof.
  intros a_type a_desc result ps stamp a a' r Hr.
  unfold ContextManager.add_action in Hr.
  destruct (ContextManager.current_task (context_manager E a)).
  - destruct (method_get result "success" PNone); inversion Hr; subst;
      repeat split.
  - inversion Hr; subst. repeat split.
Qed.

(** On the records of the context manager the failure analysis ends at
    once: with no record there is nothing to correct, and the first record
    has no [get]. *)
Lemma analyze_failure_on_records :
  forall calls (records : list ContextManager.ActionRecord) ps task,
    ReflectionPattern.analyze_failure E calls
      (map ReflectionPattern.Record_ records) ps task
    = (calls,
       match slice_from (-5) records with
       | [] => Ok (ReflectionPattern.ReflectionResult1 false)
       | _ :: _ =>
           Raise (Exn AttributeError
                      "'ActionRecord' object has no attribute 'get'")
       end).
Proof.
  intros calls records ps task. unfold ReflectionPattern.analyze_failure.
  rewrite slice_from_map.
  destruct (slice_from (-5) records) as [|r0 rest]; reflexivity.
Qed.

Lemma _perform_reflection_frame :
  forall task, keeps frame (_perform_reflection E task).
Proof.
  intros task a a' r Hr. unfold _perform_reflection in Hr.
  destruct (ENABLE_REFLECTION (config E a)) as [[|]|].
  - rewrite analyze_failure_on_records in Hr.
    destruct (slice_from (-5) _) in Hr; simpl in Hr; inversion Hr; subst;
      repeat split.
  - inversion Hr; subst. repeat split.
  - inversion Hr; subst. repeat split.
Qed.

Lemma reflection_due_frame : keeps frame (reflection_due E).
Proof.
  intros a a' r Hr. unfold reflection_due in Hr.
  destruct (ENABLE_REFLECTION (config E a)); inversion Hr; subst; repeat split.
Qed.

Lemma lift_inv :
  forall {A} (x : res A) (a a' : agent) r,
    lift E x a = (a', r) -> a' = a /\ r = x.
Proof. intros A x a a' r Hr. inversion Hr; auto. Qed.

Lemma ret_inv :
  forall {A} (x : A) (a a' : agent) r,
    ret E x a = (a', r) -> a' = a /\ r = Ok x.
Proof. intros A x a a' r Hr. inversion Hr; auto. Qed.

Lemma gets_inv :
  forall {A} (f : agent -> A) (a a' : agent) r,
    gets E f a = (a', r) -> a' = a /\ r = Ok (f a).
Proof. intros A f a a' r Hr. inversion Hr; auto. Qed.

Lemma modify_inv :
  forall (f : agent -> agent) (a a' : agent) r,
    modify E f a = (a', r) -> a' = f a /\ r = Ok tt.
Proof. intros f a a' r Hr. inversion Hr; auto. Qed.

(** Split a sequence of statements at its first statement. *)
Ltac step_in Hrun H1 :=
  let a1 := fresh "a" in
  let x := fresh "x" in
  let e := fresh "e" in
  let Heq := fresh "Heq" in
  apply mbind_inv in Hrun;
  destruct Hrun as [(a1 & x & H1 & Hrun)|(e & H1 & Heq)];
  [|try discriminate Heq].

Ltac primitive H :=
  first
    [ apply lift_inv in H; destruct H as [-> H]
    | apply ret_inv in H; destruct H as [-> H]
    | apply gets_inv in H; destruct H as [-> H]
    | apply modify_inv in H; destruct H as [-> H] ].



Lemma modify_frame0 :
  forall f : agent -> agent,
    (forall a, frame0 a (f a)) -> keeps frame0 (modify E f).
Proof. intros f Hf a a' r Hr. inversion Hr; subst. apply Hf. Qed.

Ltac keeps_frame0_auto :=
  repeat first
    [ apply keeps_frame0, now_frame
    | apply keeps_frame0, page_state_frame
    | apply keeps_frame0, decide_next_action_frame
    | apply keeps_frame0, _execute_action_frame
    | apply keeps_frame0, add_action_frame
    | apply keeps_frame0, reflection_due_frame
    | apply keeps_frame0, _perform_reflection_frame
    | apply keeps_lift, frame0_refl
    | apply keeps_ret, frame0_refl
    | apply keeps_gets, frame0_refl
    | apply modify_frame0; intros ?; repeat split
    | match goal with
      | |- keeps _ (if ?c then _ else _) => destruct c
      end
    | apply keeps_bind; [exact frame0_trans| |intros ?] ].

Lemma act_on_frame0 :
  forall task ps d, keeps frame0 (act_on E task ps d).
Proof. intros task ps d. unfold act_on. keeps_frame0_auto. Qed.

(** The state after the first statement of the loop body *)
Definition counted (a : agent) : agent :=
  set_current_step E (current_step E a + 1) a.

Lemma observe_and_decide_frame :
  forall task (a a' : agent) r,
    observe_and_decide E task a = (a', r) -> frame (counted a) a'.
Proof.
  intros task a a' r Hrun. unfold observe_and_decide in Hrun.
  step_in Hrun S1; [|primitive S1; discriminate].
  primitive S1. fold (counted a) in Hrun.
  revert Hrun. generalize (counted a). intros s Hrun.
  step_in Hrun S2; [|primitive S2; discriminate]. primitive S2.
  step_in Hrun S3;
    [|match type of S3 with (_, _) = _ => inversion S3; subst end;
      apply frame_refl].
  match type of S3 with (_, _) = _ => inversion S3; subst end.
  step_in Hrun S4;
    [|match type of S4 with (_, _) = _ => inversion S4; subst end;
      apply frame_refl].
  match type of S4 with (_, _) = _ => inversion S4; subst end.
  step_in Hrun S5; [|eapply decide_next_action_frame; exact S5].
  apply decide_next_action_frame in S5. primitive Hrun. exact S5.
Qed.



(** One pass of the loop counts one step and leaves the budget, the
    memory and the guidance alone, however it ends. *)
Lemma loop_body_frame0 :
  forall task (a a' : agent) r,
    loop_body E task a = (a', r) -> frame0 (counted a) a'.
Proof.
  intros task a a' r Hrun. unfold loop_body in Hrun.
  step_in Hrun H1; [|apply observe_and_decide_frame in H1; apply H1].
  apply observe_and_decide_frame in H1. destruct H1 as [H1 _].
  eapply frame0_trans; [exact H1|].
  destruct (snd x) as [d|].
  - destruct (negb (truthy d)).
    + primitive Hrun. apply frame0_refl.
    + eapply act_on_frame0; exact Hrun.
  - primitive Hrun. apply frame0_refl.
Qed.


(** ** The action history *)






















(** What the whole loop leaves alone *)
Definition frame1 (a a' : agent) : Prop :=
  config E a' = config E a /\
  max_steps E a' = max_steps E a /\
  episodic_memory E a' = episodic_memory E a /\
  fs E a' = fs E a /\
  ContextManager.system_context (context_manager E a')
  = ContextManager.system_context (context_manager E a).

Lemma loop_test_true :
  forall a : agent,
    loop_test E a = true ->
    is_task_complete E a = false /\ needs_human_input E a = false /\
    current_step E a < max_steps E a.
Proof.
  intros a Ht. unfold loop_test in Ht.
  apply andb_true_iff in Ht. destruct Ht as [Ht Hn].
  apply andb_true_iff in Ht. destruct Ht as [Hc Hs].
  apply negb_true_iff in Hc, Hn. apply Z.ltb_lt in Hs. auto.
Qed.

(** The loop never counts past the budget. *)
Lemma while_loop_bound :
  forall fuel task (a a' : agent) r,
    while_loop E fuel task a = (a', r) ->
    frame1 a a' /\
    current_step E a <= current_step E a' /\
    current_step E a' <= Z.max (current_step E a) (max_steps E a).
Proof.
  induction fuel as [|fuel IH]; intros task a a' r Hrun; simpl in Hrun.
  - destruct (loop_test E a); inversion Hrun; subst;
      (split; [repeat split|lia]).
  - destruct (loop_test E a) eqn:Ht.
    + apply loop_test_true in Ht. destruct Ht as (_ & _ & Hlt).
      destruct (loop_body E task a) as [a1 r1] eqn:Hbody.
      apply loop_body_frame0 in Hbody.
      assert (Hs : current_step E a1 = current_step E a + 1)
        by (unfold frame0, counted in Hbody; simpl in Hbody; intuition).
      assert (Hf : frame1 a a1)
        by (unfold frame0, frame1, counted in *; simpl in Hbody; intuition).
      destruct r1 as [[|fr]|e].
      * apply IH in Hrun. destruct Hrun as (Hf' & Hlo & Hhi).
        split; [unfold frame1 in *; intuition congruence|].
        unfold frame1 in Hf. destruct Hf as (_ & Hm & _).
        rewrite Hm in Hhi. lia.
      * inversion Hrun; subst. split; [exact Hf|lia].
      * inversion Hrun; subst. split; [exact Hf|lia].
    + inversion Hrun; subst. split; [repeat split|lia].
Qed.



(** ** The step budget *)





(** ** The [finally] block *)

Lemma finally_block_effect :
  forall fr (a a' : agent) r,
    finally_block E fr a = (a', r) ->
    context_manager E a' = context_manager E a /\
    current_step E a' = current_step E a /\
    max_steps E a' = max_steps E a /\
    browser E a' = browser E a /\
    match ContextManager.action_history (context_manager E a) with
    | [] =>
        r = Ok tt /\ episodic_memory E a' = episodic_memory E a /\
        fs E a' = fs E a
    | _ :: _ =>
        r = Ok tt ->
        exists ep b,
          success_of fr = Ok b /\
          EpisodicMemory.episodes (episodic_memory E a')
          = (EpisodicMemory.episodes (episodic_memory E a) ++ [ep])%list /\
          fs E a' = EpisodicMemory.save (episodic_memory E a') (fs E a) /\
          EpisodicMemory.actions ep = history_actions (context_manager E a) /\
          EpisodicMemory.success ep = b /\
          EpisodicMemory.url ep = url (get_page_state E (browser E a)) /\
          EpisodicMemory.title ep = title (get_page_state E (browser E a)) /\
          EpisodicMemory.page_type ep
          = page_type (get_page_state E (browser E a))
    end.
Proof.
  intros fr a a' r Hrun. unfold finally_block in Hrun.
  step_in Hrun S1; [|primitive S1; discriminate]. primitive S1.
  step_in Hrun S2; [|primitive S2; discriminate]. primitive S2.
  inversion S2; subst. clear S2.
  cbn [set_is_active context_manager] in Hrun.
  destruct (ContextManager.action_history (context_manager E a))
    as [|record history] eqn:Hhist.
  - primitive Hrun. subst. simpl. repeat split.
  - step_in Hrun S3; [|primitive S3; discriminate]. primitive S3.
    inversion S3; subst. clear S3.
    step_in Hrun S4; [|primitive S4; discriminate]. primitive S4.
    inversion S4; subst. clear S4.
    step_in Hrun S5.
    + primitive S5.
      cbn [set_is_active episodic_memory fs clock] in Hrun.
      destruct (EpisodicMemory.add_episode _ _ _ _ _ _ _ _)
        as [[m f] [ep|e]] eqn:Hadd in Hrun;
        inversion Hrun; subst; simpl;
        repeat split; try (intros; discriminate).
      intros _. unfold EpisodicMemory.add_episode in Hadd.
      destruct (EpisodicMemory._extract_patterns _) as [learned|] in Hadd;
        [|inversion Hadd].
      inversion Hadd; subst. do 2 eexists.
      split; [symmetry; exact S5|]. simpl. repeat split.
    + primitive S5. subst. simpl.
      repeat split. intros; discriminate.
Qed.

(** The run, split at the end of the loop *)
Lemma _execute_task_loop_inv :
  forall fuel task (a a' : agent) r,
    _execute_task_loop E fuel task a = (a', r) ->
    r <> Ok None ->
    exists a1 outcome final_result,
      while_loop E fuel task (begin E a) = (a1, outcome) /\
      final_result
      = result_after_loop E
          (match outcome with
           | Ok (Some fr) => Ok fr
           | Ok None => Ok None
           | Raise e => Raise e
           end) a1 /\
      outcome <> Ok None /\
      exists r1,
        finally_block E final_result a1 = (a', r1) /\
        r = match r1 with
            | Ok _ => Ok (Some (returned final_result))
            | Raise e => Raise e
            end.
Proof.
  intros fuel task a a' r Hrun Hr. unfold _execute_task_loop in Hrun.
  destruct (while_loop E fuel task (begin E a)) as [a1 [[fr|]|e]] eqn:Hloop.
  - exists a1, (Ok (Some fr)). eexists. split; [reflexivity|].
    split; [reflexivity|]. split; [discriminate|].
    destruct (finally_block E _ a1) as [a2 [u|e]] eqn:Hfin;
      inversion Hrun; subst; eexists; split; reflexivity.
  - inversion Hrun; subst. contradiction.
  - exists a1, (Raise e). eexists. split; [reflexivity|].
    split; [reflexivity|]. split; [discriminate|].
    destruct (finally_block E _ a1) as [a2 [u|e']] eqn:Hfin;
      inversion Hrun; subst; eexists; split; reflexivity.
Qed.

Lemma begin_fields :
  forall a : agent,
    current_step E (begin E a) = 0 /\
    max_steps E (begin E a) = max_steps E a /\
    is_task_complete E (begin E a) = false /\
    needs_human_input E (begin E a) = needs_human_input E a /\
    episodic_memory E (begin E a) = episodic_memory E a /\
    fs E (begin E a) = fs E a /\
    context_manager E (begin E a) = context_manager E a.
Proof. intros a. repeat split. Qed.

Lemma _execute_task_loop_steps :
  forall fuel task (a : agent),
    0 <= current_step E (fst (_execute_task_loop E fuel task a))
      <= Z.max 0 (max_steps E a).
Proof.
  intros fuel task a. unfold _execute_task_loop.
  destruct (while_loop E fuel task (begin E a)) as [a1 o] eqn:Hloop.
  apply while_loop_bound in Hloop. destruct Hloop as (Hf & Hlo & Hhi).
  destruct (begin_fields a) as (Hs & Hm & _). rewrite Hs, Hm in *.
  assert (Hfin : forall fr,
             current_step E (fst (finally_block E fr a1)) = current_step E a1).
  { intros fr. destruct (finally_block E fr a1) as [a2 r2] eqn:Hfin.
    apply finally_block_effect in Hfin. simpl. intuition. }
  destruct o as [[fr|]|e]; simpl.
  - specialize (Hfin (result_after_loop E (Ok fr) a1)).
    destruct (finally_block E _ a1) as [a2 [u|e]]; simpl in *; lia.
  - lia.
  - specialize (Hfin (result_after_loop E (Raise e) a1)).
    destruct (finally_block E _ a1) as [a2 [u|e']]; simpl in *; lia.
Qed.




(** ** The episode of a run *)



(** ** Reflection inside the loop *)

(** Reflection adds nothing to the system-level guidance: a run leaves
    the guidance as it found it. *)
Lemma task_loop_keeps_guidance :
  forall fuel task (a : agent),
    ContextManager.system_context
      (context_manager E (fst (_execute_task_loop E fuel task a)))
    = ContextManager.system_context (context_manager E a).
Proof.
  intros fuel task a. unfold _execute_task_loop.
  destruct (while_loop E fuel task (begin E a)) as [a1 o] eqn:Hloop.
  apply while_loop_bound in Hloop. destruct Hloop as (Hf & _).
  unfold frame1 in Hf. destruct Hf as (_ & _ & _ & _ & Hsys).
  assert (Hfin : forall fr,
             context_manager E (fst (finally_block E fr a1))
             = context_manager E a1).
  { intros fr. destruct (finally_block E fr a1) as [a2 r2] eqn:Hfin.
    apply finally_block_effect in Hfin. simpl. intuition. }
  destruct o as [[fr|]|e]; simpl.
  - specialize (Hfin (result_after_loop E (Ok fr) a1)).
    destruct (finally_block E _ a1) as [a2 [u|e]]; simpl in *;
      rewrite Hfin; exact Hsys.
  - exact Hsys.
  - specialize (Hfin (result_after_loop E (Raise e) a1)).
    destruct (finally_block E _ a1) as [a2 [u|e']]; simpl in *;
      rewrite Hfin; exact Hsys.
Qed.

(** With reflection enabled and a record in the history, the reflection
    of the agent raises. *)
Lemma _perform_reflection_raises :
  forall task (a : agent),
    ENABLE_REFLECTION (config E a) = Some true ->
    ContextManager.action_history (context_manager E a) <> [] ->
    _perform_reflection E task a
    = (a, Raise (Exn AttributeError
                     "'ActionRecord' object has no attribute 'get'")).
Proof.
  intros task a Hen Hhist. unfold _perform_reflection. rewrite Hen.
  rewrite analyze_failure_on_records.
  unfold ContextManager.get_recent_actions.
  destruct (slice_from (Z.opp 10)
              (ContextManager.action_history (context_manager E a)))
    as [|r0 rest] eqn:Hslice.
  - exfalso. apply Hhist.
    destruct (ContextManager.action_history (context_manager E a)) as [|x l];
      [reflexivity|].
    apply (f_equal (@List.length _)) in Hslice.
    unfold slice_from in Hslice. rewrite List.length_skipn in Hslice.
    set (c := (_ <? 0)) in Hslice. vm_compute in c. subst c.
    cbv iota in Hslice. cbn [List.length] in Hslice. lia.
  - destruct (slice_from (-5) (r0 :: rest)) as [|r1 rest'] eqn:Hs5.
    + exfalso. apply (f_equal (@List.length _)) in Hs5.
      unfold slice_from in Hs5. rewrite List.length_skipn in Hs5.
      set (c := (_ <? 0)) in Hs5. vm_compute in c. subst c.
      cbv iota in Hs5. cbn [List.length] in Hs5. lia.
    + destruct a; reflexivity.
Qed.

(** The statement that follows the analysis does what is asked of it: a
    result that needs a correction and has a plan adds one line to the
    guidance, and the next request for a decision carries that line in its
    system prompt. *)
Lemma add_lesson_appends :
  forall (reflection : ReflectionPattern.ReflectionResult) plan (a : agent),
    ReflectionPattern.needs_correction reflection = true ->
    ReflectionPattern.correction_plan reflection = Some plan ->
    plan <> "" ->
    exists lesson,
      let guidance :=
        List.app (ContextManager.system_context (context_manager E a))
                 ["Урок из рефлексии: " ++ lesson] in
      ContextManager.system_context
        (context_manager E (add_lesson E reflection a)) = guidance /\
      (forall l, ReflectionPattern.learned_lesson reflection = Some l ->
                 l <> "" -> lesson = l) /\
      ContextManager.get_system_context
        (context_manager E (add_lesson E reflection a)) = join nl guidance.
Proof.
  intros reflection plan a Hneeds Hplan Hne. unfold add_lesson.
  rewrite Hneeds, Hplan.
  destruct (String.eqb_spec plan "") as [->|_]; [contradiction|].
  cbn [negb andb]. eexists. split; [reflexivity|]. split; [|reflexivity].
  intros l Hl Hl0. rewrite Hl.
  destruct (String.eqb_spec l "") as [->|_]; [contradiction|reflexivity].
Qed.

End Loop.

(** ** Concrete runs *)


(** The agent as constructed, on an empty memory file *)
Definition fresh_agent (E : Env) (cfg : BrowserAgent.Config)
  (b : browser_state E) : BrowserAgent.Agent E :=
  BrowserAgent.init (J := ref_codec) E cfg "system prompt" b (mkFS Absent true).






Definition click_reply : string :=
  jsq ("{'action':'click','description':'press the button',"
       ++ "'parameters':{'element_description':'button'}}").

(** An environment in which every click fails for want of the browser
    method, and in which the language model would answer a request for
    analysis with a plan and a lesson. *)
Definition failing_clicks_env : Env :=
  mkEnv unit (fun _ => sample_page) (fun _ => None)
        (fun _ request =>
           if str_contains "Проанализируй" (prompt request)
           then Ok ("План: нужно нажать другую кнопку" ++ String "010" ""
                    ++ String "010" "" ++ "Урок: кнопки нет на странице")
           else Ok click_reply)
        (fun n => "T" ++ str_of_int (Z.of_nat n)).

(** C3, the code at the failing input.  With reflection enabled, five
    failed clicks and a budget of eight steps, the fifth pass calls the
    reflection of the agent, which hands the records of the context manager
    to [analyze_failure]; the first [action.get] raises, the run ends as
    failed at step 5, the decision source has answered the five decisions
    only, and the guidance is what it was.  With the [Config] of
    [config.py], which has no [ENABLE_REFLECTION], the first pass already
    fails. *)
Theorem reflection_round_fails :
  let a :=
    fresh_agent failing_clicks_env (BrowserAgent.mkConfig 8 (Some true)) tt in
  let run :=
    BrowserAgent._execute_task_loop (J := ref_codec) (H := toy_hashlib)
      failing_clicks_env 8 "press the button" a in
  let a0 := fresh_agent failing_clicks_env BrowserAgent.Config_default tt in
  let run0 :=
    BrowserAgent._execute_task_loop (J := ref_codec) (H := toy_hashlib)
      failing_clicks_env 8 "press the button" a0 in
  snd run
  = Ok (Some (PDict [ ("success", PBool false);
                      ("error", PStr "'ActionRecord' object has no attribute 'get'");
                      ("message", PStr "Ошибка при выполнении задачи");
                      ("steps", PInt 5) ])) /\
  forallb (fun v => negb (succeeded v))
          (BrowserAgent.history_actions
             (BrowserAgent.context_manager failing_clicks_env (fst run)))
  = true /\
  BrowserAgent.llm_calls failing_clicks_env (fst run) = 5%nat /\
  ContextManager.system_context
    (BrowserAgent.context_manager failing_clicks_env (fst run))
  = ContextManager.system_context
      (BrowserAgent.context_manager failing_clicks_env a) /\
  snd run0
  = Ok (Some (PDict [ ("success", PBool false);
                      ("error",
                       PStr "'Config' object has no attribute 'ENABLE_REFLECTION'");
                      ("message", PStr "Ошибка при выполнении задачи");
                      ("steps", PInt 1) ])).
Proof. vm_compute. repeat split. Qed.

(** What the reflection would have returned, had it been given the
    dictionaries the [finally] block makes of the same records *)
Lemma reflection_on_dictionaries :
  let a :=
    fresh_agent failing_clicks_env (BrowserAgent.mkConfig 8 (Some true)) tt in
  let run :=
    BrowserAgent._execute_task_loop (J := ref_codec) (H := toy_hashlib)
      failing_clicks_env 8 "press the button" a in
  let history :=
    BrowserAgent.history_actions
      (BrowserAgent.context_manager failing_clicks_env (fst run)) in
  exists confidence,
    ReflectionPattern.analyze_failure failing_clicks_env 5
      (map ReflectionPattern.Mapping history) sample_page "press the button"
    = (6%nat,
       Ok (ReflectionPattern.mkReflectionResult true
             (Some "нужно нажать другую кнопку")
             (Some "кнопки нет на странице") confidence)).
Proof. vm_compute. eexists. reflexivity. Qed.

(* ================================================================== *)
(** * Further properties of the modules *)
(* ================================================================== *)

(** ** The context manager *)

Section History.
Import ContextManager.

(** The history holds no more records than the deque admits. *)
Definition bounded (c : t) : Prop :=
  (List.length (action_history c) <= maxlen c)%nat.

Lemma deque_append_length :
  forall {A} maxlen (q : list A) x,
    (List.length q <= maxlen)%nat ->
    List.length (deque_append maxlen q x) = Nat.min (S (List.length q)) maxlen.
Proof.
  intros A maxlen q x Hq. unfold deque_append.
  destruct maxlen as [|n]; [reflexivity|].
  destruct (Nat.ltb_spec (List.length q) (S n)) as [Hlt|Hge].
  - rewrite List.length_app. cbn [List.length]. lia.
  - rewrite List.length_app.
    destruct q as [|y q]; cbn [List.length List.tl] in *; lia.
Qed.

Lemma deque_append_shape :
  forall {A} maxlen (q : list A) x,
    (0 < maxlen)%nat ->
    exists dropped older,
      q = (dropped ++ older)%list /\
      deque_append maxlen q x = (older ++ [x])%list /\
      (List.length dropped <= 1)%nat /\
      ((List.length q < maxlen)%nat -> dropped = []).
Proof.
  intros A maxlen q x Hpos. unfold deque_append.
  destruct maxlen as [|n]; [lia|].
  destruct (Nat.ltb_spec (List.length q) (S n)) as [Hlt|Hge].
  - exists [], q. repeat split. simpl; lia.
  - destruct q as [|y q]; [simpl in Hge; lia|].
    exists [y], q. repeat split; [simpl; lia|lia].
Qed.

(** X1.  [add_action] keeps the history within the capacity of the deque:
    the new record is always the last one, the records in front of it are
    the old ones in their order, and when the deque was full exactly the
    oldest record has left.  The capacity itself is never changed. *)
Theorem add_action_within_capacity :
  forall (a_type a_desc result : pyval) (ps : World.PageState) (now : string)
         (c : t),
    bounded c ->
    let c' := fst (add_action a_type a_desc result ps now c) in
    let record := mkActionRecord now a_type a_desc result ps in
    bounded c' /\ maxlen c' = maxlen c /\
    List.length (action_history c')
    = Nat.min (S (List.length (action_history c))) (maxlen c) /\
    ((0 < maxlen c)%nat ->
     exists dropped older,
       action_history c = (dropped ++ older)%list /\
       action_history c' = (older ++ [record])%list /\
       (List.length dropped <= 1)%nat /\
       ((List.length (action_history c) < maxlen c)%nat -> dropped = [])).
Proof.
  intros a_type a_desc result ps now c Hb c' record.
  assert (Hhist : action_history c'
                  = deque_append (maxlen c) (action_history c) record).
  { subst c'. unfold add_action. destruct (current_task c); [|reflexivity].
    destruct (method_get result "success" PNone); reflexivity. }
  assert (Hmax : maxlen c' = maxlen c).
  { subst c'. unfold add_action. destruct (current_task c); [|reflexivity].
    destruct (method_get result "success" PNone); reflexivity. }
  assert (Hlen : List.length (action_history c')
                 = Nat.min (S (List.length (action_history c))) (maxlen c)).
  { rewrite Hhist. apply deque_append_length. exact Hb. }
  split; [unfold bounded; rewrite Hlen, Hmax; lia|].
  split; [exact Hmax|]. split; [exact Hlen|].
  intros Hpos. rewrite Hhist. apply deque_append_shape. exact Hpos.
Qed.

Definition two_clicks : t :=
  mk [ mkActionRecord "T0" (PStr "click") (PStr "first") (PDict []) sample_page;
       mkActionRecord "T1" (PStr "click") (PStr "second") (PDict []) sample_page ]
     2 None [].

Lemma add_action_within_capacity_witness :
  let c' := fst (add_action (PStr "scroll") (PStr "third") (PDict [])
                            sample_page "T2" two_clicks) in
  let record :=
    mkActionRecord "T2" (PStr "scroll") (PStr "third") (PDict []) sample_page in
  bounded c' /\ maxlen c' = maxlen two_clicks /\
  List.length (action_history c')
  = Nat.min (S (List.length (action_history two_clicks))) (maxlen two_clicks) /\
  ((0 < maxlen two_clicks)%nat ->
   exists dropped older,
     action_history two_clicks = (dropped ++ older)%list /\
     action_history c' = (older ++ [record])%list /\
     (List.length dropped <= 1)%nat /\
     ((List.length (action_history two_clicks) < maxlen two_clicks)%nat ->
      dropped = [])).
Proof.
  apply (add_action_within_capacity (PStr "scroll") (PStr "third") (PDict [])
           sample_page "T2" two_clicks).
  unfold bounded. simpl. lia.
Defined.

(** X2.  [get_recent_actions(count)] returns the end of the history: for a
    positive [count] the last [count] records, or all of them when there are
    fewer.  For [count = 0] the slice [[-0:]] is the whole history, and for a
    negative [count] it is the history without its first [-count] records. *)
Theorem get_recent_actions_tail :
  forall (count : Z) (c : t),
    let recent := get_recent_actions count c in
    (exists older, action_history c = (older ++ recent)%list) /\
    (0 < count ->
     List.length recent
     = Nat.min (Z.to_nat count) (List.length (action_history c))) /\
    (count = 0 -> recent = action_history c) /\
    (count < 0 -> recent = skipn (Z.to_nat (- count)) (action_history c)).
Proof.
  intros count c recent. subst recent. unfold get_recent_actions, slice_from.
  set (h := action_history c). split; [|split; [|split]].
  - eexists. symmetry. apply List.firstn_skipn.
  - intros Hpos. destruct (Z.ltb_spec (- count) 0) as [_|Hge]; [|lia].
    rewrite List.length_skipn. lia.
  - intros ->. simpl. destruct (Z.min_spec 0 (Z.of_nat (List.length h)))
      as [[_ ->]|[Hle ->]]; [reflexivity|].
    rewrite Nat2Z.id. destruct h; [reflexivity|cbn [List.length] in Hle; lia].
  - intros Hneg. destruct (Z.ltb_spec (- count) 0) as [Hlt|_]; [lia|].
    destruct (Z.min_spec (- count) (Z.of_nat (List.length h)))
      as [[_ ->]|[Hle ->]]; [reflexivity|].
    rewrite Nat2Z.id. rewrite List.skipn_all.
    symmetry. apply List.skipn_all2. lia.
Qed.

Lemma map_res_is_ok :
  forall {A B} (f : A -> res B) (l : list A),
    is_ok (map_res f l) = forallb (fun x => is_ok (f x)) l.
Proof.
  intros A B f l; induction l as [|x l IH]; simpl; [reflexivity|].
  destruct (f x) as [y|e]; simpl; [|reflexivity].
  rewrite <- IH. destruct (map_res f l); reflexivity.
Qed.

Lemma forallb_pointwise :
  forall {A} (f g : A -> bool) (l : list A),
    (forall x, f x = g x) -> forallb f l = forallb g l.
Proof.
  intros A f g l Hfg; induction l as [|x l IH]; simpl; [reflexivity|].
  rewrite Hfg, IH. reflexivity.
Qed.

(** The result of the recorded action is a dictionary. *)
Definition dict_result (r : ActionRecord) : bool :=
  match result r with PDict _ => true | _ => false end.

(** X3.  The context for the next decision can be assembled exactly when
    the results of the last five recorded actions are dictionaries: a
    result of another kind (a browser method that returned [None], say)
    makes [to_text], and with it [get_action_summary] and
    [get_full_context], raise. *)
Theorem get_full_context_returns_iff :
  forall (ps : World.PageState) (c : t),
    is_ok (get_full_context ps c)
    = forallb dict_result (slice_from (-5) (action_history c)) /\
    is_ok (get_action_summary c) = is_ok (get_full_context ps c).
Proof.
  intros ps c.
  assert (Hsum : is_ok (get_action_summary c)
                 = forallb dict_result (slice_from (-5) (action_history c))).
  { unfold get_action_summary.
    destruct (action_history c) as [|r0 h] eqn:Hh; [reflexivity|].
    transitivity (is_ok (map_res to_text (slice_from (-5) (r0 :: h)))).
    - destruct (map_res to_text (slice_from (-5) (r0 :: h))); reflexivity.
    - rewrite map_res_is_ok. apply forallb_pointwise. intros r.
      unfold to_text, dict_result. destruct (result r); reflexivity. }
  split; [|].
  - rewrite <- Hsum. unfold get_full_context.
    destruct (get_action_summary c); reflexivity.
  - unfold get_full_context. destruct (get_action_summary c); reflexivity.
Qed.

(** The actions recorded one after the other *)
Definition record_all
  (entries : list (pyval * pyval * pyval * World.PageState * string)) (c : t)
  : t :=
  fold_left
    (fun c e =>
       match e with
       | (a_type, a_desc, result, ps, now) =>
           fst (add_action a_type a_desc result ps now c)
       end)
    entries c.

Lemma record_all_counts :
  forall entries c task0,
    current_task c = Some task0 ->
    bounded c ->
    exists task1,
      current_task (record_all entries c) = Some task1 /\
      current_step task1 = current_step task0 + Z.of_nat (List.length entries) /\
      task_description task1 = task_description task0 /\
      goal task1 = goal task0 /\
      constraints task1 = constraints task0 /\
      system_context (record_all entries c) = system_context c /\
      maxlen (record_all entries c) = maxlen c /\
      List.length (action_history (record_all entries c))
      = Nat.min (List.length (action_history c) + List.length entries) (maxlen c).
Proof.
  induction entries as [|[[[[a_type a_desc] result] ps] now] entries IH];
    intros c task0 Htask Hb.
  - exists task0. simpl. repeat split; try assumption; try lia.
    unfold bounded in Hb. lia.
  - cbn [record_all fold_left].
    fold (record_all entries (fst (add_action a_type a_desc result ps now c))).
    destruct (add_action_within_capacity a_type a_desc result ps now c Hb)
      as (Hb' & Hmax & Hlen & _).
    set (c1 := fst (add_action a_type a_desc result ps now c)) in *.
    assert (Hstep : exists task',
               current_task c1 = Some task' /\
               current_step task' = current_step task0 + 1 /\
               task_description task' = task_description task0 /\
               goal task' = goal task0 /\ constraints task' = constraints task0 /\
               system_context c1 = system_context c).
    { subst c1. unfold add_action. rewrite Htask.
      destruct (method_get result "success" PNone); simpl;
        eexists; repeat split. }
    destruct Hstep as (task' & Ht' & Hs' & Hd' & Hg' & Hc' & Hsys').
    destruct (IH c1 task' Ht' Hb')
      as (task1 & Ht1 & Hs1 & Hd1 & Hg1 & Hc1 & Hsys1 & Hmax1 & Hlen1).
    exists task1. split; [exact Ht1|].
    split; [rewrite Hs1, Hs'; cbn [List.length]; lia|].
    split; [congruence|]. split; [congruence|]. split; [congruence|].
    split; [congruence|]. split; [congruence|].
    rewrite Hlen1, Hlen, Hmax. cbn [List.length]. unfold bounded in Hb. lia.
Qed.

(** X4.  After [start_new_task], the step counter of the task counts the
    actions recorded since, whatever their results are and also beyond the
    capacity of the history, while the history holds the most recent ones up
    to its capacity.  The system context is left as it was. *)
Theorem task_step_counts_actions :
  forall (task goal : string) (constraints : list string) (now : string)
         (c : t)
         (entries : list (pyval * pyval * pyval * World.PageState * string)),
    let c' := record_all entries (start_new_task task goal constraints now c) in
    exists t1,
      current_task c' = Some t1 /\
      current_step t1 = Z.of_nat (List.length entries) /\
      task_description t1 = task /\
      List.length (action_history c')
      = Nat.min (List.length entries) (maxlen c) /\
      system_context c' = system_context c.
Proof.
  intros task goal constraints now c entries c'. subst c'.
  destruct (record_all_counts entries
              (start_new_task task goal constraints now c)
              (mkTaskContext task now 0 goal constraints "") eq_refl)
    as (t1 & Ht1 & Hs1 & Hd1 & _ & _ & Hsys & _ & Hlen).
  - unfold bounded. simpl. lia.
  - exists t1. split; [exact Ht1|]. split; [rewrite Hs1; simpl; lia|].
    split; [exact Hd1|]. split; [exact Hlen|exact Hsys].
Qed.

End History.

(** ** The episodic memory *)

Section Patterns.
Import EpisodicMemory.

(** [table.get(pattern, 0)] *)
Fixpoint count_of (p : string) (table : list (string * Z)) : Z :=
  match table with
  | [] => 0
  | (k, n) :: rest => if String.eqb p k then n else count_of p rest
  end.

Lemma count_of_count_pattern :
  forall p q table,
    count_of p (count_pattern q table)
    = count_of p table + (if String.eqb p q then 1 else 0).
Proof.
  intros p q table; induction table as [|[k n] table IH]; simpl.
  - destruct (String.eqb p q); lia.
  - destruct (String.eqb_spec q k) as [->|Hqk]; simpl.
    + destruct (String.eqb p k); lia.
    + destruct (String.eqb_spec p k) as [->|Hpk].
      * destruct (String.eqb_spec k q) as [->|_]; [contradiction|lia].
      * exact IH.
Qed.

Lemma count_pattern_keys :
  forall q table k,
    In k (map fst (count_pattern q table)) <-> k = q \/ In k (map fst table).
Proof.
  intros q table k; induction table as [|[k' n] table IH]; simpl.
  - intuition.
  - destruct (String.eqb_spec q k') as [->|Hqk]; simpl; intuition.
Qed.

Lemma count_pattern_nodup :
  forall q table,
    NoDup (map fst table) -> NoDup (map fst (count_pattern q table)).
Proof.
  intros q table; induction table as [|[k n] table IH]; simpl; intros Hnd.
  - constructor; [intros []|constructor].
  - inversion Hnd as [|? ? Hnotin Hnd']; subst.
    destruct (String.eqb_spec q k) as [->|Hqk]; simpl.
    + constructor; assumption.
    + constructor; [|apply IH; exact Hnd'].
      intros Hin. apply count_pattern_keys in Hin. destruct Hin as [->|Hin];
        [contradiction Hqk; reflexivity|contradiction].
Qed.

Lemma count_pattern_positive :
  forall q table,
    Forall (fun kv => 0 < snd kv) table ->
    Forall (fun kv => 0 < snd kv) (count_pattern q table).
Proof.
  intros q table; induction table as [|[k n] table IH]; simpl; intros Hall.
  - constructor; [simpl; lia|constructor].
  - inversion Hall as [|? ? Hn Hrest]; subst. simpl in Hn.
    destruct (String.eqb q k).
    + constructor; [simpl; lia|exact Hrest].
    + constructor; [exact Hn|apply IH; exact Hrest].
Qed.

(** The table after each pattern of [l] has been counted *)
Definition count_all (l : list string) (table : list (string * Z))
  : list (string * Z) :=
  fold_left (fun freq pattern => count_pattern pattern freq) l table.

Lemma count_all_count :
  forall l table p,
    count_of p (count_all l table)
    = count_of p table + Z.of_nat (count_occ string_dec l p).
Proof.
  induction l as [|q l IH]; intros table p; simpl.
  - lia.
  - unfold count_all in *. simpl. rewrite IH, count_of_count_pattern.
    destruct (string_dec q p) as [->|Hqp].
    + rewrite String.eqb_refl. lia.
    + destruct (String.eqb_spec p q) as [->|_]; [contradiction Hqp; reflexivity|].
      lia.
Qed.

Lemma count_all_keys :
  forall l table k,
    In k (map fst (count_all l table)) <-> In k l \/ In k (map fst table).
Proof.
  induction l as [|q l IH]; intros table k; unfold count_all in *; simpl.
  - intuition.
  - rewrite IH, count_pattern_keys. intuition.
Qed.

Lemma count_all_nodup :
  forall l table,
    NoDup (map fst table) -> NoDup (map fst (count_all l table)).
Proof.
  induction l as [|q l IH]; intros table Hnd; unfold count_all in *; simpl.
  - exact Hnd.
  - apply IH, count_pattern_nodup, Hnd.
Qed.

Lemma count_all_positive :
  forall l table,
    Forall (fun kv => 0 < snd kv) table ->
    Forall (fun kv => 0 < snd kv) (count_all l table).
Proof.
  induction l as [|q l IH]; intros table Hall; unfold count_all in *; simpl.
  - exact Hall.
  - apply IH, count_pattern_positive, Hall.
Qed.

Lemma count_of_in :
  forall table k n,
    NoDup (map fst table) -> In (k, n) table -> count_of k table = n.
Proof.
  induction table as [|[k' n'] table IH]; intros k n Hnd Hin; simpl.
  - contradiction.
  - inversion Hnd as [|? ? Hnotin Hnd']; subst.
    destruct Hin as [Heq|Hin].
    + inversion Heq; subst. rewrite String.eqb_refl. reflexivity.
    + destruct (String.eqb_spec k k') as [->|_].
      * exfalso. apply Hnotin. apply in_map_iff. exists (k', n). auto.
      * apply IH; assumption.
Qed.

(** [list(set(l))] has no repetitions and the elements of [l]. *)
Lemma dedup_in : forall l x, In x (dedup l) <-> In x l.
Proof.
  induction l as [|y l IH]; intros x; simpl; [tauto|].
  rewrite filter_In, IH.
  destruct (String.eqb_spec y x) as [->|Hyx]; simpl; intuition congruence.
Qed.

Lemma dedup_nodup : forall l, NoDup (dedup l).
Proof.
  induction l as [|y l IH]; simpl; constructor.
  - intros Hin. apply filter_In in Hin. destruct Hin as [_ Hne].
    rewrite String.eqb_refl in Hne. discriminate.
  - apply NoDup_filter. exact IH.
Qed.

Lemma dedup_length : forall l, (List.length (dedup l) <= List.length l)%nat.
Proof.
  induction l as [|y l IH]; simpl; [lia|].
  pose proof (List.filter_length_le (fun z => negb (String.eqb y z)) (dedup l)).
  lia.
Qed.

End Patterns.

Section PatternTable.
Context {J : Json.Codec} {Hh : Hashlib}.
Import EpisodicMemory.

(** The episode has learned the pattern. *)
Definition learned_by (p : string) (ep : Episode) : bool :=
  existsb (String.eqb p) (learned_patterns ep).

(** The number of stored episodes that have learned the pattern *)
Definition occurrences (p : string) (eps : list Episode) : Z :=
  Z.of_nat (List.length (filter (learned_by p) eps)).

(** The table counts, for every pattern, the episodes that learned it. *)
Definition consistent (m : t) : Prop :=
  forall p, count_of p (patterns m) = occurrences p (episodes m).

Lemma learned_by_in :
  forall p ep, learned_by p ep = true <-> In p (learned_patterns ep).
Proof.
  intros p ep. unfold learned_by. rewrite existsb_exists. split.
  - intros (x & Hin & Heq). apply String.eqb_eq in Heq. subst. exact Hin.
  - intros Hin. exists p. split; [exact Hin|apply String.eqb_refl].
Qed.

Lemma extract_patterns_nodup :
  forall actions learned,
    _extract_patterns actions = Ok learned -> NoDup learned.
Proof.
  intros actions learned Hex. unfold _extract_patterns in Hex.
  destruct (all_pair_patterns actions) as [ps|e]; [|discriminate].
  inversion Hex; subst. apply dedup_nodup.
Qed.

Lemma count_occ_nodup :
  forall (l : list string) p,
    NoDup l ->
    Z.of_nat (count_occ string_dec l p)
    = if existsb (String.eqb p) l then 1 else 0.
Proof.
  intros l p Hnd.
  pose proof (proj1 (List.NoDup_count_occ string_dec l) Hnd p) as Hle.
  destruct (existsb (String.eqb p) l) eqn:Hex.
  - apply existsb_exists in Hex. destruct Hex as (x & Hin & Heq).
    apply String.eqb_eq in Heq. subst x.
    apply (List.count_occ_In string_dec) in Hin. lia.
  - assert (Hnot : ~ In p l).
    { intros Hin. assert (Ht : existsb (String.eqb p) l = true).
      { apply existsb_exists. exists p. split; [exact Hin|apply String.eqb_refl]. }
      congruence. }
    apply (List.count_occ_not_In string_dec) in Hnot. lia.
Qed.

Lemma occurrences_app :
  forall p eps ep,
    occurrences p (eps ++ [ep])
    = occurrences p eps + (if learned_by p ep then 1 else 0).
Proof.
  intros p eps ep. unfold occurrences.
  rewrite List.filter_app, List.length_app. cbn [filter].
  destruct (learned_by p ep); cbn [List.length]; lia.
Qed.

(** X5.  The pattern table stays derivable from the stored episodes: it is
    so in the empty memory, and [add_episode] keeps it so, whether it
    stores the episode or raises: every count is the number of episodes
    that learned the pattern.  Hence a pattern with a positive count was
    learned by a stored episode. *)
Theorem pattern_table_consistent :
  consistent empty /\
  (forall (url title page_type : string) (actions : list pyval)
          (success : bool) (now : string) (m : t) (fs : FS),
      consistent m ->
      consistent
        (fst (fst (add_episode url title page_type actions success now m fs)))) /\
  (forall (m : t) (p : string),
      consistent m -> 0 < count_of p (patterns m) ->
      exists ep, In ep (episodes m) /\ In p (learned_patterns ep)).
Proof.
  split; [|split].
  - intros p. reflexivity.
  - intros url title page_type actions success now m fs Hm.
    unfold add_episode.
    destruct (_extract_patterns actions) as [learned|e] eqn:Hex; [|exact Hm].
    cbn [fst]. intros p. cbn [patterns episodes].
    change (fold_left (fun ps p0 => count_pattern p0 ps) learned (patterns m))
      with (count_all learned (patterns m)).
    rewrite count_all_count, (Hm p).
    rewrite (count_occ_nodup learned p (extract_patterns_nodup _ _ Hex)).
    rewrite occurrences_app. unfold learned_by. cbn [learned_patterns].
    fold (learned_by p). destruct (existsb (String.eqb p) learned); lia.
  - intros m p Hm Hpos. rewrite (Hm p) in Hpos. unfold occurrences in Hpos.
    destruct (filter (learned_by p) (episodes m)) as [|ep rest] eqn:Hf;
      [simpl in Hpos; lia|].
    assert (Hin : In ep (filter (learned_by p) (episodes m)))
      by (rewrite Hf; left; reflexivity).
    apply filter_In in Hin. destruct Hin as [Hin Hl].
    exists ep. split; [exact Hin|apply learned_by_in; exact Hl].
Qed.

(** The three tags [_extract_patterns] adds besides the pairs *)
Definition special_patterns : list string :=
  ["login_sequence"; "search_sequence"; "click_then_type"].

(** The pattern of two consecutive actions *)
Definition pair_pattern (action1 action2 : pyval) (p : string) : Prop :=
  exists t1 t2,
    method_get action1 "action_type" PNone = Ok t1 /\
    method_get action2 "action_type" PNone = Ok t2 /\
    p = to_str t1 ++ " -> " ++ to_str t2.

Lemma pair_patterns_inv :
  forall action1 action2 l,
    pair_patterns action1 action2 = Ok l ->
    exists p rest,
      l = p :: rest /\ pair_pattern action1 action2 p /\
      (List.length rest <= 3)%nat /\
      Forall (fun q => In q special_patterns) rest.
Proof.
  intros action1 action2 l Hl. unfold pair_patterns in Hl.
  destruct (method_get action1 "action_type" PNone) as [t1|] eqn:H1;
    [|discriminate].
  destruct (method_get action2 "action_type" PNone) as [t2|] eqn:H2;
    [|discriminate].
  cbn [bind] in Hl.
  destruct (method_get action1 "action_description" (PStr "")) as [d1|];
    [|discriminate].
  cbn [bind] in Hl.
  destruct (method_lower d1) as [low|]; [|discriminate]. cbn [bind] in Hl.
  destruct (method_get action1 "action_type" (PStr "")) as [ty1|];
    [|discriminate].
  cbn [bind] in Hl.
  destruct (contains_str "click" ty1) as [is_click|]; [|discriminate].
  cbn [bind] in Hl.
  assert (Hspecial : forall is_type : bool,
             Forall (fun q => In q special_patterns)
               ((if str_contains "login" low then ["login_sequence"] else [])
                ++ (if str_contains "search" low then ["search_sequence"] else [])
                ++ (if is_type then ["click_then_type"] else []))%list /\
             (List.length
                ((if str_contains "login" low then ["login_sequence"] else [])
                 ++ (if str_contains "search" low then ["search_sequence"] else [])
                 ++ (if is_type then ["click_then_type"] else []))%list <= 3)%nat).
  { intros is_type.
    destruct (str_contains "login" low), (str_contains "search" low), is_type;
      (split; [|simpl; lia]); rewrite Forall_forall; intros q Hq;
      unfold special_patterns; simpl in Hq |- *; tauto. }
  destruct is_click.
  - destruct (method_get action2 "action_type" (PStr "")) as [ty2|];
      [|discriminate].
    cbn [bind] in Hl.
    destruct (contains_str "type" ty2) as [is_type|]; [|discriminate].
    cbn [bind] in Hl. inversion Hl; subst. clear Hl.
    do 2 eexists. split; [reflexivity|]. split; [exists t1, t2; auto|].
    destruct (Hspecial is_type) as [Hs Hlen]. split; assumption.
  - cbn [bind] in Hl. inversion Hl; subst. clear Hl.
    do 2 eexists. split; [reflexivity|]. split; [exists t1, t2; auto|].
    destruct (Hspecial false) as [Hs Hlen]. split; assumption.
Qed.

Lemma all_pair_patterns_spec :
  forall acts l,
    all_pair_patterns acts = Ok l ->
    (List.length l <= 4 * (List.length acts - 1))%nat /\
    (forall before a1 a2 after p,
        acts = (before ++ a1 :: a2 :: after)%list ->
        pair_pattern a1 a2 p -> In p l) /\
    (forall p, In p l ->
       In p special_patterns \/
       exists before a1 a2 after,
         acts = (before ++ a1 :: a2 :: after)%list /\ pair_pattern a1 a2 p).
Proof.
  induction acts as [|a1 acts IH]; intros l Hl.
  - inversion Hl; subst. split; [simpl; lia|]. split.
    + intros before a1 a2 after p Heq. destruct before; discriminate.
    + intros p [].
  - destruct acts as [|a2 acts].
    + inversion Hl; subst. split; [simpl; lia|]. split.
      * intros before b1 b2 after p Heq.
        destruct before as [|x [|y before]]; discriminate.
      * intros p [].
    + change (all_pair_patterns (a1 :: a2 :: acts))
        with (ps <- pair_patterns a1 a2 ;;
              more <- all_pair_patterns (a2 :: acts) ;;
              Ok (ps ++ more)%list) in Hl.
      destruct (pair_patterns a1 a2) as [ps|] eqn:Hps; [|discriminate].
      cbn [bind] in Hl.
      destruct (all_pair_patterns (a2 :: acts)) as [more|] eqn:Hmore;
        [|discriminate].
      cbn [bind] in Hl. inversion Hl; subst. clear Hl.
      destruct (IH more eq_refl) as (Hlen & Hpairs & Hall).
      destruct (pair_patterns_inv _ _ _ Hps)
        as (p0 & rest & -> & Hp0 & Hrest & Hspecial).
      split; [rewrite List.length_app; cbn [List.length] in *; lia|]. split.
      * intros before b1 b2 after p Heq Hp. apply in_or_app.
        destruct before as [|x before].
        -- simpl in Heq. inversion Heq; subst. left. left.
           destruct Hp0 as (t1 & t2 & H1 & H2 & ->).
           destruct Hp as (u1 & u2 & G1 & G2 & ->). congruence.
        -- simpl in Heq. injection Heq as _ Htail. right.
           eapply Hpairs; [exact Htail|exact Hp].
      * intros p Hin. apply in_app_or in Hin. destruct Hin as [[<-|Hin]|Hin].
        -- right. exists [], a1, a2, acts. split; [reflexivity|exact Hp0].
        -- left. rewrite Forall_forall in Hspecial. apply Hspecial, Hin.
        -- destruct (Hall p Hin) as [Hs|(before & b1 & b2 & after & Heq & Hp)];
             [left; exact Hs|].
           right. exists (a1 :: before), b1, b2, after.
           split; [simpl; rewrite Heq; reflexivity|exact Hp].
Qed.

(** X6.  The patterns extracted from a list of actions have no
    repetitions; fewer than two actions give none, and [n] actions at most
    [4 (n - 1)].  Every pair of consecutive actions contributes its
    pattern [type1 -> type2], and every extracted pattern is such a pair
    or one of the three tags [login_sequence], [search_sequence] and
    [click_then_type]. *)
Theorem extract_patterns_pairs :
  forall (actions : list pyval) (learned : list string),
    _extract_patterns actions = Ok learned ->
    NoDup learned /\
    (List.length learned <= 4 * (List.length actions - 1))%nat /\
    ((List.length actions < 2)%nat -> learned = []) /\
    (forall before a1 a2 after p,
        actions = (before ++ a1 :: a2 :: after)%list ->
        pair_pattern a1 a2 p -> In p learned) /\
    (forall p, In p learned ->
       In p special_patterns \/
       exists before a1 a2 after,
         actions = (before ++ a1 :: a2 :: after)%list /\ pair_pattern a1 a2 p).
Proof.
  intros actions learned Hex.
  pose proof (extract_patterns_nodup _ _ Hex) as Hnd.
  unfold _extract_patterns in Hex.
  destruct (all_pair_patterns actions) as [ps|e] eqn:Hps; [|discriminate].
  inversion Hex; subst. clear Hex.
  destruct (all_pair_patterns_spec _ _ Hps) as (Hlen & Hpairs & Hall).
  split; [exact Hnd|].
  split; [pose proof (dedup_length ps); lia|].
  split.
  { intros Hshort. assert (Hz : List.length (dedup ps) = 0%nat)
      by (pose proof (dedup_length ps); lia).
    destruct (dedup ps); [reflexivity|discriminate]. }
  split.
  - intros before a1 a2 after p Heq Hp. apply dedup_in.
    eapply Hpairs; eassumption.
  - intros p Hin. apply Hall, dedup_in, Hin.
Qed.

Definition login_then_type : list pyval :=
  [ PDict [ ("action_type", PStr "click");
            ("action_description", PStr "Open the Login form");
            ("result", PDict [("success", PBool true)]) ];
    PDict [ ("action_type", PStr "type");
            ("action_description", PStr "Enter the name");
            ("result", PDict [("success", PBool true)]) ] ].

Lemma extract_patterns_pairs_witness :
  let learned := ["click -> type"; "login_sequence"; "click_then_type"] in
  NoDup learned /\
  (List.length learned <= 4 * (List.length login_then_type - 1))%nat /\
  ((List.length login_then_type < 2)%nat -> learned = []) /\
  (forall before a1 a2 after p,
      login_then_type = (before ++ a1 :: a2 :: after)%list ->
      pair_pattern a1 a2 p -> In p learned) /\
  (forall p, In p learned ->
     In p special_patterns \/
     exists before a1 a2 after,
       login_then_type = (before ++ a1 :: a2 :: after)%list /\
       pair_pattern a1 a2 p).
Proof.
  apply (extract_patterns_pairs login_then_type
           ["click -> type"; "login_sequence"; "click_then_type"]).
  vm_compute. reflexivity.
Defined.

End PatternTable.

Section Persistence.
Context {J : Json.Codec} {Hh : Hashlib}.
Import EpisodicMemory.

(** What [load] reads from the file [save] has written *)
Lemma load_body_save :
  forall (m : t) (fs : FS),
    fs_writable fs = true ->
    Json.loads (Json.dumps (snapshot m)) = Some (snapshot m) ->
    load_body (save m fs) = Ok m.
Proof.
  intros m fs Hw Hrt. unfold save, load_body. rewrite Hw.
  cbn [fs_file]. rewrite Hrt. unfold snapshot.
  cbn -[map_res patterns_of_py patterns_to_py to_dict Episode_of_kwargs].
  rewrite (map_res_map to_dict Episode_of_kwargs) by apply Episode_of_to_dict.
  cbn -[patterns_of_py patterns_to_py].
  rewrite patterns_of_to_py. destruct m; reflexivity.
Qed.

(** X7.  An episode that [add_episode] has stored is on file at once: the
    memory a new [EpisodicMemory()] reads from the file is the memory
    [add_episode] has left, whose last episode is the one returned, with the
    given page, actions and outcome and the time of the call. *)
Theorem add_episode_persists :
  forall (url title page_type : string) (actions : list pyval)
         (success : bool) (now : string) (m m' : t) (fs fs' : FS)
         (ep : Episode),
    fs_writable fs = true ->
    add_episode url title page_type actions success now m fs = (m', fs', Ok ep) ->
    Json.loads (Json.dumps (snapshot m')) = Some (snapshot m') ->
    init fs' = m' /\
    episodes m' = (episodes m ++ [ep])%list /\
    EpisodicMemory.url ep = url /\ EpisodicMemory.title ep = title /\
    EpisodicMemory.page_type ep = page_type /\
    EpisodicMemory.actions ep = actions /\
    EpisodicMemory.success ep = success /\
    EpisodicMemory.timestamp ep = now /\
    _extract_patterns actions = Ok (learned_patterns ep) /\
    fs_writable fs' = true.
Proof.
  intros url title page_type actions success now m m' fs fs' ep Hw Hadd Hrt.
  unfold add_episode in Hadd.
  destruct (_extract_patterns actions) as [learned|e] eqn:Hex; [|discriminate].
  inversion Hadd; subst. clear Hadd.
  split.
  - unfold init, load. rewrite (load_body_save _ fs Hw Hrt). reflexivity.
  - repeat split. unfold save. rewrite Hw. reflexivity.
Qed.

End Persistence.

Lemma add_episode_persists_witness :
  let stored :=
    EpisodicMemory.add_episode (J := ref_codec) (H := toy_hashlib)
      "https://example.org/login" "Login" "login" login_then_type true
      "2024-03-01T12:00:00" EpisodicMemory.empty (mkFS Absent true) in
  EpisodicMemory.init (J := ref_codec) (snd (fst stored)) = fst (fst stored) /\
  List.length (EpisodicMemory.episodes (fst (fst stored))) = 1%nat.
Proof.
  destruct (EpisodicMemory.add_episode (J := ref_codec) (H := toy_hashlib)
      "https://example.org/login" "Login" "login" login_then_type true
      "2024-03-01T12:00:00" EpisodicMemory.empty (mkFS Absent true))
    as [[m' fs'] [ep|e]] eqn:Hadd; [|vm_compute in Hadd; discriminate].
  destruct (add_episode_persists (J := ref_codec) (Hh := toy_hashlib)
              "https://example.org/login" "Login" "login" login_then_type true
              "2024-03-01T12:00:00" EpisodicMemory.empty m' (mkFS Absent true)
              fs' ep eq_refl Hadd)
    as (Hinit & Heps & _).
  - vm_compute in Hadd. inversion Hadd; subst. vm_compute. reflexivity.
  - cbn [fst snd]. split; [exact Hinit|]. rewrite Heps. reflexivity.
Defined.

Section Advice.
Import EpisodicMemory.

Lemma insert_desc_not_nil :
  forall {A} (x : Z * A) l, insert_desc x l <> [].
Proof.
  intros A x l. destruct l as [|y l]; simpl; [discriminate|].
  destruct (fst x <? fst y); discriminate.
Qed.

Lemma sort_desc_nil :
  forall {A} (l : list (Z * A)), sort_desc l = [] -> l = [].
Proof.
  intros A l Hs. destruct l as [|x l]; [reflexivity|].
  simpl in Hs. exfalso. exact (insert_desc_not_nil _ _ Hs).
Qed.

Lemma slice_to_nil :
  forall {A} (stop : Z) (l : list A),
    0 < stop -> slice_to stop l = [] -> l = [].
Proof.
  intros A stop l Hpos Hs. unfold slice_to in Hs.
  destruct (Z.ltb_spec stop 0) as [Hneg|_]; [lia|].
  destruct l as [|x l]; [reflexivity|].
  assert (Hn : (0 < Z.to_nat (Z.min stop (Z.of_nat (List.length (x :: l)))))%nat)
    by (cbn [List.length]; lia).
  destruct (Z.to_nat (Z.min stop (Z.of_nat (List.length (x :: l)))));
    [lia|discriminate Hs].
Qed.

(** No stored episode speaks for the page type: none has it, and none
    succeeded. *)
Definition nothing_similar (page_type : string) (m : t) : bool :=
  forallb
    (fun ep => negb (page_type_matches (Some page_type) ep) && negb (success ep))
    (episodes m).

Lemma find_similar_nil_iff :
  forall page_type m,
    find_similar_episodes None (Some page_type) 5 m = []
    <-> nothing_similar page_type m = true.
Proof.
  intros page_type m. unfold find_similar_episodes, nothing_similar.
  unfold scored_episodes. split.
  - intros Hnil. apply map_eq_nil in Hnil.
    apply slice_to_nil in Hnil; [|lia]. apply sort_desc_nil in Hnil.
    apply forallb_forall. intros ep Hin.
    destruct (page_type_matches (Some page_type) ep) eqn:Hp;
      destruct (success ep) eqn:Hs; try reflexivity; exfalso;
      (assert (Hmem : In (score None (Some page_type) ep, ep)
                        (filter (fun se => 0 <? fst se)
                           (map (fun ep0 => (score None (Some page_type) ep0, ep0))
                                (episodes m))));
       [apply filter_In; split;
        [apply in_map_iff; exists ep; auto
        |unfold score; cbn [fst url_matches]; rewrite Hp, Hs; reflexivity]
       |rewrite Hnil in Hmem; exact Hmem]).
  - intros Hall. rewrite forallb_forall in Hall.
    replace (filter (fun se => 0 <? fst se)
               (map (fun ep => (score None (Some page_type) ep, ep)) (episodes m)))
      with (@nil (Z * Episode)); [reflexivity|].
    symmetry. induction (episodes m) as [|ep eps IH]; [reflexivity|].
    cbn [map filter]. pose proof (Hall ep (or_introl eq_refl)) as Hep.
    apply andb_true_iff in Hep. destruct Hep as [Hp Hs].
    apply negb_true_iff in Hp, Hs.
    unfold score at 1. cbn [fst url_matches]. rewrite Hp, Hs. cbn.
    apply IH. intros x Hx. apply Hall. right. exact Hx.
Qed.

(** X8.  [get_advice] returns the empty text exactly when no stored
    episode has the page type of the current page and none succeeded;
    otherwise its text, if it returns one, begins with the heading of the
    advice. *)
Theorem get_advice_empty_iff :
  forall (current_state : PageState) (m : t),
    (get_advice current_state m = Ok ""
     <-> nothing_similar (World.page_type current_state) m = true) /\
    (forall text,
        get_advice current_state m = Ok text -> text <> "" ->
        String.prefix "=== СОВЕТЫ ИЗ ПРОШЛОГО ОПЫТА ===" text = true).
Proof.
  intros current_state m. unfold get_advice.
  pose proof (find_similar_nil_iff (World.page_type current_state) m) as Hiff.
  destruct (find_similar_episodes None (Some (World.page_type current_state)) 5 m)
    as [|ep similar] eqn:Hsim.
  - split.
    + split; [intros _; apply Hiff; reflexivity|reflexivity].
    + intros text Ht Hne. inversion Ht; subst. contradiction.
  - assert (Hhead : forall parts,
               String.prefix "=== СОВЕТЫ ИЗ ПРОШЛОГО ОПЫТА ==="
                 (join nl ("=== СОВЕТЫ ИЗ ПРОШЛОГО ОПЫТА ===" :: parts)) = true).
    { intros parts. unfold join. destruct parts as [|p parts].
      - reflexivity.
      - cbn [String.concat]. vm_compute. reflexivity. }
    destruct (advice_parts 1 (slice_to 3 (ep :: similar))) as [parts|e];
      cbn [bind].
    + split.
      * split.
        -- intros Heq. pose proof (Hhead parts) as Hp.
           assert (Hj : join nl ("=== СОВЕТЫ ИЗ ПРОШЛОГО ОПЫТА ===" :: parts) = "")
             by congruence.
           rewrite Hj in Hp. discriminate Hp.
        -- intros Hn. apply Hiff in Hn. discriminate Hn.
      * intros text Ht _. inversion Ht; subst. apply Hhead.
    + split.
      * split; [discriminate|].
        intros Hn. apply Hiff in Hn. discriminate Hn.
      * intros text Ht. discriminate Ht.
Qed.

End Advice.

Section PageTypePatterns.
Import EpisodicMemory.

Lemma slice_to_firstn :
  forall {A} (stop : Z) (l : list A),
    0 <= stop -> slice_to stop l = firstn (Z.to_nat stop) l.
Proof.
  intros A stop l Hpos. unfold slice_to.
  destruct (Z.ltb_spec stop 0) as [Hneg|_]; [lia|].
  destruct (Z.min_spec stop (Z.of_nat (List.length l))) as [[_ ->]|[Hge ->]].
  - reflexivity.
  - rewrite Nat2Z.id, List.firstn_all. symmetry. apply List.firstn_all2. lia.
Qed.

Lemma nodup_firstn :
  forall {A} (n : nat) (l : list A), NoDup l -> NoDup (firstn n l).
Proof.
  intros A n l Hnd. rewrite <- (List.firstn_skipn n l) in Hnd.
  apply NoDup_app_remove_r in Hnd. exact Hnd.
Qed.

Lemma firstn_in :
  forall {A} (n : nat) (l : list A) x, In x (firstn n l) -> In x l.
Proof.
  intros A n l x Hin. rewrite <- (List.firstn_skipn n l).
  apply in_or_app. left. exact Hin.
Qed.

Lemma relevant_patterns_in :
  forall page_type m p,
    In p (relevant_patterns page_type m) <->
    exists ep, In ep (episodes m) /\ EpisodicMemory.page_type ep = page_type /\
               success ep = true /\ In p (learned_patterns ep).
Proof.
  intros page_type m p. unfold relevant_patterns. rewrite in_flat_map. split.
  - intros (ep & Hin & Hp). exists ep. split; [exact Hin|].
    destruct (String.eqb_spec (EpisodicMemory.page_type ep) page_type) as [Heq|];
      [|contradiction].
    destruct (success ep); [auto|contradiction].
  - intros (ep & Hin & Heq & Hs & Hp). exists ep. split; [exact Hin|].
    rewrite Heq, String.eqb_refl, Hs. exact Hp.
Qed.

(** X9.  [get_patterns_for_page_type] returns at most ten patterns, none
    twice, each learned by a successful episode of the page type.  They
    are the first ten of a ranking that holds every such pattern once, with
    the number of times the episodes of the type learned it, in descending
    order of that number. *)
Theorem patterns_for_page_type_ranked :
  forall (page_type : string) (m : t),
    let found := get_patterns_for_page_type page_type m in
    let relevant := relevant_patterns page_type m in
    (List.length found <= 10)%nat /\
    NoDup found /\
    (forall p, In p found ->
       exists ep, In ep (episodes m) /\
                  EpisodicMemory.page_type ep = page_type /\
                  success ep = true /\ In p (learned_patterns ep)) /\
    exists ranked : list (Z * string),
      found = map snd (firstn 10 ranked) /\
      StronglySorted (fun x y => fst y <= fst x) ranked /\
      NoDup (map snd ranked) /\
      (forall n p,
          In (n, p) ranked <->
          In p relevant /\ n = Z.of_nat (count_occ string_dec relevant p)).
Proof.
  intros page_type m found relevant.
  set (freq := count_all relevant []).
  set (swapped := map (fun item : string * Z => (snd item, fst item)) freq).
  assert (Hfound : found = map snd (firstn 10 (sort_desc swapped))).
  { subst found. unfold get_patterns_for_page_type.
    fold relevant. fold (count_all relevant []). fold freq. fold swapped.
    rewrite slice_to_firstn by lia. reflexivity. }
  assert (Hkeys : NoDup (map fst freq))
    by (apply count_all_nodup; constructor).
  assert (Hsnd : map snd swapped = map fst freq).
  { subst swapped. rewrite List.map_map. reflexivity. }
  pose proof (sort_desc_perm _ swapped) as Hperm.
  assert (Hnd : NoDup (map snd (sort_desc swapped))).
  { eapply Permutation_NoDup; [apply Permutation_map; exact Hperm|].
    rewrite Hsnd. exact Hkeys. }
  assert (Hmem : forall n p,
             In (n, p) (sort_desc swapped) <->
             In p relevant /\ n = Z.of_nat (count_occ string_dec relevant p)).
  { intros n p.
    assert (Hcount : count_of p freq = Z.of_nat (count_occ string_dec relevant p)).
    { subst freq. rewrite count_all_count. reflexivity. }
    assert (Hin_freq : In (n, p) (sort_desc swapped) <-> In (p, n) freq).
    { split.
      - intros Hin. apply (Permutation_in _ (Permutation_sym Hperm)) in Hin.
        subst swapped. apply in_map_iff in Hin.
        destruct Hin as ([k v] & Heq & Hin). simpl in Heq.
        inversion Heq; subst. exact Hin.
      - intros Hin. apply (Permutation_in _ Hperm). subst swapped.
        apply in_map_iff. exists (p, n). auto. }
    rewrite Hin_freq. split.
    - intros Hin. split.
      + assert (Hk : In p (map fst freq))
          by (apply in_map_iff; exists (p, n); auto).
        subst freq. apply count_all_keys in Hk. destruct Hk as [Hk|[]]. exact Hk.
      + rewrite <- Hcount. symmetry. apply count_of_in; assumption.
    - intros [Hin ->].
      assert (Hk : In p (map fst freq))
        by (subst freq; apply count_all_keys; left; exact Hin).
      apply in_map_iff in Hk. destruct Hk as ([k v] & Heq & Hkv).
      simpl in Heq. subst k.
      rewrite <- Hcount, (count_of_in _ _ _ Hkeys Hkv). exact Hkv. }
  split.
  { rewrite Hfound, List.length_map. apply List.firstn_le_length. }
  split.
  { rewrite Hfound, <- List.firstn_map. apply nodup_firstn. exact Hnd. }
  split.
  { intros p Hin. rewrite Hfound in Hin. apply in_map_iff in Hin.
    destruct Hin as ([n q] & Heq & Hin). simpl in Heq. subst q.
    apply firstn_in in Hin. apply Hmem in Hin. destruct Hin as [Hin _].
    apply relevant_patterns_in. exact Hin. }
  exists (sort_desc swapped).
  split; [exact Hfound|]. split; [apply sort_desc_sorted|].
  split; [exact Hnd|exact Hmem].
Qed.

End PageTypePatterns.

(** ** The reflection pattern *)

Section Reflection.
Import ReflectionPattern.

Lemma grow_keeps_one :
  forall (c : Q), (1 <= c)%Q -> (1 <= c * (11 # 10))%Q.
Proof.
  intros [a b] Hc. unfold Qle, Qmult in *. simpl in *.
  rewrite Pos2Z.inj_mul. lia.
Qed.

Lemma certainty_keeps_one :
  forall (text : string) (words : list string) (c : Q),
    (1 <= c)%Q ->
    (1 <= fold_left
            (fun c w => if str_contains w text then (c * (11 # 10))%Q else c)
            words c)%Q.
Proof.
  intros text words; induction words as [|w words IH]; intros c Hc; simpl.
  - exact Hc.
  - apply IH. destruct (str_contains w text); [apply grow_keeps_one|]; exact Hc.
Qed.

Lemma untouched_confidence :
  forall (text : string) (words : list string) (c : Q),
    any_contains words text = false ->
    fold_left (fun c w => if str_contains w text then (c * (9 # 10))%Q else c)
              words c = c.
Proof.
  intros text words; induction words as [|w words IH]; intros c Hnone; simpl.
  - reflexivity.
  - unfold any_contains in Hnone. simpl in Hnone.
    apply orb_false_elim in Hnone. destruct Hnone as [Hw Hrest].
    rewrite Hw. apply IH. exact Hrest.
Qed.

Lemma clamp_bounds :
  forall c : Q,
    let m := if Qle_bool 1 c then 1%Q else c in
    let r := if Qle_bool m (1 # 10) then (1 # 10)%Q else m in
    ((1 # 10) <= r)%Q /\ (r <= 1)%Q /\ ((1 <= c)%Q -> r = 1%Q).
Proof.
  intros c m r. subst r m.
  destruct (Qle_bool 1 c) eqn:H1.
  - change (Qle_bool 1 (1 # 10)) with false. cbv iota.
    repeat split; unfold Qle; simpl; lia.
  - assert (Hlt : (c < 1)%Q).
    { apply Qnot_le_lt. intros Hle. apply Qle_bool_iff in Hle. congruence. }
    destruct (Qle_bool c (1 # 10)) eqn:H2.
    + split; [unfold Qle; simpl; lia|].
      split; [unfold Qle; simpl; lia|].
      intros Hc. exfalso. apply (Qlt_not_le _ _ Hlt Hc).
    + split.
      * apply Qlt_le_weak, Qnot_le_lt. intros Hle.
        apply Qle_bool_iff in Hle. congruence.
      * split; [apply Qlt_le_weak; exact Hlt|].
        intros Hc. exfalso. apply (Qlt_not_le _ _ Hlt Hc).
Qed.

(** X10.  The confidence of an analysis always lies between 0.1 and 1.0.
    Words of certainty cannot raise it above 1.0: with at most three
    failures and no word of uncertainty in the analysis it is exactly
    1.0, however many words of certainty the analysis holds. *)
Theorem calculate_confidence_clamped :
  forall (analysis : string) (failure_count : Z),
    let confidence := _calculate_confidence analysis failure_count in
    ((1 # 10) <= confidence)%Q /\ (confidence <= 1)%Q /\
    (failure_count <= 3 ->
     any_contains ["возможно"; "может быть"; "вероятно"; "скорее всего"]
                  (lower analysis) = false ->
     confidence = 1%Q).
Proof.
  intros analysis failure_count confidence. subst confidence.
  unfold _calculate_confidence.
  match goal with
  | |- context [Qle_bool 1 ?c] => set (folded := c)
  end.
  destruct (clamp_bounds folded) as (Hlo & Hhi & Hone).
  split; [exact Hlo|]. split; [exact Hhi|].
  intros Hfew Hnone. apply Hone. subst folded.
  apply certainty_keeps_one.
  rewrite untouched_confidence by exact Hnone.
  destruct (Z.ltb_spec 3 failure_count) as [Hmany|_]; [lia|].
  unfold Qle; simpl; lia.
Qed.

Lemma split_aux_not_nil :
  forall sep s skip cur, split_aux sep s skip cur <> [].
Proof.
  intros sep s; induction s as [|c s IH]; intros skip cur; cbn [split_aux].
  - discriminate.
  - destruct skip as [|n]; [|apply IH].
    destruct (String.prefix sep (String c s)); [discriminate|apply IH].
Qed.

(** X11.  [_extract_correction_plan] always finds a plan: its last
    statement, [return None], is never reached, because splitting a text
    gives at least one paragraph.  Without a labelled section the plan is
    the last paragraph of the analysis. *)
Theorem extract_correction_plan_some :
  forall analysis : string,
    exists plan,
      _extract_correction_plan analysis = Some plan /\
      (first_section ["План"; "Рекомендации"; "Следующий шаг"; "Корректировка"]
                     analysis = None ->
       plan = strip (last_part (split (nl ++ nl) (strip analysis)))).
Proof.
  intros analysis. unfold _extract_correction_plan.
  destruct (first_section _ analysis) as [plan|].
  - exists plan. split; [reflexivity|discriminate].
  - destruct (split (nl ++ nl) (strip analysis)) as [|p ps] eqn:Hs.
    + exfalso. exact (split_aux_not_nil _ _ _ _ Hs).
    + eexists. split; reflexivity.
Qed.

Lemma calculate_confidence_bounds :
  forall analysis failure_count,
    ((1 # 10) <= _calculate_confidence analysis failure_count)%Q /\
    (_calculate_confidence analysis failure_count <= 1)%Q.
Proof.
  intros analysis failure_count. unfold _calculate_confidence.
  match goal with
  | |- context [Qle_bool 1 ?c] => destruct (clamp_bounds c) as (Hlo & Hhi & _)
  end.
  split; assumption.
Qed.

Lemma extract_correction_plan_found :
  forall analysis, exists plan, _extract_correction_plan analysis = Some plan.
Proof.
  intros analysis. unfold _extract_correction_plan.
  destruct (first_section _ analysis) as [plan|]; [eexists; reflexivity|].
  destruct (split (nl ++ nl) (strip analysis)) as [|p ps] eqn:Hs.
  - exfalso. exact (split_aux_not_nil _ _ _ _ Hs).
  - eexists. reflexivity.
Qed.

(** An entry of the history that [analyze_failure] can read: a dictionary
    whose [result], if it has one, is a dictionary *)
Definition readable (action : pyval) : bool :=
  match action with
  | PDict d =>
      match dict_get_default "result" (PDict []) d with
      | PDict _ => true
      | _ => false
      end
  | _ => false
  end.

Lemma collect_failures_readable :
  forall window,
    forallb readable window = true ->
    exists failures,
      collect_failures (map Mapping window) = Ok failures /\
      (failures = [] <-> forallb succeeded window = true).
Proof.
  induction window as [|action window IH]; intros Hall.
  - exists []. split; [reflexivity|]. split; reflexivity.
  - simpl in Hall. apply andb_true_iff in Hall. destruct Hall as [Ha Hw].
    destruct (IH Hw) as (more & Hmore & Hiff).
    destruct action as [| | | | | |d]; try discriminate Ha.
    simpl in Ha.
    destruct (dict_get_default "result" (PDict []) d) as [| | | | | |r] eqn:Hr;
      try discriminate Ha.
    cbn [map collect_failures item_get method_get bind]. rewrite Hr.
    cbn [method_get bind forallb]. unfold succeeded at 1.
    cbn [method_get]. rewrite Hr. cbn [method_get].
    destruct (truthy (dict_get_default "success" (PBool false) r)) eqn:Hok;
      cbn [negb].
    + rewrite Hmore. exists more. split; [reflexivity|]. exact Hiff.
    + rewrite Hmore. cbn [bind]. eexists. split; [reflexivity|].
      split; discriminate.
Qed.

(** X12.  On a history whose last five entries are dictionaries with
    dictionary results, [analyze_failure] never raises.  It asks the
    language model once if one of these entries failed and not at all
    otherwise; if the model fails to answer, or if no entry failed, the
    result asks for no correction, and a result that asks for one always
    carries a plan. *)
Theorem analyze_failure_returns :
  forall (E : Env) (calls : nat) (history : list pyval)
         (current_state : PageState) (task : string),
    forallb readable (slice_from (-5) history) = true ->
    exists r,
      analyze_failure E calls (map Mapping history) current_state task
      = ((if forallb succeeded (slice_from (-5) history) then calls else S calls),
         Ok r) /\
      ((1 # 10) <= confidence_score r)%Q /\ (confidence_score r <= 1)%Q /\
      (needs_correction r = true ->
       forallb succeeded (slice_from (-5) history) = false /\
       exists request analysis plan,
         llm_generate E calls request = Ok analysis /\
         correction_plan r = Some plan).
Proof.
  intros E calls history current_state task Hread.
  unfold analyze_failure. rewrite slice_from_map.
  destruct (collect_failures_readable _ Hread) as (failures & Hcol & Hiff).
  rewrite Hcol.
  destruct failures as [|f failures].
  - rewrite (proj1 Hiff eq_refl). eexists. split; [reflexivity|].
    split; [unfold Qle; simpl; lia|]. split; [unfold Qle; simpl; lia|].
    discriminate.
  - assert (Hfail : forallb succeeded (slice_from (-5) history) = false).
    { destruct (forallb succeeded (slice_from (-5) history)); [|reflexivity].
      destruct Hiff as [_ Hnil]. discriminate (Hnil eq_refl). }
    rewrite Hfail.
    match goal with
    | |- context [llm_generate E calls ?req] =>
        destruct (llm_generate E calls req) as [analysis|e] eqn:Hllm
    end.
    + eexists. split; [reflexivity|]. cbn [confidence_score correction_plan].
      destruct (calculate_confidence_bounds analysis
                  (Z.of_nat (List.length (f :: failures)))) as (Hlo & Hhi).
      split; [exact Hlo|]. split; [exact Hhi|].
      intros _. split; [reflexivity|].
      destruct (extract_correction_plan_found analysis) as (plan & Hplan).
      do 3 eexists. split; [exact Hllm|exact Hplan].
    + eexists. split; [reflexivity|].
      split; [unfold Qle; simpl; lia|]. split; [unfold Qle; simpl; lia|].
      discriminate.
Qed.

End Reflection.

Lemma analyze_failure_returns_witness :
  exists r,
    ReflectionPattern.analyze_failure
      (constant_env (Ok "Нужно выбрать другой элемент.")) 0
      (map ReflectionPattern.Mapping [done_action "press the button" false])
      sample_page "press the button"
    = (1%nat, Ok r) /\
    ((1 # 10) <= ReflectionPattern.confidence_score r)%Q.
Proof.
  destruct (analyze_failure_returns
              (constant_env (Ok "Нужно выбрать другой элемент.")) 0
              [done_action "press the button" false] sample_page
              "press the button" eq_refl)
    as (r & Hrun & Hlo & _).
  exists r. split; [exact Hrun|exact Hlo].
Defined.

(** ** The action tools *)

Section TextActions.
Import ActionTools.

(** The action types the keyword parser can return *)
Definition text_action_types : list string :=
  ["navigate"; "click"; "type"; "press_key"; "scroll"; "go_back"; "refresh"].

(** An action as the keyword parser builds it: type and description are
    strings, the parameters a dictionary of strings, the confidence 1.0,
    and the type has a browser method in [ACTION_MAPPING]. *)
Definition dispatchable (a : Action) : Prop :=
  exists t desc params name,
    a = mkAction (PStr t) (PStr desc) (PDict params) (PFloat 1) /\
    In t text_action_types /\
    mapping_lookup t ACTION_MAPPING = Some name /\
    Forall (fun kv => exists s, snd kv = PStr s) params.

Ltac built_action t :=
  unfold Action3; do 3 eexists; exists t;
  split; [reflexivity|]; split; [simpl; tauto|]; split; [reflexivity|];
  repeat constructor; cbn [snd]; eexists; reflexivity.

Lemma parse_navigation_dispatchable :
  forall text, dispatchable (_parse_navigation_action text).
Proof.
  intros text. unfold _parse_navigation_action.
  destruct (search url_pattern text); [built_action "navigate_to"|].
  destruct (search domain_pattern text); built_action "navigate_to".
Qed.

Lemma parse_key_dispatchable :
  forall text, dispatchable (_parse_key_action text).
Proof.
  intros text. unfold _parse_key_action.
  destruct (find _ key_mapping) as [[key_name key_code]|];
    built_action "press_key".
Qed.

(** X13.  Whatever action the keyword parser reads out of a text can be
    dispatched: its type is one of seven types, each with a browser method
    in [ACTION_MAPPING], so that [execute_action] never reports it as
    unknown; its parameters are a dictionary of strings and its confidence
    is 1.0. *)
Theorem text_action_dispatchable :
  forall (text : string) (a : Action),
    _extract_action_from_text text = Some a ->
    dispatchable a /\
    forall (B : Type) (getattr : string -> option (B -> dict -> B * res pyval))
           (browser : B),
      mapping_get (type a) ACTION_MAPPING <> Ok None /\
      exists r, snd (execute_action B getattr browser a) = Ok r.
Proof.
  intros text a Hex.
  assert (Hd : dispatchable a).
  { unfold _extract_action_from_text in Hex.
    repeat match type of Hex with
           | (if ?c then _ else _) = _ => destruct c
           end;
      inversion Hex; subst; clear Hex.
    - apply parse_navigation_dispatchable.
    - unfold _parse_click_action. built_action "click_element".
    - unfold _parse_type_action. built_action "type_text".
    - apply parse_key_dispatchable.
    - unfold _parse_scroll_action. built_action "scroll".
    - built_action "go_back".
    - built_action "refresh". }
  split; [exact Hd|].
  intros B getattr browser.
  destruct Hd as (t & desc & params & name & -> & _ & Hmap & _).
  unfold execute_action. cbn [type parameters mapping_get].
  rewrite Hmap. split; [discriminate|].
  destruct (getattr name) as [method|]; [|eexists; reflexivity].
  cbn [snd]. destruct (snd (call_method B method browser (PDict params)));
    eexists; reflexivity.
Qed.

Lemma text_action_dispatchable_witness :
  dispatchable (_parse_scroll_action "scroll to the bottom of the page") /\
  forall (B : Type) (getattr : string -> option (B -> dict -> B * res pyval))
         (browser : B),
    mapping_get (type (_parse_scroll_action "scroll to the bottom of the page"))
                ACTION_MAPPING <> Ok None /\
    exists r,
      snd (execute_action B getattr browser
             (_parse_scroll_action "scroll to the bottom of the page")) = Ok r.
Proof.
  apply (text_action_dispatchable "scroll to the bottom of the page").
  vm_compute. reflexivity.
Defined.

Lemma prefix_app :
  forall a b s, String.prefix (a ++ b) s = true -> String.prefix a s = true.
Proof.
  induction a as [|c a IH]; intros b s Hp; [destruct s; reflexivity|].
  destruct s as [|c' s]; [discriminate Hp|].
  simpl in *. destruct (Ascii.ascii_dec c c'); [|discriminate Hp].
  eapply IH. exact Hp.
Qed.

Lemma str_contains_app :
  forall a b s, str_contains (a ++ b) s = true -> str_contains a s = true.
Proof.
  intros a b s; induction s as [|c s IH]; intros Hc.
  - cbn [str_contains] in *. rewrite orb_false_r in *.
    eapply prefix_app. exact Hc.
  - cbn [str_contains] in *. apply orb_true_iff in Hc.
    apply orb_true_iff. destruct Hc as [Hc|Hc].
    + left. eapply prefix_app. exact Hc.
    + right. apply IH. exact Hc.
Qed.

(** X14.  The keywords are tried in a fixed order, and an earlier group
    hides a later one.  A text that says [enter] is read as an input of
    text, or as a navigation or a click if it also holds one of their
    keywords, and never as a key press; a text that says [нажми клавишу]
    holds the click keyword [нажми] and is read as a click or a navigation. *)
Theorem keyword_precedence :
  forall text : string,
    (str_contains "enter" (lower text) = true ->
     exists a t,
       _extract_action_from_text text = Some a /\ type a = PStr t /\
       In t ["navigate"; "click"; "type"]) /\
    (str_contains "нажми клавишу" (lower text) = true ->
     exists a t,
       _extract_action_from_text text = Some a /\ type a = PStr t /\
       In t ["navigate"; "click"]).
Proof.
  intros text. split.
  - intros Henter. unfold _extract_action_from_text.
    destruct (any_contains _ (lower text)).
    + do 2 eexists. split; [reflexivity|].
      unfold _parse_navigation_action.
      destruct (search url_pattern text);
        [|destruct (search domain_pattern text)];
        (split; [reflexivity|simpl; tauto]).
    + destruct (any_contains _ (lower text)).
      * do 2 eexists. split; [reflexivity|]. split; [reflexivity|simpl; tauto].
      * assert (Htype : any_contains ["введи"; "напиши"; "type"; "enter"; "input"]
                          (lower text) = true).
        { unfold any_contains. cbn [existsb]. rewrite Henter.
          repeat rewrite orb_true_r. reflexivity. }
        rewrite Htype.
        do 2 eexists. split; [reflexivity|]. split; [reflexivity|simpl; tauto].
  - intros Hkey. unfold _extract_action_from_text.
    destruct (any_contains _ (lower text)).
    + do 2 eexists. split; [reflexivity|].
      unfold _parse_navigation_action.
      destruct (search url_pattern text);
        [|destruct (search domain_pattern text)];
        (split; [reflexivity|simpl; tauto]).
    + assert (Hclick : any_contains ["нажми"; "кликни"; "click"; "tap"]
                         (lower text) = true).
      { unfold any_contains. cbn [existsb].
        rewrite (str_contains_app "нажми" " клавишу" (lower text) Hkey).
        reflexivity. }
      rewrite Hclick.
      do 2 eexists. split; [reflexivity|]. split; [reflexivity|simpl; tauto].
Qed.

End TextActions.

(** ** The element finder *)

Section Finder.
Import ElementFinder.
Variable D : Driver.

Lemma first_usable_usable :
  forall elems e,
    first_usable D elems = Ok (Some e) -> usable D e /\ In e elems.
Proof.
  intros elems; induction elems as [|x elems IH]; intros e Hf; [discriminate|].
  cbn [first_usable] in Hf.
  destruct (is_displayed D x) as [[|]|] eqn:Hd; cbn [bind] in Hf;
    try discriminate.
  - destruct (is_enabled D x) as [[|]|] eqn:He; cbn [bind] in Hf;
      try discriminate.
    + inversion Hf; subst. split; [split; assumption|left; reflexivity].
    + destruct (IH e Hf) as [Hu Hin]. split; [exact Hu|right; exact Hin].
  - destruct (IH e Hf) as [Hu Hin]. split; [exact Hu|right; exact Hin].
Qed.

Lemma first_button_usable :
  forall elems e,
    first_button D elems = Ok (Some e) -> usable D e /\ In e elems.
Proof.
  intros elems; induction elems as [|x elems IH]; intros e Hf; [discriminate|].
  cbn [first_button] in Hf.
  destruct (is_displayed D x) as [[|]|] eqn:Hd; cbn [bind] in Hf;
    try discriminate.
  - destruct (is_enabled D x) as [[|]|] eqn:He; cbn [bind] in Hf;
      try discriminate.
    + destruct (text D x) as [t|]; cbn [bind] in Hf; [|discriminate].
      destruct (any_contains _ (lower t)).
      * inversion Hf; subst. split; [split; assumption|left; reflexivity].
      * destruct (negb (String.eqb (lower t) "") && (len (lower t) <? 20)%nat).
        -- inversion Hf; subst. split; [split; assumption|left; reflexivity].
        -- destruct (IH e Hf) as [Hu Hin]. split; [exact Hu|right; exact Hin].
    + destruct (IH e Hf) as [Hu Hin]. split; [exact Hu|right; exact Hin].
  - destruct (IH e Hf) as [Hu Hin]. split; [exact Hu|right; exact Hin].
Qed.

Lemma first_hit_found :
  forall {A} (body : A -> res (option (WebElement D))) l e,
    first_hit D body l = Some e -> exists x, In x l /\ body x = Ok (Some e).
Proof.
  intros A body l e; induction l as [|x l IH]; intros Hh; [discriminate|].
  cbn [first_hit] in Hh.
  destruct (body x) as [[e'|]|] eqn:Hb.
  - inversion Hh; subst. exists x. split; [left; reflexivity|exact Hb].
  - destruct (IH Hh) as (y & Hy & Hby). exists y. split; [right|]; assumption.
  - destruct (IH Hh) as (y & Hy & Hby). exists y. split; [right|]; assumption.
Qed.

(** How the element was found: by one of the selectors or paths the
    finder asks the driver for *)
Definition asked_for (e : WebElement D) : Prop :=
  (exists by_ query elements,
      find_elements D by_ query = Ok elements /\ In e elements) \/
  (exists query, find_element D XPATH query = Ok e).

(** X15.  Every element [find_element_by_description] returns is one the
    driver has found for a query of the finder and has reported as displayed
    and as enabled, in whichever tier it was found. *)
Theorem found_element_is_usable :
  forall (description : string) (e : WebElement D),
    find_element_by_description D description = Ok (Some e) ->
    is_displayed D e = Ok true /\ is_enabled D e = Ok true /\ asked_for e.
Proof.
  intros description e Hfound.
  assert (Hbody : find_body D description = Ok (Some e)).
  { unfold find_element_by_description in Hfound.
    destruct (find_body D description) as [r|]; [exact Hfound|].
    discriminate Hfound. }
  assert (Hselect :
            forall (by_ : By) (query : string) inner,
              (forall l x, inner l = Ok (Some x) -> usable D x /\ In x l) ->
              (elements <- find_elements D by_ query ;; inner elements)
              = Ok (Some e) ->
              usable D e /\ asked_for e).
  { intros by_ query inner Hinner Hq.
    destruct (find_elements D by_ query) as [elements|] eqn:Hf; [|discriminate].
    cbn [bind] in Hq. destruct (Hinner _ _ Hq) as [Hu Hin].
    split; [exact Hu|]. left. exists by_, query, elements. auto. }
  assert (Hgoal : usable D e /\ asked_for e).
  { unfold find_body in Hbody.
    destruct (find_by_role D description) as [e1|] eqn:Hrole.
    { inversion Hbody; subst. unfold find_by_role in Hrole.
      destruct (mentions_search description).
      - unfold find_search_box in Hrole. apply first_hit_found in Hrole.
        destruct Hrole as (selector & _ & Hq).
        eapply Hselect; [apply first_usable_usable|exact Hq].
      - destruct (mentions_button description); [|discriminate].
        unfold find_button in Hrole. apply first_hit_found in Hrole.
        destruct Hrole as (selector & _ & Hq).
        eapply Hselect; [apply first_button_usable|exact Hq]. }
    destruct (find_by_text D description) as [e2|] eqn:Htext.
    { inversion Hbody; subst. unfold find_by_text in Htext.
      destruct (search re_text description) as [m|]; [|discriminate].
      unfold or_else in Htext.
      match type of Htext with
      | match ?q with _ => _ end = _ => destruct q as [[x|]|] eqn:Hq
      end; try discriminate.
      inversion Htext; subst.
      eapply Hselect; [apply first_usable_usable|exact Hq]. }
    destruct (find_by_attribute D description) as [e3|] eqn:Hattr.
    { inversion Hbody; subst. unfold find_by_attribute in Hattr.
      apply first_hit_found in Hattr. destruct Hattr as (attr & _ & Hq).
      destruct (search (re_attr attr) description) as [m|]; [|discriminate].
      eapply Hselect; [apply first_usable_usable|exact Hq]. }
    inversion Hbody as [Hlast]. unfold find_first_interactive in Hlast.
    apply first_hit_found in Hlast. destruct Hlast as (elem_desc & _ & Hq).
    destruct (find_element D XPATH (d_xpath elem_desc)) as [elem|] eqn:Hf;
      [|discriminate].
    cbn [bind] in Hq.
    destruct (is_displayed D elem) as [[|]|] eqn:Hd; cbn [bind] in Hq;
      try discriminate.
    destruct (is_enabled D elem) as [[|]|] eqn:He; cbn [bind] in Hq;
      try discriminate.
    inversion Hq; subst. split; [split; assumption|].
    right. exists (d_xpath elem_desc). exact Hf. }
  destruct Hgoal as [[Hd He] Hasked]. auto.
Qed.

Lemma put_by_xpath_keys :
  forall e l x,
    In x (map d_xpath (put_by_xpath e l)) <->
    x = d_xpath e \/ In x (map d_xpath l).
Proof.
  intros e l x; induction l as [|e' l IH]; cbn [put_by_xpath map In].
  - intuition.
  - destruct (String.eqb_spec (d_xpath e) (d_xpath e')) as [Heq|Hne];
      cbn [map In]; [rewrite Heq|rewrite IH]; intuition.
Qed.

Lemma put_by_xpath_nodup :
  forall e l, NoDup (map d_xpath l) -> NoDup (map d_xpath (put_by_xpath e l)).
Proof.
  intros e l; induction l as [|e' l IH]; cbn [put_by_xpath map]; intros Hnd.
  - constructor; [intros []|constructor].
  - inversion Hnd as [|? ? Hnotin Hnd']; subst.
    destruct (String.eqb_spec (d_xpath e) (d_xpath e')) as [Heq|Hne];
      cbn [map].
    + constructor; [rewrite Heq; exact Hnotin|exact Hnd'].
    + constructor; [|apply IH; exact Hnd'].
      intros Hin. apply put_by_xpath_keys in Hin.
      destruct Hin as [Hin|Hin]; [congruence|contradiction].
Qed.

Lemma put_by_xpath_length :
  forall e l, (List.length (put_by_xpath e l) <= S (List.length l))%nat.
Proof.
  intros e l; induction l as [|e' l IH]; cbn [put_by_xpath List.length];
    [lia|].
  destruct (String.eqb (d_xpath e) (d_xpath e')); cbn [List.length]; lia.
Qed.

Lemma put_all_nodup :
  forall described acc,
    NoDup (map d_xpath acc) ->
    NoDup (map d_xpath (fold_left (fun acc e => put_by_xpath e acc) described acc)).
Proof.
  intros described; induction described as [|e described IH];
    intros acc Hnd; simpl.
  - exact Hnd.
  - apply IH, put_by_xpath_nodup, Hnd.
Qed.

Lemma put_all_keys :
  forall described acc x,
    In x (map d_xpath (fold_left (fun acc e => put_by_xpath e acc) described acc))
    <-> In x (map d_xpath described) \/ In x (map d_xpath acc).
Proof.
  intros described; induction described as [|e described IH];
    intros acc x; simpl.
  - intuition.
  - rewrite IH, put_by_xpath_keys. intuition.
Qed.

(** X16.  The interactive elements of a page are reported with pairwise
    different XPaths and never more than twenty at a time, and every one of
    them is reported under the XPath of an element that one of the thirteen
    selectors found displayed. *)
Theorem interactive_elements_distinct :
  let found := _get_interactive_elements D in
  (List.length found <= 20)%nat /\
  NoDup (map d_xpath found) /\
  (forall d, In d found ->
     exists selector elem,
       In selector interactive_selectors /\
       (exists l, find_elements D CSS_SELECTOR selector = Ok l /\ In elem l) /\
       is_displayed D elem = Ok true /\
       d_xpath d = d_xpath (_describe_element D elem)).
Proof.
  intros found. subst found. unfold _get_interactive_elements.
  rewrite slice_to_firstn by lia.
  set (described := flat_map (describe_found D) interactive_selectors).
  set (unique := fold_left (fun acc e => put_by_xpath e acc) described []).
  assert (Hnd : NoDup (map d_xpath unique))
    by (apply put_all_nodup; constructor).
  split; [apply List.firstn_le_length|].
  split; [rewrite <- List.firstn_map; apply nodup_firstn; exact Hnd|].
  intros d Hin. apply firstn_in in Hin.
  assert (Hkey : In (d_xpath d) (map d_xpath described)).
  { assert (Hk : In (d_xpath d) (map d_xpath unique))
      by (apply in_map; exact Hin).
    subst unique. apply put_all_keys in Hk. destruct Hk as [Hk|[]]. exact Hk. }
  apply in_map_iff in Hkey. destruct Hkey as (d0 & Hx & Hd0).
  subst described. apply in_flat_map in Hd0.
  destruct Hd0 as (selector & Hsel & Hd0). unfold describe_found in Hd0.
  destruct (find_elements D CSS_SELECTOR selector) as [l|] eqn:Hf; [|contradiction].
  apply in_flat_map in Hd0. destruct Hd0 as (elem & Helem & Hd0).
  destruct (is_displayed D elem) as [[|]|] eqn:Hshown; try contradiction.
  destruct Hd0 as [<-|[]].
  exists selector, elem. split; [exact Hsel|].
  split; [exists l; split; [exact Hf|]; apply firstn_in with (n := Z.to_nat 5);
          rewrite <- slice_to_firstn by lia; exact Helem|].
  split; [exact Hshown|]. symmetry. exact Hx.
Qed.

End Finder.

Lemma found_element_is_usable_witness :
  ElementFinder.is_displayed (ElementFinder.static_driver sample_dom) login_button
  = Ok true /\
  ElementFinder.is_enabled (ElementFinder.static_driver sample_dom) login_button
  = Ok true /\
  asked_for (ElementFinder.static_driver sample_dom) login_button.
Proof.
  apply (found_element_is_usable (ElementFinder.static_driver sample_dom)
           "элемент текст: 'Login'" login_button).
  vm_compute. reflexivity.
Defined.

(** ** The agent *)

Section Agent.
Context {J : Json.Codec} {Hh : Hashlib}.
Variable E : Env.
Import BrowserAgent.

Local Abbreviation agent := (Agent E).

(** X17.  The actions [analyze], [complete], [ask_human] and [wait] are
    handled by the agent itself and never reach the browser: whatever
    [_execute_action] returns or raises for them, the agent and its browser
    are as before.  For [analyze] and [complete] it returns the fixed
    success result; for [ask_human] it returns the question, the default
    one when the parameters name none, and raises if the parameters are no
    dictionary. *)
Theorem special_actions_stay_inside :
  forall (d : dict) (tag : string) (a : agent),
    dict_get "action" d = Some (PStr tag) ->
    In tag ["analyze"; "complete"; "ask_human"; "wait"] ->
    fst (_execute_action E (PDict d) a) = a /\
    (tag = "analyze" ->
     snd (_execute_action E (PDict d) a)
     = Ok (ok_dict "Проведен анализ ситуации")) /\
    (tag = "complete" ->
     snd (_execute_action E (PDict d) a)
     = Ok (ok_dict "Задача помечена как завершенная")) /\
    (tag = "ask_human" ->
     snd (_execute_action E (PDict d) a)
     = (question <- method_get (dict_get_default "parameters" (PDict []) d)
                      "question" (PStr "Требуется помощь пользователя") ;;
        Ok (PDict [ ("success", PBool true);
                    ("message", PStr "Запрошена помощь пользователя");
                    ("question", question) ]))).
Proof.
  intros d tag a Htag Hin.
  assert (Hact : dict_get_default "action" PNone d = PStr tag)
    by (unfold dict_get_default; rewrite Htag; reflexivity).
  unfold _execute_action, mbind, lift, ret. cbn [method_get].
  rewrite Hact. cbn [eq_str].
  simpl in Hin.
  destruct Hin as [<-|[<-|[<-|[<-|[]]]]];
    repeat match goal with
           | |- context [String.eqb ?x ?y] =>
               let b := eval vm_compute in (String.eqb x y) in
               change (String.eqb x y) with b
           end;
    cbv beta iota.
  - repeat split; intros; try discriminate; reflexivity.
  - repeat split; intros; try discriminate; reflexivity.
  - destruct (method_get (dict_get_default "parameters" (PDict []) d)
                "question" (PStr "Требуется помощь пользователя")) as [q|e];
      repeat split; intros; try discriminate; reflexivity.
  - destruct (method_get (dict_get_default "parameters" (PDict []) d)
                "seconds" (PInt 2)) as [w|e];
      [destruct (sleep w)|];
      repeat split; intros; try discriminate; reflexivity.
Qed.

(** The [finally] block uses neither the language model nor the flags. *)
Lemma finally_block_rest :
  forall fr (a a' : agent) r,
    finally_block E fr a = (a', r) ->
    llm_calls E a' = llm_calls E a /\
    needs_human_input E a' = needs_human_input E a /\
    is_task_complete E a' = is_task_complete E a.
Proof.
  intros fr a a' r Hfin.
  unfold finally_block, mbind, modify, page_state, gets, lift, ret in Hfin.
  cbn [set_is_active context_manager] in Hfin.
  destruct (ContextManager.action_history (context_manager E a)).
  - inversion Hfin; subst. repeat split.
  - destruct (success_of fr) as [b|e]; [|inversion Hfin; subst; repeat split].
    match type of Hfin with
    | context [EpisodicMemory.add_episode ?u ?t ?p ?ac ?s ?n ?m ?f] =>
        destruct (EpisodicMemory.add_episode u t p ac s n m f)
          as [[m' f'] [ep|e]]
    end; inversion Hfin; subst; repeat split.
Qed.

(** X18.  While the agent waits for an answer of the user, a new run
    takes no step: the loop is not entered, the language model and the
    browser are not used, the step counter is zero and the agent goes on
    waiting.  With an empty history the run returns the result for an
    unknown error and stores nothing. *)
Theorem waiting_agent_takes_no_step :
  forall (fuel : nat) (task : string) (a : agent),
    needs_human_input E a = true ->
    let run := _execute_task_loop E fuel task a in
    current_step E (fst run) = 0 /\
    llm_calls E (fst run) = llm_calls E a /\
    browser E (fst run) = browser E a /\
    context_manager E (fst run) = context_manager E a /\
    needs_human_input E (fst run) = true /\
    (ContextManager.action_history (context_manager E a) = [] ->
     snd run = Ok (Some (PDict [ ("success", PBool false);
                                 ("message", PStr "Неизвестная ошибка") ])) /\
     episodic_memory E (fst run) = episodic_memory E a /\
     fs E (fst run) = fs E a).
Proof.
  intros fuel task a Hwait run. subst run. unfold _execute_task_loop.
  assert (Hwait0 : needs_human_input E (begin E a) = true) by exact Hwait.
  assert (Hloop : while_loop E fuel task (begin E a) = (begin E a, Ok (Some None))).
  { assert (Ht : loop_test E (begin E a) = false).
    { unfold loop_test. rewrite Hwait0. apply andb_false_r. }
    destruct fuel; cbn [while_loop]; rewrite Ht; reflexivity. }
  rewrite Hloop. cbv beta iota zeta. unfold result_after_loop.
  rewrite Hwait0. cbn [negb]. rewrite andb_false_r.
  destruct (finally_block E None (begin E a)) as [a2 r2] eqn:Hfin.
  pose proof Hfin as Heffect. apply finally_block_effect in Heffect.
  destruct Heffect as (Hc & Hs & _ & Hb & Hhist).
  apply finally_block_rest in Hfin. destruct Hfin as (Hl & Hn & _).
  assert (Hrest : current_step E a2 = 0 /\ llm_calls E a2 = llm_calls E a /\
                  browser E a2 = browser E a /\
                  context_manager E a2 = context_manager E a /\
                  needs_human_input E a2 = true).
  { rewrite Hs, Hl, Hb, Hc, Hn. repeat split. exact Hwait. }
  destruct Hrest as (H1 & H2 & H3 & H4 & H5).
  assert (Hempty :
            ContextManager.action_history (context_manager E a) = [] ->
            r2 = Ok tt /\ episodic_memory E a2 = episodic_memory E a /\
            fs E a2 = fs E a).
  { intros Hnil.
    change (ContextManager.action_history (context_manager E (begin E a)))
      with (ContextManager.action_history (context_manager E a)) in Hhist.
    rewrite Hnil in Hhist. exact Hhist. }
  destruct r2 as [u|e]; cbn [fst snd];
    (split; [exact H1|]); (split; [exact H2|]); (split; [exact H3|]);
    (split; [exact H4|]); (split; [exact H5|]); intros Hnil;
    destruct (Hempty Hnil) as (Hr & Hm & Hfs).
  - split; [reflexivity|]. split; assumption.
  - discriminate Hr.
Qed.

(** X19.  [provide_human_input] reports success exactly when the agent
    was waiting and is told to continue or given a non-empty answer; then
    it stops waiting, and an answer is added to the guidance unless the
    instruction is [continue], in which case the answer is dropped.  When it
    reports no success the agent is as before. *)
Theorem provide_human_input_effect :
  forall (answer instruction : string) (a : agent),
    let a' := fst (provide_human_input E answer instruction a) in
    let r := snd (provide_human_input E answer instruction a) in
    let accepted :=
      needs_human_input E a
      && (String.eqb instruction "continue" || negb (String.eqb answer "")) in
    method_get r "success" PNone = Ok (PBool accepted) /\
    (accepted = true -> needs_human_input E a' = false) /\
    (accepted = false -> a' = a) /\
    ContextManager.system_context (context_manager E a')
    = (if accepted && negb (String.eqb instruction "continue")
       then List.app (ContextManager.system_context (context_manager E a))
                     ["Пользователь предоставил информацию: " ++ answer]
       else ContextManager.system_context (context_manager E a)) /\
    ContextManager.action_history (context_manager E a')
    = ContextManager.action_history (context_manager E a) /\
    browser E a' = browser E a /\ current_step E a' = current_step E a.
Proof.
  intros answer instruction a a' r accepted. subst a' r accepted.
  unfold provide_human_input.
  destruct (needs_human_input E a) eqn:Hn; cbn [negb andb].
  - destruct (String.eqb instruction "continue"); cbn [orb negb andb fst snd].
    + repeat split; try reflexivity. intros; discriminate.
    + destruct (String.eqb answer ""); cbn [negb fst snd].
      * repeat split; try reflexivity. intros; discriminate.
      * repeat split; try reflexivity. intros; discriminate.
  - cbn [fst snd]. repeat split; try reflexivity. intros; discriminate.
Qed.

End Agent.

Section Runs.
Context {J : Json.Codec} {Hh : Hashlib}.
Variable E : Env.
Import BrowserAgent.

Local Abbreviation agent := (Agent E).

(** Split a sequence of statements at its first statement; the case in
    which that statement raises is kept. *)
Ltac split_bind Hrun H1 :=
  let a1 := fresh "a" in
  let x := fresh "x" in
  let e := fresh "e" in
  let Heq := fresh "Heq" in
  apply mbind_inv in Hrun;
  destruct Hrun as [(a1 & x & H1 & Hrun)|(e & H1 & Heq)].

Ltac plain H :=
  first
    [ apply lift_inv in H; destruct H as [-> H]
    | apply ret_inv in H; destruct H as [-> H]
    | apply gets_inv in H; destruct H as [-> H]
    | apply modify_inv in H; destruct H as [-> H] ].

(** The statements of the loop body in front of the two tests leave the
    two flags alone, however they end. *)
Lemma act_on_prefix :
  forall task ps d (a a' : agent) r,
    act_on E task ps d a = (a', r) ->
    (exists e, r = Raise e /\ frame E a a') \/
    exists a1 tag,
      frame E a a1 /\ method_get d "action" PNone = Ok tag /\
      (if eq_str tag "complete"
       then
         mbind E (modify E (set_is_task_complete E true))
           (fun _ =>
              mbind E (gets E (current_step E))
                (fun step =>
                   mbind E (page_state E)
                     (fun final_state =>
                        ret E (Break (Some (PDict
                          [ ("success", PBool true);
                            ("message", PStr "Задача успешно выполнена");
                            ("steps", PInt step);
                            ("final_state", page_to_py final_state) ]))))))
       else
         mbind E (lift E (method_get d "action" PNone))
           (fun tag0 =>
              if eq_str tag0 "ask_human"
              then
                mbind E (modify E (set_needs_human_input E true))
                  (fun _ =>
                     mbind E (lift E (method_get d "parameters" (PDict [])))
                       (fun parameters =>
                          mbind E (lift E (method_get parameters "question" PNone))
                            (fun question =>
                               mbind E (gets E (current_step E))
                                 (fun step =>
                                    ret E (Break (Some (PDict
                                      [ ("success", PBool false);
                                        ("message",
                                         PStr "Требуется ввод пользователя");
                                        ("question", question);
                                        ("current_step", PInt step) ])))))))
              else
                mbind E (reflection_due E)
                  (fun due =>
                     mbind E
                       (if due then _perform_reflection E task else ret E tt)
                       (fun _ => ret E Continue)))) a1
      = (a', r).
Proof.
  intros task ps d a a' r Hrun. unfold act_on in Hrun.
  split_bind Hrun S1;
    [|left; exists e; split; [exact Heq|];
      eapply _execute_action_frame; exact S1].
  apply _execute_action_frame in S1.
  split_bind Hrun S2; [|plain S2; left; exists e; split; [exact Heq|exact S1]].
  plain S2.
  split_bind Hrun S3; [|plain S3; left; exists e; split; [exact Heq|exact S1]].
  plain S3.
  split_bind Hrun S4;
    [|left; exists e; split; [exact Heq|];
      eapply frame_trans; [exact S1|eapply now_frame; exact S4]].
  apply now_frame in S4.
  split_bind Hrun S5;
    [|left; exists e; split; [exact Heq|];
      eapply frame_trans; [exact S1|];
      eapply frame_trans; [exact S4|eapply add_action_frame; exact S5]].
  apply add_action_frame in S5.
  assert (Hf : frame E a a2)
    by (eapply frame_trans; [exact S1|eapply frame_trans; eassumption]).
  split_bind Hrun S6; [|plain S6; left; exists e; split; [exact Heq|exact Hf]].
  plain S6. right. exists a2, x4. split; [exact Hf|].
  split; [symmetry; exact S6|exact Hrun].
Qed.

(** ** The calls of the language model *)

(** The statement does not ask the language model. *)
Definition same_calls (a a' : agent) : Prop := llm_calls E a' = llm_calls E a.

Lemma same_calls_refl : forall a, same_calls a a.
Proof. intros a; reflexivity. Qed.

Lemma same_calls_trans :
  forall a b c, same_calls a b -> same_calls b c -> same_calls a c.
Proof. unfold same_calls; intros a b c Hab Hbc. congruence. Qed.

Lemma modify_same_calls :
  forall f : agent -> agent,
    (forall a, same_calls a (f a)) -> keeps E same_calls (modify E f).
Proof. intros f Hf a a' r Hr. inversion Hr; subst. apply Hf. Qed.

Lemma now_same_calls : keeps E same_calls (now E).
Proof. intros a a' r Hr. inversion Hr; subst. reflexivity. Qed.

Lemma _execute_action_same_calls :
  forall action_data, keeps E same_calls (_execute_action E action_data).
Proof.
  intros action_data. unfold _execute_action.
  repeat first
    [ apply keeps_bind; [exact same_calls_trans| |intros ?]
    | apply keeps_lift, same_calls_refl
    | apply keeps_ret, same_calls_refl
    | match goal with
      | |- keeps _ _ (if ?c then _ else _) => destruct c
      end ].
  intros a a' r Hr.
  destruct (ActionTools.execute_action _ _ _ _) as [b r'] in Hr.
  inversion Hr; subst. reflexivity.
Qed.

Lemma add_action_same_calls :
  forall a_type a_desc result ps stamp,
    keeps E same_calls
      (fun a : agent =>
         let (c, r) :=
           ContextManager.add_action a_type a_desc result ps stamp
                                     (context_manager E a) in
         (set_context_manager E c a, r)).
Proof.
  intros a_type a_desc result ps stamp a a' r Hr.
  destruct (ContextManager.add_action _ _ _ _ _ _) as [c r'] in Hr.
  inversion Hr; subst. reflexivity.
Qed.

Lemma reflection_due_same_calls : keeps E same_calls (reflection_due E).
Proof.
  intros a a' r Hr. unfold reflection_due in Hr.
  destruct (ENABLE_REFLECTION (config E a)); inversion Hr; subst; reflexivity.
Qed.

(** The reflection is handed the records of the history, on which the
    failure analysis ends before it asks anything. *)
Lemma _perform_reflection_same_calls :
  forall task, keeps E same_calls (_perform_reflection E task).
Proof.
  intros task a a' r Hr. unfold _perform_reflection in Hr.
  destruct (ENABLE_REFLECTION (config E a)) as [[|]|].
  - rewrite analyze_failure_on_records in Hr.
    destruct (slice_from (-5) _) in Hr; simpl in Hr; inversion Hr; subst;
      reflexivity.
  - inversion Hr; subst. reflexivity.
  - inversion Hr; subst. reflexivity.
Qed.

Lemma act_on_same_calls :
  forall task ps d, keeps E same_calls (act_on E task ps d).
Proof.
  intros task ps d. unfold act_on.
  repeat first
    [ apply now_same_calls
    | apply _execute_action_same_calls
    | apply add_action_same_calls
    | apply reflection_due_same_calls
    | apply _perform_reflection_same_calls
    | apply keeps_lift, same_calls_refl
    | apply keeps_ret, same_calls_refl
    | apply keeps_gets, same_calls_refl
    | apply modify_same_calls; intros ?; reflexivity
    | match goal with
      | |- keeps _ _ (if ?c then _ else _) => destruct c
      end
    | apply keeps_bind; [exact same_calls_trans| |intros ?] ].
Qed.

(** The first half of a pass asks once, unless assembling the context
    raises before. *)
Lemma observe_and_decide_calls :
  forall task (a a' : agent) r,
    observe_and_decide E task a = (a', r) ->
    (llm_calls E a <= llm_calls E a' <= S (llm_calls E a))%nat.
Proof.
  intros task a a' r Hrun. unfold observe_and_decide in Hrun.
  split_bind Hrun S1; [|plain S1; discriminate].
  plain S1.
  match type of Hrun with
  | _ ?s = _ =>
      assert (Hs : llm_calls E s = llm_calls E a) by reflexivity;
      revert Hrun Hs; generalize s; intros s0 Hrun Hs
  end.
  rewrite <- Hs. clear Hs.
  split_bind Hrun S2; [|plain S2; discriminate]. plain S2.
  split_bind Hrun S3;
    [|match type of S3 with (_, _) = _ => inversion S3; subst end; lia].
  match type of S3 with (_, _) = _ => inversion S3; subst end.
  split_bind Hrun S4;
    [|match type of S4 with (_, _) = _ => inversion S4; subst end; lia].
  match type of S4 with (_, _) = _ => inversion S4; subst end.
  split_bind Hrun S5;
    [|unfold decide_next_action in S5; inversion S5; subst; simpl; lia].
  unfold decide_next_action in S5. inversion S5; subst.
  plain Hrun. simpl. lia.
Qed.

Lemma loop_body_calls :
  forall task (a a' : agent) r,
    loop_body E task a = (a', r) ->
    (llm_calls E a <= llm_calls E a' <= S (llm_calls E a))%nat.
Proof.
  intros task a a' r Hrun. unfold loop_body in Hrun.
  split_bind Hrun S1; [|eapply observe_and_decide_calls; exact S1].
  apply observe_and_decide_calls in S1.
  assert (Hsame : llm_calls E a' = llm_calls E a0).
  { destruct (snd x) as [d|].
    - destruct (negb (truthy d)).
      + plain Hrun. reflexivity.
      + eapply act_on_same_calls; exact Hrun.
    - plain Hrun. reflexivity. }
  rewrite Hsame. exact S1.
Qed.

(** The loop asks at most as often as it counts steps. *)
Lemma while_loop_calls :
  forall fuel task (a a' : agent) r,
    while_loop E fuel task a = (a', r) ->
    (llm_calls E a <= llm_calls E a')%nat /\
    Z.of_nat (llm_calls E a') - Z.of_nat (llm_calls E a)
    <= current_step E a' - current_step E a.
Proof.
  induction fuel as [|fuel IH]; intros task a a' r Hrun;
    cbn [while_loop] in Hrun.
  - destruct (loop_test E a); inversion Hrun; subst; lia.
  - destruct (loop_test E a); [|inversion Hrun; subst; lia].
    destruct (loop_body E task a) as [a1 r1] eqn:Hbody.
    pose proof (loop_body_calls _ _ _ _ Hbody) as Hcalls.
    apply loop_body_frame0 in Hbody.
    assert (Hs : current_step E a1 = current_step E a + 1)
      by (destruct Hbody as (_ & _ & Hs & _); exact Hs).
    destruct r1 as [[|fr]|e].
    + apply IH in Hrun. lia.
    + inversion Hrun; subst. lia.
    + inversion Hrun; subst. lia.
Qed.

(** X20.  A run asks the language model at most once in a step: the
    number of its calls grows by no more than the number of steps counted,
    and so by no more than the configured maximum of steps.  The same bound
    holds for [process], whose statements in front of the loop ask
    nothing. *)
Theorem language_model_asked_once_a_step :
  forall (fuel : nat) (task : string) (input : TaskInput) (a : agent),
    let a' := fst (_execute_task_loop E fuel task a) in
    let a'' := fst (process E input a) in
    (llm_calls E a <= llm_calls E a')%nat /\
    Z.of_nat (llm_calls E a' - llm_calls E a) <= current_step E a' /\
    Z.of_nat (llm_calls E a' - llm_calls E a) <= Z.max 0 (max_steps E a) /\
    Z.of_nat (llm_calls E a'' - llm_calls E a) <= Z.max 0 (max_steps E a).
Proof.
  assert (Hloop :
            forall fuel task (a : agent),
              (llm_calls E a
               <= llm_calls E (fst (_execute_task_loop E fuel task a)))%nat /\
              Z.of_nat (llm_calls E (fst (_execute_task_loop E fuel task a))
                        - llm_calls E a)
              <= current_step E (fst (_execute_task_loop E fuel task a))).
  { intros fuel task a. unfold _execute_task_loop.
    destruct (while_loop E fuel task (begin E a)) as [a1 o] eqn:Hwhile.
    apply while_loop_calls in Hwhile.
    change (llm_calls E (begin E a)) with (llm_calls E a) in Hwhile.
    change (current_step E (begin E a)) with 0 in Hwhile.
    assert (Hfin : forall fr,
               llm_calls E (fst (finally_block E fr a1)) = llm_calls E a1 /\
               current_step E (fst (finally_block E fr a1)) = current_step E a1).
    { intros fr. destruct (finally_block E fr a1) as [a2 r2] eqn:Hfin.
      pose proof Hfin as Hrest. apply finally_block_rest in Hrest.
      apply finally_block_effect in Hfin. cbn [fst]. intuition. }
    destruct o as [[fr|]|e]; cbv beta iota zeta.
    - destruct (Hfin (result_after_loop E (Ok fr) a1)) as [Hc Hs].
      destruct (finally_block E _ a1) as [a2 [u|e]]; cbn [fst] in *; lia.
    - cbn [fst]. lia.
    - destruct (Hfin (result_after_loop E (Raise e) a1)) as [Hc Hs].
      destruct (finally_block E _ a1) as [a2 [u|e']]; cbn [fst] in *; lia. }
  intros fuel task input a a' a''. subst a' a''.
  destruct (Hloop fuel task a) as [Hle Hsteps].
  pose proof (_execute_task_loop_steps E fuel task a) as Hbudget.
  split; [exact Hle|]. split; [exact Hsteps|]. split; [lia|].
  unfold process.
  destruct (String.eqb (BrowserAgent.task input) ""); [cbn [fst]; lia|].
  match goal with
  | |- context [let (_, _) := ?m a in _] =>
      destruct (m a) as [a1 r1] eqn:Hprelude
  end.
  assert (Hsame : llm_calls E a1 = llm_calls E a /\ max_steps E a1 = max_steps E a).
  { unfold mbind, now, modify, ret in Hprelude.
    destruct (negb (String.eqb (initial_url input) "")).
    - destruct (browser_getattr E "navigate_to") as [navigate_to|].
      + destruct (navigate_to _ _) as [b r] in Hprelude.
        inversion Hprelude; subst. split; reflexivity.
      + inversion Hprelude; subst. split; reflexivity.
    - inversion Hprelude; subst. split; reflexivity. }
  destruct Hsame as [Hc Hm]. rewrite <- Hc, <- Hm.
  destruct r1 as [x|e]; [|cbn [fst]; lia].
  destruct (Hloop (Z.to_nat (max_steps E a1)) (BrowserAgent.task input) a1)
    as [Hle1 Hsteps1].
  pose proof (_execute_task_loop_steps E (Z.to_nat (max_steps E a1))
                (BrowserAgent.task input) a1) as Hbudget1.
  lia.
Qed.

(** ** The success flag of the result *)

(** What a result says of the agent that returns it: its first entry is
    the success flag, which is the flag of the completed task; a message
    is among the other entries; and a result that tells of success is the
    one the loop builds for a completed task. *)
Definition tells (fr : pyval) (a : agent) : Prop :=
  exists rest message,
    fr = PDict (("success", PBool (is_task_complete E a)) :: rest) /\
    dict_get "message" rest = Some (PStr message) /\
    (is_task_complete E a = true ->
     rest = [ ("message", PStr "Задача успешно выполнена");
              ("steps", PInt (current_step E a));
              ("final_state", page_to_py (get_page_state E (browser E a))) ]).

(** How the second half of a pass ends when the task was not complete
    before: a result it breaks with tells of the agent, and otherwise the
    task is still not complete. *)
Lemma act_on_ends :
  forall task ps d (a a' : agent) r,
    act_on E task ps d a = (a', r) ->
    is_task_complete E a = false ->
    match r with
    | Ok (Break (Some fr)) => tells fr a'
    | _ => is_task_complete E a' = false
    end.
Proof.
  intros task ps d a a' r Hrun Hc.
  apply act_on_prefix in Hrun.
  destruct Hrun as [(e & -> & Hf)|(a1 & tag & Hf & Htag & Htail)].
  - destruct Hf as [_ [Hcomp _]]. rewrite Hcomp. exact Hc.
  - assert (Hc1 : is_task_complete E a1 = false)
      by (destruct Hf as [_ [Hcomp _]]; rewrite Hcomp; exact Hc).
    clear Hf. destruct (eq_str tag "complete").
    + unfold mbind, modify, page_state, gets, ret in Htail.
      inversion Htail; subst. do 2 eexists.
      split; [reflexivity|]. split; [reflexivity|]. intros _. reflexivity.
    + split_bind Htail T1; [|plain T1; subst; exact Hc1]. plain T1.
      match type of Htail with
      | context [eq_str ?t "ask_human"] => destruct (eq_str t "ask_human")
      end.
      * split_bind Htail T2; [|plain T2; discriminate]. plain T2.
        split_bind Htail T3; [|plain T3; subst; exact Hc1]. plain T3.
        split_bind Htail T4; [|plain T4; subst; exact Hc1]. plain T4.
        split_bind Htail T5; [|plain T5; discriminate]. plain T5.
        plain Htail. subst. unfold tells.
        cbn [is_task_complete set_needs_human_input]. rewrite Hc1.
        do 2 eexists. split; [reflexivity|]. split; [reflexivity|].
        intros Hno; discriminate Hno.
      * split_bind Htail T2;
          [|apply reflection_due_frame in T2; destruct T2 as [_ [Hcomp _]];
            subst; cbv iota; rewrite Hcomp; exact Hc1].
        apply reflection_due_frame in T2. destruct T2 as [_ [Hcomp2 _]].
        split_bind Htail T3.
        -- plain Htail. subst.
           match type of T3 with
           | (if ?due then _ else _) _ = _ => destruct due
           end.
           ++ apply _perform_reflection_frame in T3.
              destruct T3 as [_ [Hcomp3 _]]. cbv iota.
              rewrite Hcomp3, Hcomp2. exact Hc1.
           ++ plain T3. cbv iota. rewrite Hcomp2. exact Hc1.
        -- subst.
           match type of T3 with
           | (if ?due then _ else _) _ = _ => destruct due
           end.
           ++ apply _perform_reflection_frame in T3.
              destruct T3 as [_ [Hcomp3 _]]. cbv iota.
              rewrite Hcomp3, Hcomp2. exact Hc1.
           ++ plain T3. discriminate.
Qed.

Lemma loop_body_ends :
  forall task (a a' : agent) r,
    loop_body E task a = (a', r) ->
    is_task_complete E a = false ->
    match r with
    | Ok (Break (Some fr)) => tells fr a'
    | _ => is_task_complete E a' = false
    end.
Proof.
  intros task a a' r Hrun Hc. unfold loop_body in Hrun.
  split_bind Hrun S1;
    [|apply observe_and_decide_frame in S1; destruct S1 as [_ [Hcomp _]];
      subst; cbv iota; rewrite Hcomp; exact Hc].
  apply observe_and_decide_frame in S1. destruct S1 as [_ [Hcomp _]].
  match type of Hrun with
  | context [snd ?x] => destruct (snd x) as [d|]
  end.
  - destruct (negb (truthy d)).
    + plain Hrun. subst. cbv iota. rewrite Hcomp. exact Hc.
    + eapply act_on_ends; [exact Hrun|]. rewrite Hcomp. exact Hc.
  - plain Hrun. subst. cbv iota. rewrite Hcomp. exact Hc.
Qed.

Lemma while_loop_ends :
  forall fuel task (a a' : agent) outcome,
    while_loop E fuel task a = (a', outcome) ->
    is_task_complete E a = false ->
    match outcome with
    | Ok (Some (Some fr)) => tells fr a'
    | _ => is_task_complete E a' = false
    end.
Proof.
  induction fuel as [|fuel IH]; intros task a a' outcome Hrun Hc;
    cbn [while_loop] in Hrun.
  - destruct (loop_test E a); inversion Hrun; subst; exact Hc.
  - destruct (loop_test E a); [|inversion Hrun; subst; exact Hc].
    destruct (loop_body E task a) as [a1 r1] eqn:Hbody.
    apply loop_body_ends in Hbody; [|exact Hc].
    destruct r1 as [[|[fr|]]|e].
    + eapply IH; [exact Hrun|exact Hbody].
    + inversion Hrun; subst. exact Hbody.
    + inversion Hrun; subst. exact Hbody.
    + inversion Hrun; subst. exact Hbody.
Qed.

(** The [finally] block does not change what a result tells. *)
Lemma finally_block_tells :
  forall fr0 fr (a a' : agent) r,
    finally_block E fr0 a = (a', r) -> tells fr a -> tells fr a'.
Proof.
  intros fr0 fr a a' r Hfin (rest & message & Hfr & Hmsg & Hdone).
  pose proof Hfin as Hrest. apply finally_block_rest in Hrest.
  apply finally_block_effect in Hfin.
  destruct Hrest as (_ & _ & Hc). destruct Hfin as (_ & Hs & _ & Hb & _).
  unfold tells. rewrite Hc, Hs, Hb. exists rest, message. auto.
Qed.

(** X21.  Whatever a run returns is a dictionary that begins with the
    success flag and holds a message, and the flag is the agent's flag of
    the completed task: a run reports success exactly when it ended by a
    decision to complete, and not when it ran out of steps, stopped to ask
    the user, got no decision or met an exception.  The result of a
    completed task consists of the flag, the fixed message, the number of
    steps counted and the state of the page. *)
Theorem reported_success_is_completion :
  forall (fuel : nat) (task : string) (a a' : agent) (result : pyval),
    _execute_task_loop E fuel task a = (a', Ok (Some result)) ->
    exists rest message,
      result = PDict (("success", PBool (is_task_complete E a')) :: rest) /\
      dict_get "message" rest = Some (PStr message) /\
      (is_task_complete E a' = true ->
       rest = [ ("message", PStr "Задача успешно выполнена");
                ("steps", PInt (current_step E a'));
                ("final_state", page_to_py (get_page_state E (browser E a'))) ]).
Proof.
  intros fuel task a a' result Hrun.
  apply _execute_task_loop_inv in Hrun; [|discriminate].
  destruct Hrun as (a1 & outcome & final_result & Hloop & Hfinal & _ &
                    r1 & Hfin & Hr).
  destruct r1 as [u|e]; [|discriminate Hr].
  injection Hr as ->.
  apply while_loop_ends in Hloop; [|reflexivity].
  assert (Htells : tells (returned final_result) a1).
  { assert (Hplain :
              forall fr rest message,
                is_task_complete E a1 = false ->
                fr = PDict (("success", PBool false) :: rest) ->
                dict_get "message" rest = Some (PStr message) ->
                tells fr a1).
    { intros fr rest message Hno -> Hmsg. unfold tells. rewrite Hno.
      exists rest, message. split; [reflexivity|]. split; [exact Hmsg|].
      intros Hyes; discriminate Hyes. }
    subst final_result. destruct outcome as [[[fr|]|]|e];
      unfold result_after_loop.
    - destruct Hloop as (rest & message & -> & Hmsg & Hdone).
      destruct (is_task_complete E a1) eqn:Hc; cbn [negb andb].
      + cbn [returned truthy]. unfold tells. rewrite Hc.
        exists rest, message. auto.
      + destruct (needs_human_input E a1); cbn [negb returned truthy].
        * unfold tells. rewrite Hc. exists rest, message. auto.
        * eapply Hplain; [reflexivity|reflexivity|reflexivity].
    - rewrite Hloop. cbn [negb andb].
      destruct (needs_human_input E a1); cbn [negb returned truthy].
      + eapply Hplain; [exact Hloop|reflexivity|reflexivity].
      + eapply Hplain; [exact Hloop|reflexivity|reflexivity].
    - rewrite Hloop. cbn [negb andb].
      destruct (needs_human_input E a1); cbn [negb returned truthy].
      + eapply Hplain; [exact Hloop|reflexivity|reflexivity].
      + eapply Hplain; [exact Hloop|reflexivity|reflexivity].
    - cbn [returned truthy].
      eapply Hplain; [exact Hloop|reflexivity|reflexivity]. }
  eapply finally_block_tells in Htells; [|exact Hfin].
  exact Htells.
Qed.

End Runs.

Definition complete_reply : string :=
  jsq "{'action':'complete','description':'the task is done'}".

Definition completing_env : Env := constant_env (Ok complete_reply).

Lemma reported_success_is_completion_witness :
  let a := fresh_agent completing_env (BrowserAgent.mkConfig 3 (Some true)) tt in
  let run :=
    BrowserAgent._execute_task_loop (J := ref_codec) (H := toy_hashlib)
      completing_env 3 "find the weather" a in
  BrowserAgent.is_task_complete completing_env (fst run) = true /\
  exists rest message,
    snd run = Ok (Some (PDict (("success", PBool true) :: rest))) /\
    dict_get "message" rest = Some (PStr message).
Proof.
  intros a run.
  destruct (snd run) as [[r|]|e] eqn:Hsnd; try (vm_compute in Hsnd; discriminate).
  assert (Hrun : run = (fst run, Ok (Some r)))
    by (rewrite <- Hsnd; destruct run; reflexivity).
  destruct (@reported_success_is_completion ref_codec toy_hashlib
              completing_env 3 "find the weather" a (fst run) r Hrun)
    as (rest & message & Hr & Hmsg & _).
  assert (Hdone : BrowserAgent.is_task_complete completing_env (fst run) = true)
    by (vm_compute; reflexivity).
  split; [exact Hdone|].
  exists rest, message. rewrite Hr, Hdone. split; [reflexivity|exact Hmsg].
Defined.
